(** * Skinworth: the advantage-score calculator

    A shallow embedding of the calculator component ([clamp], [interpret],
    [calculate] and the three button handlers) together with the part of
    the JavaScript number semantics that the component relies on.

    Numbers are IEEE 754 binary64 values, represented by the Standard
    Library's [spec_float] and its operations at precision 53 and maximal
    exponent 1024.  Form fields are strings, read with [parseFloat].

    The display function [fmt] with [toFixed], the cells of the result
    panel and of the history table, and the [useLocalStorage] hook
    follow.  The general case of [Math.pow] is left to the host by the
    language; module [Exact] gives the real number that a binary64 value
    stands for, to say when a host's power is faithful. *)

From Stdlib Require Import ZArith Bool List String Ascii Lia.
From Stdlib Require Import Floats.SpecFloat.
From Stdlib Require Reals Lra.
Import ListNotations.

Local Open Scope Z_scope.

(** ** JavaScript numbers *)

Module Number.

Definition prec : Z := 53.
Definition emax : Z := 1024.

Definition number := spec_float.

Definition NaN : number := S754_nan.
Definition pos_zero : number := S754_zero false.
Definition neg_zero : number := S754_zero true.
Definition pos_infinity : number := S754_infinity false.
Definition neg_infinity : number := S754_infinity true.

(** The Number value of the mathematical value [sign m * 10^k], rounded to
    nearest, ties to even.  This is the value of a decimal literal of the
    source text and of a decimal string read by [parseFloat].  The exact
    value is rounded, whatever the number of its digits. *)
Definition of_decimal (neg : bool) (m : Z) (k : Z) : number :=
  match m with
  | Zpos p =>
      match k with
      | Zneg q =>
          let '(mz, ez, lz) :=
            SFdiv_core_binary prec emax (Zpos p) 0 (Zpos (Pos.pow 10 q)) 0 in
          binary_round_aux prec emax neg mz ez lz
      | Z0 => binary_round prec emax neg p 0
      | Zpos q => binary_round prec emax neg (p * Pos.pow 10 q) 0
      end
  | _ => S754_zero neg
  end.

Definition zero : number := pos_zero.
Definition one : number := of_decimal false 1 0.

(** Arithmetic operators [+], [-], [*], [/] and unary [-]. *)
Definition add : number -> number -> number := SFadd prec emax.
Definition sub : number -> number -> number := SFsub prec emax.
Definition mul : number -> number -> number := SFmul prec emax.
Definition div : number -> number -> number := SFdiv prec emax.
Definition neg : number -> number := SFopp.
Definition abs : number -> number := SFabs.

(** Relational operators; every comparison with NaN is [false]. *)
Definition lt (x y : number) : bool := SFltb x y.
Definition le (x y : number) : bool := SFleb x y.
Definition gt (x y : number) : bool := SFltb y x.
Definition ge (x y : number) : bool := SFleb y x.
Definition eq (x y : number) : bool := SFeqb x y.

Definition is_nan (x : number) : bool :=
  match x with S754_nan => true | _ => false end.

(** [ToBoolean] on numbers: NaN, +0 and -0 are falsy. *)
Definition truthy (x : number) : bool :=
  match x with
  | S754_nan | S754_zero _ => false
  | _ => true
  end.

(** [a || b] on numbers. *)
Definition or_else (a b : number) : number := if truthy a then a else b.

(** [Number.isFinite]. *)
Definition isFinite (x : number) : bool :=
  match x with
  | S754_zero _ | S754_finite _ _ _ => true
  | _ => false
  end.

Definition is_pos_zero (x : number) : bool :=
  match x with S754_zero false => true | _ => false end.
Definition is_neg_zero (x : number) : bool :=
  match x with S754_zero true => true | _ => false end.

(** [Math.max]: the loop of the language definition over the coerced
    arguments, starting from -Infinity. *)
Fixpoint max_loop (highest : number) (coerced : list number) : number :=
  match coerced with
  | [] => highest
  | n :: rest =>
      if is_nan n then NaN
      else
        let highest :=
          if is_pos_zero n && is_neg_zero highest then pos_zero else highest in
        let highest := if gt n highest then n else highest in
        max_loop highest rest
  end.

Definition Math_max (a b : number) : number := max_loop neg_infinity [a; b].

(** [Math.min]: the same loop, starting from +Infinity. *)
Fixpoint min_loop (lowest : number) (coerced : list number) : number :=
  match coerced with
  | [] => lowest
  | n :: rest =>
      if is_nan n then NaN
      else
        let lowest :=
          if is_neg_zero n && is_pos_zero lowest then neg_zero else lowest in
        let lowest := if lt n lowest then n else lowest in
        min_loop lowest rest
  end.

Definition Math_min (a b : number) : number := min_loop pos_infinity [a; b].

(** Integral and odd integral Numbers, for finite non-zero values
    [m * 2^e]. *)
Definition is_integral (x : number) : bool :=
  match x with
  | S754_zero _ => true
  | S754_finite _ m e =>
      match e with
      | Zneg q => Z.eqb (Z.modulo (Zpos m) (Zpos (Pos.pow 2 q))) 0
      | _ => true
      end
  | _ => false
  end.

Definition is_odd_integral (x : number) : bool :=
  match x with
  | S754_finite _ m e =>
      match e with
      | Z0 => Z.odd (Zpos m)
      | Zpos _ => false
      | Zneg q =>
          Z.eqb (Z.modulo (Zpos m) (Zpos (Pos.pow 2 q))) 0
          && Z.odd (Z.div (Zpos m) (Zpos (Pos.pow 2 q)))
      end
  | _ => false
  end.

Section Exponentiate.

(** The last step of [Math.pow] is left to the host: "an
    implementation-approximated Number value representing the result of
    raising base to the power exponent".  It is only reached with a
    finite non-zero base and a finite non-zero exponent. *)
Variable host_pow : number -> number -> number.

Definition Math_pow (base exponent : number) : number :=
  if is_nan exponent then NaN
  else if negb (truthy exponent) then one
  else if is_nan base then NaN
  else
    match base with
    | S754_infinity false =>
        if gt exponent pos_zero then pos_infinity else pos_zero
    | S754_infinity true =>
        if gt exponent pos_zero
        then if is_odd_integral exponent then neg_infinity else pos_infinity
        else if is_odd_integral exponent then neg_zero else pos_zero
    | S754_zero false =>
        if gt exponent pos_zero then pos_zero else pos_infinity
    | S754_zero true =>
        if gt exponent pos_zero
        then if is_odd_integral exponent then neg_zero else pos_zero
        else if is_odd_integral exponent then neg_infinity else pos_infinity
    | _ =>
        match exponent with
        | S754_infinity false =>
            if gt (abs base) one then pos_infinity
            else if eq (abs base) one then NaN
            else pos_zero
        | S754_infinity true =>
            if gt (abs base) one then pos_zero
            else if eq (abs base) one then NaN
            else pos_infinity
        | _ =>
            if lt base neg_zero && negb (is_integral exponent) then NaN
            else host_pow base exponent
        end
    end.

End Exponentiate.

(** *** Reading a number from a string: [parseFloat] *)

Definition code (c : ascii) : N := N_of_ascii c.

Definition is_digit (c : ascii) : bool :=
  (N.leb 48 (code c) && N.leb (code c) 57)%bool.

Definition digit_value (c : ascii) : Z := Z.of_N (code c) - 48.

(** White space and line terminators of one code unit: TAB, LF, VT, FF,
    CR and SP. *)
Definition is_space1 (a : ascii) : bool :=
  (N.leb 9 (code a) && N.leb (code a) 13 || N.eqb (code a) 32)%bool.

(** U+00A0, in its two-byte encoding. *)
Definition is_space2 (a b : ascii) : bool :=
  (N.eqb (code a) 194 && N.eqb (code b) 160)%bool.

(** U+1680, U+2000..U+200A, U+2028, U+2029, U+202F, U+205F, U+3000 and
    U+FEFF, in their three-byte encodings. *)
Definition is_space3 (a b c : ascii) : bool :=
  let '(x, y, z) := (code a, code b, code c) in
  (N.eqb x 225 && N.eqb y 154 && N.eqb z 128
   || N.eqb x 226 && N.eqb y 128
      && (N.leb 128 z && N.leb z 138 || N.eqb z 168 || N.eqb z 169
          || N.eqb z 175)
   || N.eqb x 226 && N.eqb y 129 && N.eqb z 159
   || N.eqb x 227 && N.eqb y 128 && N.eqb z 128
   || N.eqb x 239 && N.eqb y 187 && N.eqb z 191)%bool.

(** [TrimString(input, start)]. *)
Fixpoint trim_start (s : string) : string :=
  match s with
  | String a r1 =>
      if is_space1 a then trim_start r1
      else
        match r1 with
        | String b r2 =>
            if is_space2 a b then trim_start r2
            else
              match r2 with
              | String c r3 => if is_space3 a b c then trim_start r3 else s
              | EmptyString => s
              end
        | EmptyString => s
        end
  | EmptyString => s
  end.

(** The longest run of decimal digits at the head of [s], accumulated on
    [acc]; returns the accumulated value, the number of digits read and
    the rest of the string. *)
Fixpoint read_digits (s : string) (acc count : Z) : Z * Z * string :=
  match s with
  | String c rest =>
      if is_digit c
      then read_digits rest (10 * acc + digit_value c) (count + 1)
      else (acc, count, s)
  | EmptyString => (acc, count, s)
  end.

Definition read_sign (s : string) : bool * string :=
  match s with
  | String c rest =>
      if N.eqb (code c) 45 then (true, rest)
      else if N.eqb (code c) 43 then (false, rest)
      else (false, s)
  | EmptyString => (false, s)
  end.

(** The exponent part [e] or [E], an optional sign and at least one digit;
    an incomplete exponent part does not belong to the literal. *)
Definition read_exponent (s : string) : Z :=
  match s with
  | String c rest =>
      if (N.eqb (code c) 101 || N.eqb (code c) 69)%bool then
        let '(minus, digits) := read_sign rest in
        let '(v, count, _) := read_digits digits 0 0 in
        if Z.eqb count 0 then 0 else if minus then - v else v
      else 0
  | EmptyString => 0
  end.

(** [parseFloat]: the longest prefix of the trimmed string that is a
    [StrDecimalLiteral], or NaN when there is none. *)
Definition parseFloat (input : string) : number :=
  let '(minus, s) := read_sign (trim_start input) in
  if String.prefix "Infinity" s then S754_infinity minus
  else
    let '(int_part, int_count, s1) := read_digits s 0 0 in
    let '(mantissa, frac_count, s2) :=
      match s1 with
      | String c rest =>
          if N.eqb (code c) 46 then read_digits rest int_part 0
          else (int_part, 0, s1)
      | EmptyString => (int_part, 0, s1)
      end in
    if (Z.eqb int_count 0 && Z.eqb frac_count 0)%bool then NaN
    else of_decimal minus mantissa (read_exponent s2 - frac_count).

End Number.

(** ** The calculator component *)

Module App.

Import Number.

(** *** Utility functions *)

(** [clamp(x, a, b) = Math.max(a, Math.min(b, x))]. *)
Definition clamp (x a b : number) : number := Math_max a (Math_min b x).

Definition lit_0_40 : number := of_decimal false 40 (-2).
Definition lit_0_15 : number := of_decimal false 15 (-2).

Inductive Label := CompraForte | Considerar | Neutro | Evitar.

(** The text that [interpret] returns for each label. *)
Definition label_text (l : Label) : string :=
  match l with
  | CompraForte => "Compra forte"
  | Considerar => "Considerar"
  | Neutro => "Neutro"
  | Evitar => "Evitar"
  end.

Definition interpret_label (s : number) : Label :=
  if gt s lit_0_40 then CompraForte
  else if gt s lit_0_15 then Considerar
  else if ge s (neg lit_0_15) then Neutro
  else Evitar.

Definition interpret (s : number) : string := label_text (interpret_label s).

(** *** Types *)

Module FormState.
Record t := mk {
  pm : string; pa : string; fee : string; float : string;
  wp : string; wf : string; alpha : string; cap : string;
  r : string; liq : string; name : string
}.
End FormState.

Module CalculateResult.
Record t := mk {
  Pm : number; PaAdj : number; D : number; Dc : number;
  Q : number; S : number; Sfinal : number
}.
End CalculateResult.

Module HistoryItem.
Record t := mk {
  Pm : number; PaAdj : number; D : number; Dc : number;
  Q : number; S : number; Sfinal : number;
  id : string; name : string; floatValue : string
}.
End HistoryItem.

Definition initialFormState : FormState.t :=
  {| FormState.pm := "500"; FormState.pa := "400"; FormState.fee := "0";
     FormState.float := "0.12"; FormState.wp := "0.7";
     FormState.wf := "0.3"; FormState.alpha := "1"; FormState.cap := "1";
     FormState.r := "1"; FormState.liq := "1";
     FormState.name := EmptyString |}.

(** The names of the form inputs, the keys of [FormState]. *)
Inductive Field :=
  F_pm | F_pa | F_fee | F_float | F_wp | F_wf | F_alpha | F_cap | F_r
| F_liq | F_name.

(** [{ ...prev, [name]: value }]. *)
Definition set_field (prev : FormState.t) (k : Field) (value : string)
  : FormState.t :=
  let '(FormState.mk pm pa fee float wp wf alpha cap r liq name) := prev in
  match k with
  | F_pm => FormState.mk value pa fee float wp wf alpha cap r liq name
  | F_pa => FormState.mk pm value fee float wp wf alpha cap r liq name
  | F_fee => FormState.mk pm pa value float wp wf alpha cap r liq name
  | F_float => FormState.mk pm pa fee value wp wf alpha cap r liq name
  | F_wp => FormState.mk pm pa fee float value wf alpha cap r liq name
  | F_wf => FormState.mk pm pa fee float wp value alpha cap r liq name
  | F_alpha => FormState.mk pm pa fee float wp wf value cap r liq name
  | F_cap => FormState.mk pm pa fee float wp wf alpha value r liq name
  | F_r => FormState.mk pm pa fee float wp wf alpha cap value liq name
  | F_liq => FormState.mk pm pa fee float wp wf alpha cap r value name
  | F_name => FormState.mk pm pa fee float wp wf alpha cap r liq value
  end.

(** *** Validation failures

    [calculate] reports a failure by an [alert] and returns [null]; the
    three alerts are told apart by their text. *)
Inductive ValidationFailure :=
  InvalidFloat | InvalidAverageCost | InvalidWeights.

Definition alert_text (v : ValidationFailure) : string :=
  match v with
  | InvalidFloat => "Float deve estar entre 0.00 e 1.00"
  | InvalidAverageCost => "Preço médio deve ser maior que 0"
  | InvalidWeights => "Soma dos pesos deve ser maior que 0"
  end.

(** What a call of [calculate] does: alert and return [null], or return a
    result. *)
Inductive Outcome :=
| Alert (v : ValidationFailure)
| Result (res : CalculateResult.t).

Definition liquidityFactor (L : number) : number :=
  if isFinite L then clamp L zero one else one.

Section Component.

Variable host_pow : number -> number -> number.

(** *** The main computation *)
Definition calculate (formState : FormState.t) : Outcome :=
  let Pm := or_else (parseFloat (FormState.pm formState)) zero in
  let Pa := or_else (parseFloat (FormState.pa formState)) zero in
  let fee := or_else (parseFloat (FormState.fee formState)) zero in
  let f := parseFloat (FormState.float formState) in
  let wp := or_else (parseFloat (FormState.wp formState)) zero in
  let wf := or_else (parseFloat (FormState.wf formState)) zero in
  let alpha := or_else (parseFloat (FormState.alpha formState)) one in
  let cap := or_else (parseFloat (FormState.cap formState)) one in
  let r := or_else (parseFloat (FormState.r formState)) one in
  let L := parseFloat (FormState.liq formState) in
  if negb (ge f zero && le f one) then Alert InvalidFloat
  else if le Pm zero then Alert InvalidAverageCost
  else if le (add wp wf) zero then Alert InvalidWeights
  else
    let PaAdj := add Pa fee in
    let D := div (sub Pm PaAdj) Pm in
    let Dc := clamp D (neg cap) cap in
    let Q := Math_pow host_pow (sub one f) alpha in
    let S := div (add (mul wp Dc) (mul wf Q)) (add wp wf) in
    let Liqu := if isFinite L then clamp L zero one else one in
    let Sfinal := mul (mul S r) Liqu in
    Result (CalculateResult.mk Pm PaAdj D Dc Q S Sfinal).

(** *** Component state and event handlers *)

Record State := mkState {
  formState : FormState.t;
  result : option CalculateResult.t;
  history : list HistoryItem.t;
  alerts : list string   (* the alerts shown so far, latest first *)
}.

Definition initialState : State :=
  mkState initialFormState None [] [].

Definition handleInputChange (k : Field) (value : string) (st : State)
  : State :=
  mkState (set_field (formState st) k value) (result st) (history st)
    (alerts st).

Definition handleCalculate (st : State) : State :=
  match calculate (formState st) with
  | Result res => mkState (formState st) (Some res) (history st) (alerts st)
  | Alert v =>
      mkState (formState st) (result st) (history st)
        (alert_text v :: alerts st)
  end.

(** [formState.name || '—']: the empty string is falsy. *)
Definition name_or_dash (name : string) : string :=
  match name with
  | EmptyString => "—"
  | _ => name
  end.

(** The new item; [id] is the text built from the clock and the random
    generator at the time of the click. *)
Definition newItem (res : CalculateResult.t) (id : string)
    (form : FormState.t) : HistoryItem.t :=
  {| HistoryItem.Pm := CalculateResult.Pm res;
     HistoryItem.PaAdj := CalculateResult.PaAdj res;
     HistoryItem.D := CalculateResult.D res;
     HistoryItem.Dc := CalculateResult.Dc res;
     HistoryItem.Q := CalculateResult.Q res;
     HistoryItem.S := CalculateResult.S res;
     HistoryItem.Sfinal := CalculateResult.Sfinal res;
     HistoryItem.id := id;
     HistoryItem.name := name_or_dash (FormState.name form);
     HistoryItem.floatValue := FormState.float form |}.

Definition handleAddHistory (id : string) (st : State) : State :=
  match calculate (formState st) with
  | Result res =>
      mkState (formState st) (Some res)
        (newItem res id (formState st) :: history st) (alerts st)
  | Alert v =>
      mkState (formState st) (result st) (history st)
        (alert_text v :: alerts st)
  end.

Definition handleReset (st : State) : State :=
  mkState initialFormState None [] (alerts st).

(** The events of the component and the run of a sequence of them. *)
Inductive Event :=
| InputChange (k : Field) (value : string)
| Calculate
| AddHistory (id : string)
| Reset.

Definition handle (ev : Event) (st : State) : State :=
  match ev with
  | InputChange k value => handleInputChange k value st
  | Calculate => handleCalculate st
  | AddHistory id => handleAddHistory id st
  | Reset => handleReset st
  end.

Definition run (evs : list Event) (st : State) : State :=
  fold_left (fun s ev => handle ev s) evs st.

End Component.

End App.

(** ** A reference host for [Math.pow]

    Used to run the component on concrete forms.  An exponent of 1 returns
    the base, as the power routines of the engines do; any other integral
    exponent is raised exactly and rounded once, to nearest.  Powers with a
    non-integral exponent are not approximated by this host. *)

Module RefHost.

Import Number.

(** The integer denoted by an integral finite number. *)
Definition to_Z (x : number) : Z :=
  match x with
  | S754_finite s m e =>
      let v := match e with
               | Zneg q => Z.div (Zpos m) (Zpos (Pos.pow 2 q))
               | _ => Z.mul (Zpos m) (Z.pow 2 e)
               end in
      if s then Z.opp v else v
  | _ => 0
  end.

Definition pow (base exponent : number) : number :=
  if eq exponent one then base
  else
    match base with
    | S754_finite s m e =>
        if is_integral exponent then
          let sign := (s && is_odd_integral exponent)%bool in
          match to_Z exponent with
          | Zpos n => binary_round prec emax sign (Pos.pow m n) (e * Zpos n)
          | Zneg n =>
              let '(mz, ez, lz) :=
                SFdiv_core_binary prec emax 1 0 (Zpos (Pos.pow m n))
                  (e * Zpos n) in
              binary_round_aux prec emax sign mz ez lz
          | Z0 => one
          end
        else NaN
    | _ => NaN
    end.

End RefHost.

(** ** The inputs of the scorer

    The ten numbers that [calculate] reads from the form, named as in the
    data model: each is the value bound by the corresponding [const] at the
    head of [calculate]. *)

Module Inputs.

Import Number App.

Definition averageCost (fs : FormState.t) : number :=
  or_else (parseFloat (FormState.pm fs)) zero.
Definition currentPrice (fs : FormState.t) : number :=
  or_else (parseFloat (FormState.pa fs)) zero.
Definition fee (fs : FormState.t) : number :=
  or_else (parseFloat (FormState.fee fs)) zero.
Definition floatValue (fs : FormState.t) : number :=
  parseFloat (FormState.float fs).
Definition priceWeight (fs : FormState.t) : number :=
  or_else (parseFloat (FormState.wp fs)) zero.
Definition floatWeight (fs : FormState.t) : number :=
  or_else (parseFloat (FormState.wf fs)) zero.
Definition alpha (fs : FormState.t) : number :=
  or_else (parseFloat (FormState.alpha fs)) one.
Definition cap (fs : FormState.t) : number :=
  or_else (parseFloat (FormState.cap fs)) one.
Definition rarity (fs : FormState.t) : number :=
  or_else (parseFloat (FormState.r fs)) one.
Definition liquidity (fs : FormState.t) : number :=
  parseFloat (FormState.liq fs).

(** The three fields read with [parseFloat(..) || 1]. *)
Definition defaults_to_one (k : Field) : bool :=
  match k with
  | F_alpha | F_cap | F_r => true
  | _ => false
  end.

(** The float quality [(1 - floatValue) ^ alpha] as [calculate] computes
    it. *)
Definition floatQuality (host_pow : number -> number -> number)
    (f alpha : number) : number :=
  Math_pow host_pow (sub one f) alpha.

(** A number of the binary64 format: a finite one has a mantissa of at
    most 53 bits at the exponent that the format gives it. *)
Definition is_binary64 (x : number) : bool := valid_binary prec emax x.

(** The block of [calculate] after the validations. *)
Definition score (host_pow : number -> number -> number)
    (fs : FormState.t) : CalculateResult.t :=
  let PaAdj := add (currentPrice fs) (fee fs) in
  let D := div (sub (averageCost fs) PaAdj) (averageCost fs) in
  let Dc := clamp D (neg (cap fs)) (cap fs) in
  let Q := floatQuality host_pow (floatValue fs) (alpha fs) in
  let S :=
    div (add (mul (priceWeight fs) Dc) (mul (floatWeight fs) Q))
      (add (priceWeight fs) (floatWeight fs)) in
  let Liqu :=
    if isFinite (liquidity fs) then clamp (liquidity fs) zero one else one in
  let Sfinal := mul (mul S (rarity fs)) Liqu in
  CalculateResult.mk (averageCost fs) PaAdj D Dc Q S Sfinal.

(** The validations as the contract words them: the float must satisfy
    [0 <= f <= 1], the average cost must be [> 0] and the sum of the
    weights must be [> 0], checked in this order. *)
Definition contract_validate (fs : FormState.t) : option ValidationFailure :=
  if negb (ge (floatValue fs) zero && le (floatValue fs) one)
  then Some InvalidFloat
  else if negb (gt (averageCost fs) zero) then Some InvalidAverageCost
  else if negb (gt (add (priceWeight fs) (floatWeight fs)) zero)
  then Some InvalidWeights
  else None.

Definition is_alert (o : Outcome) : bool :=
  match o with Alert _ => true | Result _ => false end.

(** Events that are not a reset. *)
Definition not_reset (ev : Event) : bool :=
  match ev with Reset => false | _ => true end.

End Inputs.

(** ** Forms used as examples *)

Module Scenarios.

Import Number App.

(** The double nearest to [m * 10^k]. *)
Definition dec (m k : Z) : number := of_decimal false m k.

(** Scenario C: an average cost of 0. *)
Definition zero_average_cost : FormState.t :=
  set_field initialFormState F_pm "0".

(** Scenario D: both weights 0. *)
Definition zero_weights : FormState.t :=
  set_field (set_field initialFormState F_wp "0") F_wf "0".

(** Weights too large for the format, of opposite signs: they are read as
    +Infinity and -Infinity, and their sum is NaN. *)
Definition opposite_infinite_weights : FormState.t :=
  set_field (set_field initialFormState F_wp "1e999") F_wf "-1e999".

(** Scenario B: a float out of range. *)
Definition float_out_of_range : FormState.t :=
  set_field initialFormState F_float "1.5".

(** Scenario F: a liquidity that is not a number. *)
Definition unparseable_liquidity : FormState.t :=
  set_field initialFormState F_liq "abc".


(** A float of 0.5, the other fields at their initial values. *)
Definition float_half : FormState.t :=
  set_field initialFormState F_float "0.5".

(** A cap of -0.5, the other fields at their initial values. *)
Definition negative_cap : FormState.t :=
  set_field initialFormState F_cap "-0.5".

(** A liquidity of 0, the other fields at their initial values. *)
Definition zero_liquidity : FormState.t :=
  set_field initialFormState F_liq "0".

(** A named skin with the initial numbers. *)
Definition named_form : FormState.t :=
  set_field initialFormState F_name "AK-47 | Redline".

End Scenarios.

(** ** The formatter

    [fmt] shows a number with a fixed number of decimals, through
    [Number.prototype.toFixed], and shows a placeholder for a value that is
    not finite. *)

Module Format.

Import Number.

Local Open Scope string_scope.

(** The result of [ToIntegerOrInfinity]. *)
Inductive IntegerOrInfinity :=
| Integer (z : Z)
| PlusInfinity
| MinusInfinity.

(** The integral part of a finite number, rounding towards zero. *)
Definition truncate (x : number) : Z :=
  match x with
  | S754_finite s m e =>
      let v := match e with
               | Zneg q => Z.div (Zpos m) (Z.pow 2 (Zpos q))
               | _ => Z.mul (Zpos m) (Z.pow 2 e)
               end in
      if s then Z.opp v else v
  | _ => 0
  end.

Definition ToIntegerOrInfinity (x : number) : IntegerOrInfinity :=
  match x with
  | S754_nan | S754_zero _ => Integer 0
  | S754_infinity false => PlusInfinity
  | S754_infinity true => MinusInfinity
  | S754_finite _ _ _ => Integer (truncate x)
  end.

Definition digit_char (d : Z) : ascii := ascii_of_N (Z.to_N (48 + d)).

(** The digits of [n], least significant first, put in front of [acc]. *)
Fixpoint digits_loop (fuel : nat) (n : Z) (acc : string) : string :=
  match fuel with
  | O => acc
  | S fuel' =>
      let acc' := String (digit_char (Z.modulo n 10)) acc in
      if Z.eqb (Z.div n 10) 0 then acc' else digits_loop fuel' (Z.div n 10) acc'
  end.

(** The decimal representation of [n >= 0], with no leading zeroes; that of
    0 is ["0"]. *)
Definition decimal_digits (n : Z) : string :=
  digits_loop (S (Z.to_nat (Z.log2 n))) n EmptyString.

Fixpoint zeros (k : nat) : string :=
  match k with
  | O => EmptyString
  | S k' => String "0" (zeros k')
  end.

(** The first [n] code units of a string, and the others. *)
Fixpoint first_units (n : nat) (s : string) : string :=
  match n, s with
  | S n', String c r => String c (first_units n' r)
  | _, _ => EmptyString
  end.

Fixpoint other_units (n : nat) (s : string) : string :=
  match n, s with
  | S n', String c r => other_units n' r
  | _, _ => s
  end.

(** Steps 11.b and 11.c of [toFixed]: the digits of [n] with a point before
    the last [f] of them, padded with zeroes when there are not more than
    [f]. *)
Definition fixed_digits (n : Z) (f : nat) : string :=
  let m := decimal_digits n in
  match f with
  | O => m
  | S _ =>
      let k := String.length m in
      let m := if Nat.leb k f then zeros (f + 1 - k) ++ m else m in
      let k := if Nat.leb k f then (f + 1)%nat else k in
      first_units (k - f) m ++ "." ++ other_units (k - f) m
  end.

(** Whether [m * 2^e >= 10^21]. *)
Definition at_least_1e21 (m : positive) (e : Z) : bool :=
  match e with
  | Zneg q => Z.leb (10 ^ 21 * 2 ^ Zpos q) (Zpos m)
  | _ => Z.leb (10 ^ 21) (Zpos m * 2 ^ e)
  end.

(** Step 11.a of [toFixed]: the integer [n] for which [n / 10^f] is closest
    to [m * 2^e], the larger one when there are two. *)
Definition scaled_nearest (m : positive) (e : Z) (f : Z) : Z :=
  match e with
  | Zneg q => Z.div (2 * Zpos m * 10 ^ f + 2 ^ Zpos q) (2 * 2 ^ Zpos q)
  | _ => Zpos m * 2 ^ e * 10 ^ f
  end.

Section ToFixed.

(** [Number::toString] of a value of at least [10^21] is left to the host:
    the language does not fix its last digit. *)
Variable host_toString : number -> string.

(** [x.toFixed(fractionDigits)]; [None] stands for the [RangeError]. *)
Definition toFixed (x fractionDigits : number) : option string :=
  match ToIntegerOrInfinity fractionDigits with
  | Integer f =>
      if (Z.ltb f 0 || Z.ltb 100 f)%bool then None
      else
        match x with
        | S754_nan => Some "NaN"
        | S754_infinity false => Some "Infinity"
        | S754_infinity true => Some "-Infinity"
        | S754_zero _ => Some (fixed_digits 0 (Z.to_nat f))
        | S754_finite s m e =>
            let sign := if s then "-" else EmptyString in
            let digits :=
              if at_least_1e21 m e then host_toString (S754_finite false m e)
              else fixed_digits (scaled_nearest m e f) (Z.to_nat f) in
            Some (sign ++ digits)
        end
  | _ => None
  end.

(** [fmt(x, n)]. *)
Definition fmt (x n : number) : option string :=
  if isFinite x then toFixed x n else Some "--".

End ToFixed.

(** Strings of decimal digits and the number that they spell after [acc],
    as [read_digits] accumulates it. *)
Fixpoint all_digits (s : string) : bool :=
  match s with
  | String c r => (is_digit c && all_digits r)%bool
  | EmptyString => true
  end.

Fixpoint digits_value (s : string) (acc : Z) : Z :=
  match s with
  | String c r => digits_value r (10 * acc + digit_value c)
  | EmptyString => acc
  end.

(** A string that does not go on with a digit. *)
Definition no_digit_ahead (s : string) : bool :=
  match s with
  | String c _ => negb (is_digit c)
  | EmptyString => true
  end.

(** The sign, the magnitude test and the scaled integer of [toFixed], as
    functions of the number. *)
Definition is_negative (x : number) : bool :=
  match x with
  | S754_finite s _ _ => s
  | _ => false
  end.

Definition below_1e21 (x : number) : bool :=
  match x with
  | S754_finite _ m e => negb (at_least_1e21 m e)
  | S754_zero _ => true
  | _ => false
  end.

Definition shown_integer (x : number) (f : Z) : Z :=
  match x with
  | S754_finite _ m e => scaled_nearest m e f
  | _ => 0
  end.

(** The two precisions that the component asks for. *)
Definition three : number := of_decimal false 3 0.
Definition four : number := of_decimal false 4 0.

End Format.

(** ** What the component displays

    The texts that the render puts in the result panel and in a row of the
    history table. *)

Module Display.

Import Number App Format.

Section Cells.

Variable host_toString : number -> string.

(** [{fmt(result.Sfinal, 3)}] and [{interpret(result.Sfinal)}]. *)
Definition score_text (res : CalculateResult.t) : option string :=
  fmt host_toString (CalculateResult.Sfinal res) three.

Definition status_text (res : CalculateResult.t) : string :=
  interpret (CalculateResult.Sfinal res).

(** The cells [{fmt(item.Sfinal, 3)}], [{interpret(item.Sfinal)}] and
    [{fmt(parseFloat(item.floatValue), 4)}] of a row. *)
Definition score_cell (item : HistoryItem.t) : option string :=
  fmt host_toString (HistoryItem.Sfinal item) three.

Definition status_cell (item : HistoryItem.t) : string :=
  interpret (HistoryItem.Sfinal item).

Definition float_cell (item : HistoryItem.t) : option string :=
  fmt host_toString (parseFloat (HistoryItem.floatValue item)) four.

End Cells.

End Display.


(** ** Notions for the behaviour of the component *)

Module Behaviour.

Import Number App Inputs.

(** The text of a field, [formState[name]]. *)
Definition get_field (fs : FormState.t) (k : Field) : string :=
  match k with
  | F_pm => FormState.pm fs
  | F_pa => FormState.pa fs
  | F_fee => FormState.fee fs
  | F_float => FormState.float fs
  | F_wp => FormState.wp fs
  | F_wf => FormState.wf fs
  | F_alpha => FormState.alpha fs
  | F_cap => FormState.cap fs
  | F_r => FormState.r fs
  | F_liq => FormState.liq fs
  | F_name => FormState.name fs
  end.

Definition Field_eqb (k1 k2 : Field) : bool :=
  match k1, k2 with
  | F_pm, F_pm | F_pa, F_pa | F_fee, F_fee | F_float, F_float
  | F_wp, F_wp | F_wf, F_wf | F_alpha, F_alpha | F_cap, F_cap
  | F_r, F_r | F_liq, F_liq | F_name, F_name => true
  | _, _ => false
  end.

(** The five fields read with [parseFloat(..) || 0]. *)
Definition defaults_to_zero (k : Field) : bool :=
  match k with
  | F_pm | F_pa | F_fee | F_wp | F_wf => true
  | _ => false
  end.

(** Two states that show the same: the same form, result and history. *)
Definition same_view (s1 s2 : State) : Prop :=
  formState s1 = formState s2
  /\ result s1 = result s2
  /\ history s1 = history s2.

(** A record built by [handleAddHistory] from a form that [calculate]
    accepts. *)
Definition committed_item (host_pow : number -> number -> number)
    (item : HistoryItem.t) : Prop :=
  exists form id,
    calculate host_pow form = Result (score host_pow form)
    /\ item = newItem (score host_pow form) id form.

(** The labels from the worst to the best. *)
Definition rank (l : Label) : Z :=
  match l with
  | Evitar => 0
  | Neutro => 1
  | Considerar => 2
  | CompraForte => 3
  end.

End Behaviour.


(** ** The [useLocalStorage] hook

    The hook keeps a value of type [T] in a React state and mirrors it in
    [window.localStorage] under a key, as JSON text.  The browser's side
    is explicit: the items of the storage, whether access to the storage
    is refused, which writes fit the quota, and the errors printed on the
    console.  [JSON.parse], [JSON.stringify] and [Object.is] at type [T]
    are those of the host. *)

Module Storage.

Local Open Scope string_scope.

(** The exceptions that the two [try] blocks can catch. *)
Inductive Error : Type :=
| SecurityError
| QuotaExceededError
| SyntaxError
| TypeError.

(** The items of the storage, the most recent write first. *)
Definition Items : Type := list (string * string).

Fixpoint lookup (key : string) (items : Items) : option string :=
  match items with
  | [] => None
  | (k, v) :: rest => if String.eqb k key then Some v else lookup key rest
  end.

Fixpoint remove (key : string) (items : Items) : Items :=
  match items with
  | [] => []
  | (k, v) :: rest =>
      if String.eqb k key then remove key rest else (k, v) :: remove key rest
  end.

Definition store (key value : string) (items : Items) : Items :=
  (key, value) :: remove key items.

(** The page: the storage and the console. *)
Record Page : Type := mkPage {
  items : Items;
  console : list Error
}.

Definition log (e : Error) (p : Page) : Page :=
  mkPage (items p) (console p ++ [e]).

(** What [JSON.stringify] gives: a text, [undefined] (for a value JSON has
    no text for), or an exception. *)
Inductive Stringified : Type :=
| Text (s : string)
| Undefined
| StringifyThrows.

Section Hook.

Variable T : Type.
Variable JSON_parse : string -> option T.
Variable JSON_stringify : T -> Stringified.
Variable Object_is : T -> T -> bool.

(** Reading [window.localStorage] raises a SecurityError when the page may
    not use the storage. *)
Variable access_denied : bool.

(** Whether the storage has room for a write. *)
Variable quota_ok : Items -> string -> string -> bool.

(** The initializer passed to [useState]. *)
Definition initializer (key : string) (initialValue : T) (p : Page) : T * Page :=
  if access_denied then (initialValue, log SecurityError p)
  else
    match lookup key (items p) with
    | None => (initialValue, p)
    | Some EmptyString => (initialValue, p)
    | Some item =>
        match JSON_parse item with
        | Some v => (v, p)
        | None => (initialValue, log SyntaxError p)
        end
    end.

(** The callback passed to [useEffect].  The storage object is read
    first, then the argument is computed; [setItem] turns [undefined]
    into the text "undefined". *)
Definition effect (key : string) (storedValue : T) (p : Page) : Page :=
  if access_denied then log SecurityError p
  else
    match JSON_stringify storedValue with
    | StringifyThrows => log TypeError p
    | Text value =>
        if quota_ok (items p) key value
        then mkPage (store key value (items p)) (console p)
        else log QuotaExceededError p
    | Undefined =>
        if quota_ok (items p) key "undefined"
        then mkPage (store key "undefined" (items p)) (console p)
        else log QuotaExceededError p
    end.

(** A mounted hook: its state and the page it runs in. *)
Record Hook : Type := mkHook {
  storedValue : T;
  page : Page
}.

(** The first render computes the state, then the effect runs. *)
Definition mount (key : string) (initialValue : T) (p : Page) : Hook :=
  let (v, p') := initializer key initialValue p in
  mkHook v (effect key v p').

(** [setStoredValue]: a value that is the same as the current one, by
    [Object.is], changes nothing; any other value is rendered, and the
    effect runs since [storedValue] is one of its dependencies. *)
Definition setStoredValue (key : string) (value : T) (h : Hook) : Hook :=
  if Object_is value (storedValue h) then h
  else mkHook value (effect key value (page h)).

(** A hook mounted on a page, then a sequence of calls of its setter. *)
Definition session (key : string) (initialValue : T) (p : Page)
  (values : list T) : Hook :=
  fold_left (fun h v => setStoredValue key v h) values
    (mount key initialValue p).

(** The text that [JSON.stringify] gives for every value is not empty and
    [JSON.parse] reads the value back from it. *)
Definition codec_round_trip : Prop :=
  forall v,
    exists s,
      JSON_stringify v = Text s /\ s <> EmptyString /\ JSON_parse s = Some v.

(** The state of a hook is mirrored in the storage. *)
Definition mirrored (key : string) (h : Hook) : Prop :=
  exists s,
    JSON_stringify (storedValue h) = Text s
    /\ lookup key (items (page h)) = Some s.

End Hook.

(** JSON for the booleans. *)
Definition parse_bool (s : string) : option bool :=
  if String.eqb s "true" then Some true
  else if String.eqb s "false" then Some false
  else None.

Definition stringify_bool (b : bool) : Stringified :=
  Text (if b then "true" else "false").

Definition unlimited (_ : Items) (_ _ : string) : bool := true.

End Storage.

(** ** Exact values

    The real number that a finite binary64 value stands for, and what it
    means for the host's [Math.pow] to be faithful: the language leaves
    the power of a finite positive base to the host, as an approximation of
    the exact power. *)

Module Exact.
Import Reals.
Import Number App Inputs.
Local Open Scope R_scope.



End Exact.

(** ** Properties *)

Import Number App Inputs Scenarios.

(** *** Order facts on numbers *)

Ltac order_cases :=
  repeat match goal with
    | H : context [Z.compare ?a ?b] |- _ => destruct (Z.compare_spec a b)
    | |- context [Z.compare ?a ?b] => destruct (Z.compare_spec a b)
    | H : context [Pos.compare_cont Eq ?a ?b] |- _ =>
        change (Pos.compare_cont Eq a b) with (Pos.compare a b) in *;
        destruct (Pos.compare_spec a b)
    | |- context [Pos.compare_cont Eq ?a ?b] =>
        change (Pos.compare_cont Eq a b) with (Pos.compare a b) in *;
        destruct (Pos.compare_spec a b)
    end;
  subst; simpl in *; try reflexivity; try discriminate; try lia.

(** Closed goals, and conjunctions of them, settled by evaluation. *)
Ltac by_computation :=
  repeat match goal with |- _ /\ _ => split end; vm_compute; reflexivity.

Ltac split_signs :=
  repeat match goal with s : bool |- _ => destruct s end;
  simpl in *; try discriminate; try reflexivity.

Lemma SFcompare_refl : forall x, is_nan x = false -> SFcompare x x = Some Eq.
Proof.
  intros [s|s| |s m e] H; try discriminate H; simpl.
  - reflexivity.
  - destruct s; reflexivity.
  - rewrite Z.compare_refl, Pos.compare_cont_refl. destruct s; reflexivity.
Qed.

Lemma SFcompare_swap :
  forall x y, SFcompare y x = option_map CompOpp (SFcompare x y).
Proof.
  intros [sx|sx| |sx mx ex] [sy|sy| |sy my ey]; simpl; split_signs; order_cases.
Qed.

Lemma le_refl : forall x, is_nan x = false -> le x x = true.
Proof.
  intros x H. unfold le, SFleb. rewrite (SFcompare_refl x H). reflexivity.
Qed.

Lemma lt_le : forall x y, lt x y = true -> le x y = true.
Proof.
  unfold lt, le, SFltb, SFleb. intros x y.
  destruct (SFcompare x y) as [[]|]; intro H; try discriminate H; reflexivity.
Qed.

(** On numbers, [x > y] is the negation of [x <= y]. *)
Lemma gt_negb_le :
  forall x y, is_nan x = false -> is_nan y = false -> gt x y = negb (le x y).
Proof.
  intros x y Hx Hy. unfold gt, le, SFltb, SFleb.
  rewrite (SFcompare_swap x y).
  destruct (SFcompare x y) as [[]|] eqn:E; try reflexivity.
  destruct x, y; simpl in *; discriminate.
Qed.

(** [x > y] excludes [x <= y], whatever the operands. *)
Lemma gt_not_le : forall x y, gt x y = true -> le x y = false.
Proof.
  intros x y. unfold gt, le, SFltb, SFleb.
  rewrite (SFcompare_swap x y).
  destruct (SFcompare x y) as [[]|]; simpl; intro H; try discriminate H;
    reflexivity.
Qed.

Lemma lt_trans :
  forall x y z, lt x y = true -> lt y z = true -> lt x z = true.
Proof.
  unfold lt, SFltb.
  intros [sx|sx| |sx mx ex] [sy|sy| |sy my ey] [sz|sz| |sz mz ez];
    simpl; intros H1 H2; try discriminate; split_signs; order_cases.
Qed.

Lemma le_trans :
  forall x y z, le x y = true -> le y z = true -> le x z = true.
Proof.
  unfold le, SFleb.
  intros [sx|sx| |sx mx ex] [sy|sy| |sy my ey] [sz|sz| |sz mz ez];
    simpl; intros H1 H2; try discriminate; split_signs; order_cases.
Qed.

Lemma le_lt_trans :
  forall x y z, le x y = true -> lt y z = true -> lt x z = true.
Proof.
  unfold le, lt, SFleb, SFltb.
  intros [sx|sx| |sx mx ex] [sy|sy| |sy my ey] [sz|sz| |sz mz ez];
    simpl; intros H1 H2; try discriminate; split_signs; order_cases.
Qed.

(** *** The shape of [calculate] *)

(** [calculate] runs its three checks in order and otherwise returns the
    record of the computation. *)
Lemma calculate_eq :
  forall host_pow fs,
    calculate host_pow fs
    = if negb (ge (floatValue fs) zero && le (floatValue fs) one)
      then Alert InvalidFloat
      else if le (averageCost fs) zero then Alert InvalidAverageCost
      else if le (add (priceWeight fs) (floatWeight fs)) zero
      then Alert InvalidWeights
      else Result (score host_pow fs).
Proof. intros host_pow fs. reflexivity. Qed.

(** A returned record is the record of the computation. *)
Lemma calculate_result_score :
  forall host_pow fs res,
    calculate host_pow fs = Result res -> res = score host_pow fs.
Proof.
  intros host_pow fs res E. rewrite calculate_eq in E.
  destruct (negb _); [discriminate E |].
  destruct (le (averageCost fs) zero); [discriminate E |].
  destruct (le (add _ _) zero); [discriminate E |].
  injection E as <-. reflexivity.
Qed.

Lemma or_else_not_nan :
  forall a b, is_nan b = false -> is_nan (or_else a b) = false.
Proof. intros [| | |] b H; simpl; auto. Qed.

(** The checks of [calculate] are those of the contract as long as the sum
    of the weights is a number. *)
Lemma calculate_follows_contract :
  forall host_pow fs,
    is_nan (add (priceWeight fs) (floatWeight fs)) = false ->
    calculate host_pow fs
    = match contract_validate fs with
      | Some v => Alert v
      | None => Result (score host_pow fs)
      end.
Proof.
  intros host_pow fs Hsum.
  rewrite calculate_eq. unfold contract_validate.
  destruct (negb (ge (floatValue fs) zero && le (floatValue fs) one));
    [reflexivity |].
  rewrite (gt_negb_le (averageCost fs) zero), negb_involutive
    by (try reflexivity; apply or_else_not_nan; reflexivity).
  destruct (le (averageCost fs) zero); [reflexivity |].
  rewrite (gt_negb_le _ zero Hsum eq_refl), negb_involutive.
  destruct (le (add (priceWeight fs) (floatWeight fs)) zero); reflexivity.
Qed.

(** *** C1: valid inputs give a result *)

(** C1. For every form whose parsed numeric values satisfy averageCost > 0,
    0 <= floatValue <= 1 and priceWeight + floatWeight > 0, [calculate]
    returns a result record, never a validation failure. *)
Theorem valid_inputs_give_result :
  forall host_pow fs,
    gt (averageCost fs) zero = true ->
    ge (floatValue fs) zero = true ->
    le (floatValue fs) one = true ->
    gt (add (priceWeight fs) (floatWeight fs)) zero = true ->
    calculate host_pow fs = Result (score host_pow fs)
    /\ is_alert (calculate host_pow fs) = false.
Proof.
  intros host_pow fs Hpm Hf0 Hf1 Hw.
  assert (E : calculate host_pow fs = Result (score host_pow fs)).
  { rewrite calculate_eq, Hf0, Hf1.
    rewrite (gt_not_le _ _ Hpm), (gt_not_le _ _ Hw). reflexivity. }
  rewrite E. split; reflexivity.
Qed.

Lemma valid_inputs_give_result_witness :
  calculate RefHost.pow initialFormState
  = Result (score RefHost.pow initialFormState)
  /\ is_alert (calculate RefHost.pow initialFormState) = false.
Proof.
  apply (valid_inputs_give_result RefHost.pow initialFormState);
    vm_compute; reflexivity.
Defined.

(** The conditions can equally be put on the values that [parseFloat]
    returns, before the [|| 0] defaults: they carry over to the inputs. *)
Lemma parsed_inputs_carry_over :
  forall fs,
    gt (parseFloat (FormState.pm fs)) zero = true ->
    gt (add (parseFloat (FormState.wp fs)) (parseFloat (FormState.wf fs)))
      zero = true ->
    gt (averageCost fs) zero = true
    /\ gt (add (priceWeight fs) (floatWeight fs)) zero = true.
Proof.
  intros fs Hpm Hw. split.
  - unfold averageCost.
    destruct (parseFloat (FormState.pm fs)) as [| | |]; try discriminate Hpm;
      exact Hpm.
  - unfold priceWeight, floatWeight.
    destruct (parseFloat (FormState.wp fs)) as [[]|[]| |[] m e],
             (parseFloat (FormState.wf fs)) as [[]|[]| |[] m' e'];
      try discriminate Hw; exact Hw.
Qed.

(** *** C2: scenario A, the initial form *)

(** The reference host returns its base at exponent 1. *)
Lemma RefHost_pow_one : forall x, RefHost.pow x one = x.
Proof. intros x. reflexivity. Qed.

(** C2. With averageCost=500, currentPrice=400, fee=0, floatValue=0.12,
    priceWeight=0.7, floatWeight=0.3, alpha=1, cap=1, rarity=1 and
    liquidity=1 (the initial form), [calculate] computes in binary64
    arithmetic discount = 0.2, clampedDiscount = 0.2, floatQuality = 0.88,
    rawScore = 0.404 and finalScore = 0.404, each the double nearest to the
    decimal; the final score is strictly above the threshold 0.40 and is
    interpreted as 'Compra forte' (strong buy).  The host's power is asked
    for [0.88 ^ 1]; it is taken to return its base at exponent 1. *)
Theorem scenario_A_strong_buy :
  forall host_pow : number -> number -> number,
    (forall x, host_pow x one = x) ->
    calculate host_pow initialFormState
    = Result {| CalculateResult.Pm := dec 500 0;
                CalculateResult.PaAdj := dec 400 0;
                CalculateResult.D := dec 2 (-1);
                CalculateResult.Dc := dec 2 (-1);
                CalculateResult.Q := dec 88 (-2);
                CalculateResult.S := dec 404 (-3);
                CalculateResult.Sfinal := dec 404 (-3) |}
    /\ gt (dec 404 (-3)) lit_0_40 = true
    /\ interpret_label (dec 404 (-3)) = CompraForte
    /\ interpret (dec 404 (-3)) = "Compra forte"%string.
Proof.
  intros host_pow Hone.
  assert (HQ : Math_pow host_pow (sub one (parseFloat "0.12"))
                 (or_else (parseFloat "1") one) = dec 88 (-2)).
  { replace (or_else (parseFloat "1") one) with one by (vm_compute; reflexivity).
    replace (sub one (parseFloat "0.12")) with (dec 88 (-2))
      by (vm_compute; reflexivity).
    change (dec 88 (-2)) with (S754_finite false 7926335344172073 (-53)) at 1.
    change one with (S754_finite false 4503599627370496 (-52)) at 1.
    cbv beta iota delta [Math_pow is_nan truthy negb lt andb SFltb SFcompare].
    apply Hone. }
  split; [| by_computation].
  unfold calculate, initialFormState.
  cbv beta iota zeta delta [FormState.pm FormState.pa FormState.fee
    FormState.float FormState.wp FormState.wf FormState.alpha FormState.cap
    FormState.r FormState.liq].
  rewrite HQ.
  vm_compute. reflexivity.
Qed.

Lemma scenario_A_strong_buy_witness :
  calculate RefHost.pow initialFormState
  = Result {| CalculateResult.Pm := dec 500 0;
              CalculateResult.PaAdj := dec 400 0;
              CalculateResult.D := dec 2 (-1);
              CalculateResult.Dc := dec 2 (-1);
              CalculateResult.Q := dec 88 (-2);
              CalculateResult.S := dec 404 (-3);
              CalculateResult.Sfinal := dec 404 (-3) |}.
Proof.
  exact (proj1 (scenario_A_strong_buy RefHost.pow RefHost_pow_one)).
Defined.

(** *** C3: the order of the validations *)

(** C3. The validations run in the order float, average cost, sum of the
    weights, and the first failing one is reported.  At the form with
    weights +Infinity and -Infinity the float and the average cost pass and
    the sum of the weights is not greater than 0, so the contract reports
    [InvalidWeights]; [calculate] tests [wp + wf <= 0], which is false for
    NaN, reports nothing and returns a record whose scores are NaN. *)
Theorem nan_weight_sum_passes_validation :
  add (priceWeight opposite_infinite_weights)
      (floatWeight opposite_infinite_weights) = NaN
  /\ gt (add (priceWeight opposite_infinite_weights)
             (floatWeight opposite_infinite_weights)) zero = false
  /\ contract_validate opposite_infinite_weights = Some InvalidWeights
  /\ calculate RefHost.pow opposite_infinite_weights
     = Result {| CalculateResult.Pm := dec 500 0;
                 CalculateResult.PaAdj := dec 400 0;
                 CalculateResult.D := dec 2 (-1);
                 CalculateResult.Dc := dec 2 (-1);
                 CalculateResult.Q := dec 88 (-2);
                 CalculateResult.S := NaN;
                 CalculateResult.Sfinal := NaN |}.
Proof. by_computation. Qed.

(** Scenarios B, C and D: each violated precondition gives its alert, on
    every host. *)
Example scenario_B_invalid_float :
  forall host_pow, calculate host_pow float_out_of_range = Alert InvalidFloat.
Proof. intros host_pow. rewrite calculate_eq. reflexivity. Qed.

Example scenario_C_invalid_average_cost :
  forall host_pow,
    calculate host_pow zero_average_cost = Alert InvalidAverageCost.
Proof.
  intros host_pow. rewrite calculate_eq.
  replace (floatValue zero_average_cost) with (dec 12 (-2)) by by_computation.
  replace (averageCost zero_average_cost) with zero by by_computation.
  reflexivity.
Qed.

Example scenario_D_invalid_weights :
  forall host_pow, calculate host_pow zero_weights = Alert InvalidWeights.
Proof.
  intros host_pow. rewrite calculate_eq.
  replace (floatValue zero_weights) with (dec 12 (-2)) by by_computation.
  replace (averageCost zero_weights) with (dec 500 0) by by_computation.
  replace (add (priceWeight zero_weights) (floatWeight zero_weights))
    with zero by by_computation.
  reflexivity.
Qed.

(** Apart from a NaN sum of the weights, the order is the contract's: the
    float check comes first and catches an unparseable float, then the
    average cost, then the weights. *)
Lemma validation_order :
  forall host_pow fs,
    (negb (ge (floatValue fs) zero && le (floatValue fs) one) = true ->
     calculate host_pow fs = Alert InvalidFloat)
    /\ (is_nan (floatValue fs) = true ->
        calculate host_pow fs = Alert InvalidFloat)
    /\ (ge (floatValue fs) zero && le (floatValue fs) one = true ->
        gt (averageCost fs) zero = false ->
        calculate host_pow fs = Alert InvalidAverageCost)
    /\ (ge (floatValue fs) zero && le (floatValue fs) one = true ->
        gt (averageCost fs) zero = true ->
        le (add (priceWeight fs) (floatWeight fs)) zero = true ->
        calculate host_pow fs = Alert InvalidWeights).
Proof.
  intros host_pow fs. rewrite calculate_eq. repeat split.
  - intros H. rewrite H. reflexivity.
  - intros H. destruct (floatValue fs); try discriminate H. reflexivity.
  - intros Hf Hpm. rewrite Hf. simpl.
    rewrite (gt_negb_le (averageCost fs) zero) in Hpm
      by (try reflexivity; apply or_else_not_nan; reflexivity).
    apply negb_false_iff in Hpm. rewrite Hpm. reflexivity.
  - intros Hf Hpm Hw. rewrite Hf, (gt_not_le _ _ Hpm), Hw. reflexivity.
Qed.

(** *** C4: the clamped discount *)

Lemma clamp_cases :
  forall x cap, is_nan x = false -> gt cap zero = true ->
    clamp x (neg cap) cap
    = if lt x cap then (if lt (neg cap) x then x else neg cap) else cap.
Proof.
  intros x cap Hx Hc.
  destruct cap as [s|[]| |[] m e]; try discriminate Hc;
    destruct x as [[]|[]| |[] mx ex]; try discriminate Hx;
    try reflexivity.
  unfold clamp, Math_max, Math_min, max_loop, min_loop, lt, gt, neg, SFopp,
    SFltb.
  simpl.
  destruct (match ex ?= e with
            | Eq => Pos.compare_cont Eq mx m
            | Lt => Lt
            | Gt => Gt
            end); reflexivity.
Qed.

(** C4. For every discount that is a number and every cap > 0, the clamped
    discount [clamp(discount, -cap, cap)] lies in the closed interval
    [-cap, cap]. *)
Theorem clamped_discount_within_cap :
  forall discount cap,
    is_nan discount = false -> gt cap zero = true ->
    le (neg cap) (clamp discount (neg cap) cap) = true
    /\ le (clamp discount (neg cap) cap) cap = true.
Proof.
  intros x cap Hx Hc.
  rewrite (clamp_cases x cap Hx Hc).
  assert (Hcap : is_nan cap = false)
    by (destruct cap; [| | discriminate Hc |]; reflexivity).
  assert (Hncap : is_nan (neg cap) = false)
    by (destruct cap; [| | discriminate Hc |]; reflexivity).
  assert (Hlo : le (neg cap) cap = true).
  { destruct cap as [s|[]| |[] m e]; try discriminate Hc; reflexivity. }
  destruct (lt x cap) eqn:Hxc.
  - destruct (lt (neg cap) x) eqn:Hnx.
    + split; apply lt_le; assumption.
    + split; [apply le_refl; assumption | assumption].
  - split; [assumption | apply le_refl; assumption].
Qed.

Lemma clamped_discount_within_cap_witness :
  le (neg one) (clamp (dec 15 (-1)) (neg one) one) = true
  /\ le (clamp (dec 15 (-1)) (neg one) one) one = true.
Proof.
  apply (clamped_discount_within_cap (dec 15 (-1)) one); vm_compute; reflexivity.
Defined.

(** The record that [calculate] returns carries this clamp, on the cap of
    the form. *)
Lemma result_Dc_is_clamp :
  forall host_pow fs res,
    calculate host_pow fs = Result res ->
    CalculateResult.Dc res
    = clamp (CalculateResult.D res) (neg (cap fs)) (cap fs).
Proof.
  intros host_pow fs res E.
  rewrite (calculate_result_score _ _ _ E). reflexivity.
Qed.

(** *** Rounding to binary64 below one *)

Lemma fexp_eq : forall x, fexp prec emax x = Z.max (x - 53) (-1074).
Proof. intros x. reflexivity. Qed.

Lemma digits2_bounds :
  forall p,
    2 ^ (Zpos (digits2_pos p) - 1) <= Zpos p < 2 ^ Zpos (digits2_pos p).
Proof.
  induction p as [p IH | p IH |]; simpl digits2_pos.
  - rewrite Pos2Z.inj_succ.
    replace (Z.succ (Zpos (digits2_pos p)) - 1) with
      (Z.succ (Zpos (digits2_pos p) - 1)) by lia.
    rewrite !Z.pow_succ_r by lia. lia.
  - rewrite Pos2Z.inj_succ.
    replace (Z.succ (Zpos (digits2_pos p)) - 1) with
      (Z.succ (Zpos (digits2_pos p) - 1)) by lia.
    rewrite !Z.pow_succ_r by lia. lia.
  - simpl. lia.
Qed.

Lemma shr_1_m :
  forall mrs, 0 <= shr_m mrs -> shr_m (shr_1 mrs) = shr_m mrs / 2.
Proof.
  intros [m r s] H. simpl in H.
  destruct m as [| [p | p |] | p]; simpl; try reflexivity; try lia.
  - apply (Z.div_unique_pos (Zpos p~1) 2 (Zpos p) 1); lia.
  - apply (Z.div_unique_pos (Zpos p~0) 2 (Zpos p) 0); lia.
Qed.

Lemma iter_shr_1_m :
  forall n mrs,
    0 <= shr_m mrs ->
    shr_m (iter_pos shr_1 n mrs) = shr_m mrs / 2 ^ Zpos n.
Proof.
  induction n as [n IH | n IH |]; intros mrs H; simpl iter_pos.
  - assert (H1 : 0 <= shr_m (shr_1 mrs))
      by (rewrite shr_1_m by assumption; apply Z.div_pos; lia).
    assert (H2 : 0 <= shr_m (iter_pos shr_1 n (shr_1 mrs)))
      by (rewrite IH by assumption; apply Z.div_pos; lia).
    rewrite IH, IH, shr_1_m by assumption.
    rewrite !Z.div_div by lia.
    f_equal. rewrite <- (Z.pow_1_r 2) at 1.
    rewrite <- !Z.pow_add_r by lia. f_equal. lia.
  - assert (H2 : 0 <= shr_m (iter_pos shr_1 n mrs))
      by (rewrite IH by assumption; apply Z.div_pos; lia).
    rewrite IH, IH by assumption.
    rewrite !Z.div_div by lia.
    f_equal. rewrite <- Z.pow_add_r by lia. f_equal. lia.
  - rewrite shr_1_m by assumption. reflexivity.
Qed.

(** What [shr_fexp] does to a positive mantissa: the exponent is raised to
    the one of the format when it is below it, and the mantissa is divided
    accordingly; it keeps at least 53 bits, so it stays positive. *)
Lemma shr_fexp_spec :
  forall p e l,
    -1074 <= e ->
    exists mrs e',
      shr_fexp prec emax (Zpos p) e l = (mrs, e')
      /\ e' = Z.max e (fexp prec emax (Zpos (digits2_pos p) + e))
      /\ shr_m mrs = Zpos p / 2 ^ (e' - e)
      /\ 0 < shr_m mrs.
Proof.
  intros p e l He.
  unfold shr_fexp. simpl Zdigits2.
  set (d := Zpos (digits2_pos p)).
  pose proof (digits2_bounds p) as Hd. fold d in Hd.
  rewrite fexp_eq.
  destruct (Z.max (d + e - 53) (-1074) - e) as [| n | n] eqn:En; unfold shr.
  - eexists _, _. split; [reflexivity |].
    assert (Z.max e (Z.max (d + e - 53) (-1074)) = e) as -> by lia.
    rewrite Z.sub_diag, Z.pow_0_r, Z.div_1_r.
    destruct l as [| []]; simpl; repeat split; lia.
  - eexists _, _. split; [reflexivity |].
    assert (Hn : Zpos n = d - 53) by lia.
    assert (Z.max e (Z.max (d + e - 53) (-1074)) = e + Zpos n) as -> by lia.
    replace (e + Zpos n - e) with (Zpos n) by lia.
    assert (Hm : shr_m (iter_pos shr_1 n (shr_record_of_loc (Zpos p) l))
                 = Zpos p / 2 ^ Zpos n).
    { rewrite iter_shr_1_m; destruct l as [| []]; simpl; try reflexivity; lia. }
    repeat split; [exact Hm |].
    rewrite Hm. apply Z.div_str_pos. split; [lia |].
    apply Z.le_trans with (2 ^ (d - 1)); [| lia].
    apply Z.pow_le_mono_r; lia.
  - eexists _, _. split; [reflexivity |].
    assert (Z.max e (Z.max (d + e - 53) (-1074)) = e) as -> by lia.
    rewrite Z.sub_diag, Z.pow_0_r, Z.div_1_r.
    destruct l as [| []]; simpl; repeat split; lia.
Qed.

Lemma round_nearest_even_bounds :
  forall m l, m <= round_nearest_even m l <= m + 1.
Proof.
  intros m [| []]; simpl; try lia. destruct (Z.even m); lia.
Qed.

(** Rounding a positive value below one, given on an exponent of the
    format, yields a positive finite number that is at most one: either its
    exponent is below the exponent of one, or it is one itself. *)
Lemma binary_round_aux_below_one :
  forall p ex,
    Zpos p < 2 ^ (- ex) -> -1074 <= ex -> ex <= -53 ->
    exists m e,
      binary_round_aux prec emax false (Zpos p) ex loc_Exact
      = S754_finite false m e
      /\ (e <= -53 \/ (e = -52 /\ m = 4503599627370496%positive)).
Proof.
  intros p ex Hp Hlo Hhi.
  unfold binary_round_aux.
  destruct (shr_fexp_spec p ex loc_Exact Hlo)
    as (mrs1 & e1 & E1 & He1 & Hm1 & Hpos1).
  rewrite E1.
  pose proof (digits2_bounds p) as Hd.
  set (d := Zpos (digits2_pos p)) in *.
  rewrite fexp_eq in He1.
  assert (Hdex : d + ex <= 0).
  { assert (2 ^ (d - 1) < 2 ^ (- ex)) as Hlt by lia.
    apply Z.pow_lt_mono_r_iff in Hlt; lia. }
  assert (He1hi : e1 <= -53) by lia.
  assert (He1lo : -1074 <= e1) by lia.
  assert (He1ex : ex <= e1) by lia.
  assert (Hm1lt : shr_m mrs1 < 2 ^ (- e1)).
  { rewrite Hm1. apply Z.div_lt_upper_bound; [apply Z.pow_pos_nonneg; lia |].
    rewrite <- Z.pow_add_r by lia.
    replace (e1 - ex + - e1) with (- ex) by lia. exact Hp. }
  pose proof (round_nearest_even_bounds (shr_m mrs1) (loc_of_shr_record mrs1))
    as Hr.
  destruct (round_nearest_even (shr_m mrs1) (loc_of_shr_record mrs1))
    as [| q | q] eqn:Eq; try lia.
  destruct (shr_fexp_spec q e1 loc_Exact He1lo)
    as (mrs2 & e2 & E2 & He2 & Hm2 & Hpos2).
  rewrite E2.
  pose proof (digits2_bounds q) as Hdq.
  set (dq := Zpos (digits2_pos q)) in *.
  rewrite fexp_eq in He2.
  destruct (shr_m mrs2) as [| m2 | m2] eqn:Em2; try lia.
  assert (Hq : Zpos q < 2 ^ (- e1) \/ Zpos q = 2 ^ (- e1)) by lia.
  destruct Hq as [Hq | Hq].
  - assert (Hdq1 : dq + e1 <= 0).
    { assert (2 ^ (dq - 1) < 2 ^ (- e1)) as Hlt by lia.
      apply Z.pow_lt_mono_r_iff in Hlt; lia. }
    assert (He2hi : e2 <= -53) by lia.
    assert (Hle : (e2 <=? emax - prec) = true)
      by (apply Z.leb_le; unfold emax, prec; lia).
    rewrite Hle. eexists _, _. split; [reflexivity |]. left. exact He2hi.
  - assert (Hdq1 : dq = - e1 + 1).
    { rewrite Hq in Hdq. destruct Hdq as [Hd1 Hd2].
      apply Z.pow_le_mono_r_iff in Hd1; try lia.
      apply Z.pow_lt_mono_r_iff in Hd2; lia. }
    assert (He2v : e2 = -52) by lia.
    assert (Hle : (e2 <=? emax - prec) = true)
      by (apply Z.leb_le; unfold emax, prec; lia).
    rewrite Hle. eexists _, _. split; [reflexivity |]. right.
    split; [exact He2v |].
    assert (Hv : Zpos m2 = 2 ^ 52).
    { rewrite Hm2, Hq, He2v.
      replace (- e1) with (52 + (-52 - e1)) by lia.
      rewrite Z.pow_add_r by lia.
      apply Z.div_mul. apply Z.pow_nonzero; lia. }
    change (2 ^ 52) with (Zpos 4503599627370496) in Hv.
    injection Hv as ->. reflexivity.
Qed.

Lemma iter_xO_pow :
  forall d p, Zpos (Pos.iter xO p d) = Zpos p * 2 ^ Zpos d.
Proof.
  intros d p. induction d as [| d IH] using Pos.peano_ind.
  - simpl. lia.
  - rewrite Pos.iter_succ, Pos2Z.inj_xO, IH, Pos2Z.inj_succ, Z.pow_succ_r by lia.
    lia.
Qed.

Lemma binary_round_below_one :
  forall p e,
    Zpos p < 2 ^ (- e) -> -1074 <= e -> e <= -53 ->
    exists m' e',
      binary_round prec emax false p e = S754_finite false m' e'
      /\ (e' <= -53 \/ (e' = -52 /\ m' = 4503599627370496%positive)).
Proof.
  intros p e Hp Hlo Hhi.
  unfold binary_round, shl_align. rewrite fexp_eq.
  destruct (Z.max (Zpos (digits2_pos p) + e - 53) (-1074) - e)
    as [| n | n] eqn:En.
  - apply binary_round_aux_below_one; assumption.
  - apply binary_round_aux_below_one; assumption.
  - apply binary_round_aux_below_one; try lia.
    rewrite iter_xO_pow.
    replace (- Z.max (Zpos (digits2_pos p) + e - 53) (-1074))
      with (- e + Zpos n) by lia.
    rewrite Z.pow_add_r by lia.
    apply Z.mul_lt_mono_pos_r; [apply Z.pow_pos_nonneg; lia | exact Hp].
Qed.

Lemma one_constructor : one = S754_finite false 4503599627370496 (-52).
Proof. vm_compute. reflexivity. Qed.

(** For a binary64 float [f] with [0 <= f < 1], the base [1 - f] of the
    float quality is positive and at most one. *)
Lemma one_minus_float_unit :
  forall f,
    is_binary64 f = true -> ge f zero = true -> lt f one = true ->
    gt (sub one f) zero = true /\ le (sub one f) one = true.
Proof.
  intros f Hv H0 H1. rewrite one_constructor in *.
  destruct f as [s | s | | s m e].
  - destruct s; vm_compute; split; reflexivity.
  - destruct s; discriminate.
  - discriminate.
  - destruct s; [discriminate |].
    unfold is_binary64, valid_binary, bounded, canonical_mantissa in Hv.
    apply andb_true_iff in Hv as [Hc _]. apply Z.eqb_eq in Hc.
    rewrite fexp_eq in Hc.
    pose proof (digits2_bounds m) as Hd.
    set (d := Zpos (digits2_pos m)) in *.
    assert (He : e <= -53).
    { unfold lt, SFltb, SFcompare in H1.
      destruct (Z.compare_spec e (-52)) as [E | E | E];
        [| clear - E; lia | discriminate H1].
      subst e.
      destruct (Pos.compare_cont Eq m 4503599627370496) eqn:Ecmp;
        try discriminate H1.
      assert (Em : Zpos m < Zpos 4503599627370496)
        by (apply Pos2Z.pos_lt_pos; exact Ecmp).
      assert (d = 53) as Hd53 by (clear - Hc; lia).
      rewrite Hd53 in Hd.
      change (2 ^ (53 - 1)) with (Zpos 4503599627370496) in Hd.
      clear - Hd Em. lia. }
    clear H0 H1.
    assert (Hlo : -1074 <= e) by lia.
    assert (Hm : Zpos m < 2 ^ 53).
    { apply Z.lt_le_trans with (2 ^ d); [lia |].
      apply Z.pow_le_mono_r; lia. }
    assert (Hpow : 2 ^ 53 <= 2 ^ (- e)) by (apply Z.pow_le_mono_r; lia).
    assert (Hsub : exists q,
               sub (S754_finite false 4503599627370496 (-52))
                   (S754_finite false m e)
               = binary_round prec emax false q e
               /\ Zpos q < 2 ^ (- e)).
    { unfold sub, SFsub.
      rewrite Z.min_r by lia.
      unfold shl_align. rewrite Z.sub_diag.
      destruct (e - -52) as [| n | n] eqn:En; try lia.
      simpl fst. unfold cond_Zopp.
      rewrite iter_xO_pow.
      change (Zpos 4503599627370496) with (2 ^ 52).
      rewrite <- Z.pow_add_r by lia.
      replace (52 + Zpos n) with (- e) by lia.
      destruct (2 ^ (- e) - Zpos m) as [| q | q] eqn:Eq; try lia.
      exists q. split; [reflexivity | lia]. }
    destruct Hsub as (q & -> & Hq).
    destruct (binary_round_below_one q e Hq Hlo He) as (m' & e' & -> & Hres).
    unfold gt, le, SFltb, SFleb, SFcompare, zero, pos_zero.
    split; [reflexivity |].
    destruct Hres as [Hres | [-> ->]]; [| reflexivity].
    destruct (Z.compare_spec e' (-52)); try lia; reflexivity.
Qed.

(** *** Every number read by [parseFloat] is a binary64 number *)

Lemma Zdigits2_bounds :
  forall m, 0 < m -> 2 ^ (Zdigits2 m - 1) <= m < 2 ^ Zdigits2 m.
Proof.
  intros [| p | p] H; try lia. apply digits2_bounds.
Qed.

Lemma Zdigits2_unique :
  forall m k, 2 ^ (k - 1) <= m < 2 ^ k -> 0 < m -> Zdigits2 m = k.
Proof.
  intros m k [H1 H2] Hm.
  destruct (Zdigits2_bounds m Hm) as [H3 H4].
  assert (Hd : 0 < Zdigits2 m) by (destruct m; simpl; lia).
  assert (Hk : 0 < k).
  { destruct (Z.lt_trichotomy k 0) as [K | [K | K]]; [| | exact K].
    - rewrite Z.pow_neg_r in H2 by lia. lia.
    - subst k. simpl in H2. lia. }
  assert (A : 2 ^ (Zdigits2 m - 1) < 2 ^ k) by lia.
  assert (B : 2 ^ (k - 1) < 2 ^ Zdigits2 m) by lia.
  apply Z.pow_lt_mono_r_iff in A; try lia.
  apply Z.pow_lt_mono_r_iff in B; lia.
Qed.

Lemma Zdigits2_nonneg : forall m, 0 <= Zdigits2 m.
Proof. intros [| p | p]; simpl; lia. Qed.

Lemma Zdigits2_mono :
  forall a b, 0 <= a -> a <= b -> Zdigits2 a <= Zdigits2 b.
Proof.
  intros a b Ha Hab.
  destruct (Z.eq_dec a 0) as [-> | Hne]; [apply Zdigits2_nonneg |].
  destruct (Zdigits2_bounds a) as [A1 A2]; [lia |].
  destruct (Zdigits2_bounds b) as [B1 B2]; [lia |].
  assert (H : 2 ^ (Zdigits2 a - 1) < 2 ^ Zdigits2 b) by lia.
  pose proof (Zdigits2_nonneg b).
  apply Z.pow_lt_mono_r_iff in H; lia.
Qed.

Lemma Zdigits2_div_pow2 :
  forall m k, 0 <= k -> 2 ^ k <= m -> Zdigits2 (m / 2 ^ k) = Zdigits2 m - k.
Proof.
  intros m k Hk Hm.
  assert (Hp : 0 < 2 ^ k) by (apply Z.pow_pos_nonneg; lia).
  destruct (Zdigits2_bounds m) as [A1 A2]; [lia |].
  assert (Hdk : k < Zdigits2 m).
  { assert (H : 2 ^ k < 2 ^ Zdigits2 m) by lia.
    pose proof (Zdigits2_nonneg m).
    apply Z.pow_lt_mono_r_iff in H; lia. }
  apply Zdigits2_unique.
  - split.
    + apply Z.div_le_lower_bound; [exact Hp |].
      rewrite <- Z.pow_add_r by lia.
      replace (k + (Zdigits2 m - k - 1)) with (Zdigits2 m - 1) by lia.
      exact A1.
    + apply Z.div_lt_upper_bound; [exact Hp |].
      rewrite <- Z.pow_add_r by lia.
      replace (k + (Zdigits2 m - k)) with (Zdigits2 m) by lia.
      exact A2.
  - apply Z.div_str_pos. lia.
Qed.

(** [shr_fexp] on any mantissa that is not negative. *)
Lemma shr_fexp_nonneg :
  forall m e l,
    0 <= m ->
    exists mrs e',
      shr_fexp prec emax m e l = (mrs, e')
      /\ e' = Z.max e (fexp prec emax (Zdigits2 m + e))
      /\ shr_m mrs = m / 2 ^ (e' - e).
Proof.
  intros m e l Hm.
  unfold shr_fexp.
  set (fe := fexp prec emax (Zdigits2 m + e)).
  destruct (fe - e) as [| n | n] eqn:En; unfold shr.
  - eexists _, _. split; [reflexivity |].
    rewrite Z.max_l by lia.
    rewrite Z.sub_diag, Z.pow_0_r, Z.div_1_r.
    destruct l as [| []]; simpl; split; reflexivity.
  - eexists _, _. split; [reflexivity |].
    rewrite Z.max_r by lia.
    replace (e + Zpos n - e) with (Zpos n) by lia.
    split; [lia |].
    rewrite iter_shr_1_m; destruct l as [| []]; simpl; try reflexivity; lia.
  - eexists _, _. split; [reflexivity |].
    rewrite Z.max_l by lia.
    rewrite Z.sub_diag, Z.pow_0_r, Z.div_1_r.
    destruct l as [| []]; simpl; split; reflexivity.
Qed.

Lemma fexp_mono :
  forall x y, x <= y -> fexp prec emax x <= fexp prec emax y.
Proof. intros x y H. rewrite !fexp_eq. lia. Qed.

(** Rounding a mantissa given on an exponent that is not above the one of
    the format yields a number of the format. *)
Lemma binary_round_aux_valid :
  forall s mx ex l,
    0 <= mx -> ex <= fexp prec emax (Zdigits2 mx + ex) ->
    valid_binary prec emax (binary_round_aux prec emax s mx ex l) = true.
Proof.
  intros s mx ex l Hmx Hex.
  unfold binary_round_aux.
  destruct (shr_fexp_nonneg mx ex l Hmx) as (mrs1 & e1 & E1 & He1 & Hm1).
  rewrite E1.
  rewrite Z.max_r in He1 by exact Hex.
  pose proof (round_nearest_even_bounds (shr_m mrs1) (loc_of_shr_record mrs1))
    as Hr.
  set (mr := round_nearest_even (shr_m mrs1) (loc_of_shr_record mrs1)) in *.
  assert (Hp : 0 < 2 ^ (e1 - ex)) by (apply Z.pow_pos_nonneg; lia).
  assert (Hm1pos : 0 <= shr_m mrs1) by (rewrite Hm1; apply Z.div_pos; lia).
  assert (Hmr : 0 <= mr) by lia.
  destruct (shr_fexp_nonneg mr e1 loc_Exact Hmr) as (mrs2 & e2 & E2 & He2 & Hm2).
  rewrite E2.
  destruct (shr_m mrs2) as [| m2 | m2] eqn:Em2; try reflexivity.
  destruct (e2 <=? emax - prec) eqn:Ele; [| reflexivity].
  unfold valid_binary, bounded. rewrite Ele, andb_true_r.
  unfold canonical_mantissa. apply Z.eqb_eq.
  change (Zpos (digits2_pos m2)) with (Zdigits2 (Zpos m2)).
  assert (Hp2 : 0 < 2 ^ (e2 - e1)) by (apply Z.pow_pos_nonneg; lia).
  assert (Hmrpos : 2 ^ (e2 - e1) <= mr).
  { destruct (Z.lt_ge_cases mr (2 ^ (e2 - e1))) as [Hlt | Hge]; [| exact Hge].
    rewrite Z.div_small in Hm2 by lia. discriminate Hm2. }
  (* the exponent [e1] is the one of the format for [mr] or below it *)
  assert (Hfe : e1 <= fexp prec emax (Zdigits2 mr + e1)).
  { destruct (Z.eq_dec (shr_m mrs1) 0) as [Hz | Hnz].
    - assert (Hsmall : mx < 2 ^ (e1 - ex)).
      { destruct (Z.lt_ge_cases mx (2 ^ (e1 - ex))) as [Hlt | Hge];
          [exact Hlt |].
        assert (0 < mx / 2 ^ (e1 - ex)) by (apply Z.div_str_pos; lia). lia. }
      assert (He1min : e1 = -1074).
      { destruct (Z.eq_dec mx 0) as [-> | Hne].
        - simpl Zdigits2 in *. rewrite fexp_eq in *. lia.
        - destruct (Zdigits2_bounds mx) as [A1 A2]; [lia |].
          assert (H : 2 ^ (Zdigits2 mx - 1) < 2 ^ (e1 - ex)) by lia.
          apply Z.pow_lt_mono_r_iff in H; try lia.
          rewrite fexp_eq in *. lia. }
      rewrite fexp_eq. lia.
    - assert (Hge : 2 ^ (e1 - ex) <= mx).
      { destruct (Z.lt_ge_cases mx (2 ^ (e1 - ex))) as [Hlt | Hge];
          [| exact Hge].
        rewrite Z.div_small in Hm1 by lia. lia. }
      assert (Hd1 : Zdigits2 (shr_m mrs1) + e1 = Zdigits2 mx + ex).
      { rewrite Hm1, Zdigits2_div_pow2 by lia. lia. }
      assert (Hmono : Zdigits2 (shr_m mrs1) <= Zdigits2 mr)
        by (apply Zdigits2_mono; lia).
      apply Z.le_trans with (fexp prec emax (Zdigits2 (shr_m mrs1) + e1)).
      + rewrite Hd1. lia.
      + apply fexp_mono. lia. }
  rewrite Z.max_r in He2 by exact Hfe.
  rewrite Hm2, Zdigits2_div_pow2 by lia.
  replace (Zdigits2 mr - (e2 - e1) + e2) with (Zdigits2 mr + e1) by lia.
  symmetry. exact He2.
Qed.

Lemma binary_round_valid :
  forall s p e, valid_binary prec emax (binary_round prec emax s p e) = true.
Proof.
  intros s p e. unfold binary_round, shl_align.
  set (fe := fexp prec emax (Zpos (digits2_pos p) + e)).
  assert (Hfe : fe = fexp prec emax (Zdigits2 (Zpos p) + e)) by reflexivity.
  destruct (fe - e) as [| n | n] eqn:En.
  - apply binary_round_aux_valid; lia.
  - apply binary_round_aux_valid; lia.
  - apply binary_round_aux_valid; [lia |].
    assert (Hd : Zdigits2 (Zpos (Pos.iter xO p n)) = Zdigits2 (Zpos p) + Zpos n).
    { apply Zdigits2_unique; [| lia].
      rewrite iter_xO_pow.
      destruct (Zdigits2_bounds (Zpos p)) as [A1 A2]; [lia |].
      pose proof (Zdigits2_nonneg (Zpos p)).
      assert (0 < Zdigits2 (Zpos p)) by (simpl; lia).
      replace (Zdigits2 (Zpos p) + Zpos n - 1)
        with (Zdigits2 (Zpos p) - 1 + Zpos n) by lia.
      rewrite !Z.pow_add_r by lia.
      assert (0 < 2 ^ Zpos n) by (apply Z.pow_pos_nonneg; lia).
      split.
      - apply Z.mul_le_mono_nonneg_r; lia.
      - apply Z.mul_lt_mono_pos_r; lia. }
    rewrite Hd.
    replace (Zdigits2 (Zpos p) + Zpos n + fe) with (Zdigits2 (Zpos p) + e)
      by lia.
    lia.
Qed.

Lemma div_core_valid :
  forall s p q,
    valid_binary prec emax
      (let '(mz, ez, lz) :=
         SFdiv_core_binary prec emax (Zpos p) 0 (Zpos q) 0 in
       binary_round_aux prec emax s mz ez lz) = true.
Proof.
  intros s p q. unfold SFdiv_core_binary.
  rewrite !Z.add_0_r, Z.sub_diag, Z.sub_0_l.
  set (d1 := Zdigits2 (Zpos p)). set (d2 := Zdigits2 (Zpos q)).
  set (e' := Z.min (fexp prec emax (d1 - d2)) 0).
  assert (He' : e' <= 0) by (unfold e'; lia).
  assert (Hm' : match - e' with
                | 0 => Zpos p
                | Zpos _ => Z.shiftl (Zpos p) (- e')
                | Zneg _ => 0
                end = Zpos p * 2 ^ (- e')).
  { assert (Hx : 0 <= - e') by lia. revert Hx.
    generalize (- e'). intros [| n | n] Hx; try lia.
    apply Z.shiftl_mul_pow2. lia. }
  rewrite Hm'.
  pose proof (Z_div_mod (Zpos p * 2 ^ (- e')) (Zpos q) eq_refl) as Hdiv.
  destruct (Z.div_eucl (Zpos p * 2 ^ (- e')) (Zpos q)) as [qu r].
  destruct Hdiv as [Hdiv Hr].
  assert (Hpow : 0 < 2 ^ (- e')) by (apply Z.pow_pos_nonneg; lia).
  assert (Hqu : 0 <= qu) by nia.
  apply binary_round_aux_valid; [exact Hqu |].
  rewrite fexp_eq.
  destruct (Z_le_gt_dec e' (-1074)) as [Hlow | Hhigh]; [lia |].
  assert (He'd : e' <= d1 - d2 - 53).
  { unfold e' in *. rewrite fexp_eq in *. lia. }
  destruct (Zdigits2_bounds (Zpos p)) as [A1 A2]; [lia |].
  destruct (Zdigits2_bounds (Zpos q)) as [B1 B2]; [lia |].
  fold d1 in A1, A2. fold d2 in B1, B2.
  assert (Hd1 : 0 < d1) by (unfold d1; simpl; lia).
  assert (Hd2 : 0 < d2) by (unfold d2; simpl; lia).
  assert (Hbig : 2 ^ 52 * 2 ^ d2 <= Zpos p * 2 ^ (- e')).
  { apply Z.le_trans with (2 ^ (d1 - 1) * 2 ^ (- e')).
    - rewrite <- !Z.pow_add_r by lia. apply Z.pow_le_mono_r; lia.
    - apply Z.mul_le_mono_nonneg_r; lia. }
  assert (Hqu52 : 2 ^ 52 <= qu).
  { assert (H52 : 0 < 2 ^ 52) by reflexivity.
    destruct (Z_le_gt_dec (2 ^ 52) qu) as [Hok | Hbad]; [exact Hok |].
    assert (qu + 1 <= 2 ^ 52) by lia.
    assert (Zpos q * (qu + 1) <= Zpos q * 2 ^ 52)
      by (apply Z.mul_le_mono_nonneg_l; lia).
    assert (Zpos q * 2 ^ 52 < 2 ^ d2 * 2 ^ 52)
      by (apply Z.mul_lt_mono_pos_r; lia).
    lia. }
  assert (Hdq : 53 <= Zdigits2 qu).
  { change 53 with (Zdigits2 (2 ^ 52)). apply Zdigits2_mono; lia. }
  lia.
Qed.

Lemma of_decimal_valid :
  forall s m k, valid_binary prec emax (of_decimal s m k) = true.
Proof.
  intros s [| p | p] k; try reflexivity.
  unfold of_decimal. destruct k as [| q | q].
  - apply binary_round_valid.
  - apply binary_round_valid.
  - apply div_core_valid.
Qed.

(** Whatever the text, [parseFloat] returns a binary64 number. *)
Lemma parseFloat_binary64 : forall text, is_binary64 (parseFloat text) = true.
Proof.
  intros text. unfold parseFloat, is_binary64.
  destruct (read_sign (trim_start text)) as [minus s].
  destruct (String.prefix "Infinity" s); [reflexivity |].
  destruct (read_digits s 0 0) as [[int_part int_count] s1].
  destruct (match s1 with
            | String c rest =>
                if N.eqb (code c) 46 then read_digits rest int_part 0
                else (int_part, 0, s1)
            | EmptyString => (int_part, 0, s1)
            end) as [[mantissa frac_count] s2].
  destruct (Z.eqb int_count 0 && Z.eqb frac_count 0)%bool; [reflexivity |].
  apply of_decimal_valid.
Qed.

(** *** The float quality is the host's power *)

(** With a positive finite base and a positive finite exponent [Math.pow]
    returns what the host computes. *)
Lemma Math_pow_general :
  forall host_pow mb eb ma ea,
    Math_pow host_pow (S754_finite false mb eb) (S754_finite false ma ea)
    = host_pow (S754_finite false mb eb) (S754_finite false ma ea).
Proof. reflexivity. Qed.

Lemma floatQuality_host :
  forall host_pow f a,
    is_binary64 f = true -> ge f zero = true -> lt f one = true ->
    gt a zero = true -> isFinite a = true ->
    floatQuality host_pow f a = host_pow (sub one f) a
    /\ gt (sub one f) zero = true /\ le (sub one f) one = true.
Proof.
  intros host_pow f a Hv H0 H1 Ha Hfin.
  destruct (one_minus_float_unit f Hv H0 H1) as [Hb0 Hb1].
  split; [| split; assumption].
  unfold floatQuality.
  destruct (sub one f) as [[] | [] | | [] mb eb];
    try discriminate Hb0; try discriminate Hb1.
  destruct a as [[] | [] | | [] ma ea];
    try discriminate Ha; try discriminate Hfin.
  apply Math_pow_general.
Qed.

(** In the record that [calculate] returns, for a float below 1 and a
    finite alpha > 0, the float quality is the host's power of a base in
    (0,1]. *)
Lemma result_float_quality :
  forall host_pow fs res,
    calculate host_pow fs = Result res ->
    lt (floatValue fs) one = true ->
    gt (alpha fs) zero = true -> isFinite (alpha fs) = true ->
    CalculateResult.Q res = host_pow (sub one (floatValue fs)) (alpha fs)
    /\ gt (sub one (floatValue fs)) zero = true
    /\ le (sub one (floatValue fs)) one = true.
Proof.
  intros host_pow fs res E H1 Ha Hfin.
  pose proof (calculate_result_score _ _ _ E) as ->.
  rewrite calculate_eq in E.
  destruct (ge (floatValue fs) zero) eqn:H0; [| discriminate E].
  change (CalculateResult.Q (score host_pow fs))
    with (floatQuality host_pow (floatValue fs) (alpha fs)).
  apply floatQuality_host; try assumption.
  apply parseFloat_binary64.
Qed.

(** *** C6: the interpretation of a score *)

Lemma lit_0_15_lt_0_40 : lt lit_0_15 lit_0_40 = true.
Proof. vm_compute. reflexivity. Qed.

Lemma neg_0_15_lt_0_15 : lt (neg lit_0_15) lit_0_15 = true.
Proof. vm_compute. reflexivity. Qed.

(** The ranges of the four labels. *)
Lemma interpret_label_ranges :
  forall s,
    is_nan s = false ->
    (interpret_label s = CompraForte <-> gt s lit_0_40 = true)
    /\ (interpret_label s = Considerar
        <-> gt s lit_0_15 = true /\ le s lit_0_40 = true)
    /\ (interpret_label s = Neutro
        <-> ge s (neg lit_0_15) = true /\ le s lit_0_15 = true)
    /\ (interpret_label s = Evitar <-> lt s (neg lit_0_15) = true).
Proof.
  intros s Hs.
  assert (Ha : gt s lit_0_40 = negb (le s lit_0_40))
    by (apply gt_negb_le; [assumption | reflexivity]).
  assert (Hb : gt s lit_0_15 = negb (le s lit_0_15))
    by (apply gt_negb_le; [assumption | reflexivity]).
  assert (Hc : lt s (neg lit_0_15) = negb (ge s (neg lit_0_15))).
  { change (lt s (neg lit_0_15)) with (gt (neg lit_0_15) s).
    change (ge s (neg lit_0_15)) with (le (neg lit_0_15) s).
    apply gt_negb_le; [reflexivity | assumption]. }
  assert (Hab : gt s lit_0_40 = true -> gt s lit_0_15 = true).
  { unfold gt. intros H. fold (lt lit_0_40 s) in H. fold (lt lit_0_15 s).
    exact (lt_trans _ _ _ lit_0_15_lt_0_40 H). }
  assert (Hbc : gt s lit_0_15 = true -> ge s (neg lit_0_15) = true).
  { unfold gt, ge. intros H. fold (lt lit_0_15 s) in H.
    fold (le (neg lit_0_15) s).
    apply lt_le. exact (lt_trans _ _ _ neg_0_15_lt_0_15 H). }
  unfold interpret_label.
  destruct (gt s lit_0_40) eqn:A, (gt s lit_0_15) eqn:B,
           (ge s (neg lit_0_15)) eqn:C;
    destruct (le s lit_0_40); try discriminate Ha;
    destruct (le s lit_0_15); try discriminate Hb;
    destruct (lt s (neg lit_0_15)); try discriminate Hc;
    try (specialize (Hab eq_refl); discriminate Hab);
    try (specialize (Hbc eq_refl); discriminate Hbc);
    repeat split; intros; try discriminate; try reflexivity;
    try match goal with H : _ /\ _ |- _ => destruct H; discriminate end.
Qed.

(** The text of [interpret] tells the label. *)
Lemma interpret_text_label :
  forall s l, interpret s = label_text l <-> interpret_label s = l.
Proof.
  intros s l. unfold interpret. split.
  - destruct (interpret_label s), l; simpl; intro H;
      try reflexivity; discriminate H.
  - intros ->. reflexivity.
Qed.

(** C6. [interpret] is total: every score gets one of four texts.  On the
    numbers the four texts split the line into four ranges that do not
    overlap: above 0.40 'Compra forte' (strong buy), above 0.15 and at most
    0.40 'Considerar' (consider), from -0.15 to 0.15 'Neutro' (neutral),
    below -0.15 'Evitar' (avoid), the thresholds being the doubles nearest
    to 0.40 and 0.15.  0.40 and 0.15 are exclusive lower bounds, -0.15 is
    an inclusive one. *)
Theorem interpret_partition :
  forall s,
    (interpret s = "Compra forte"%string \/ interpret s = "Considerar"%string
     \/ interpret s = "Neutro"%string \/ interpret s = "Evitar"%string)
    /\ (is_nan s = false ->
        (interpret s = "Compra forte"%string
         <-> gt s (of_decimal false 40 (-2)) = true)
        /\ (interpret s = "Considerar"%string
            <-> gt s (of_decimal false 15 (-2)) = true
                /\ le s (of_decimal false 40 (-2)) = true)
        /\ (interpret s = "Neutro"%string
            <-> ge s (neg (of_decimal false 15 (-2))) = true
                /\ le s (of_decimal false 15 (-2)) = true)
        /\ (interpret s = "Evitar"%string
            <-> lt s (neg (of_decimal false 15 (-2))) = true)).
Proof.
  intros s. split.
  - unfold interpret. destruct (interpret_label s); simpl; auto.
  - intros Hs.
    destruct (interpret_label_ranges s Hs) as (H1 & H2 & H3 & H4).
    fold lit_0_40. fold lit_0_15.
    split; [| split; [| split]].
    + rewrite <- H1. apply (interpret_text_label s CompraForte).
    + rewrite <- H2. apply (interpret_text_label s Considerar).
    + rewrite <- H3. apply (interpret_text_label s Neutro).
    + rewrite <- H4. apply (interpret_text_label s Evitar).
Qed.

Lemma interpret_partition_witness :
  interpret (dec 404 (-3)) = "Compra forte"%string
  /\ interpret (dec 40 (-2)) = "Considerar"%string
  /\ interpret (dec 15 (-2)) = "Neutro"%string
  /\ interpret (neg (dec 15 (-2))) = "Neutro"%string
  /\ interpret (neg (dec 150001 (-6))) = "Evitar"%string.
Proof.
  split; [| split; [| split; [| split]]].
  - destruct (proj2 (interpret_partition (dec 404 (-3)))
                ltac:(vm_compute; reflexivity)) as (H & _).
    apply H. vm_compute. reflexivity.
  - destruct (proj2 (interpret_partition (dec 40 (-2)))
                ltac:(vm_compute; reflexivity)) as (_ & H & _).
    apply H. by_computation.
  - destruct (proj2 (interpret_partition (dec 15 (-2)))
                ltac:(vm_compute; reflexivity)) as (_ & _ & H & _).
    apply H. by_computation.
  - destruct (proj2 (interpret_partition (neg (dec 15 (-2))))
                ltac:(vm_compute; reflexivity)) as (_ & _ & H & _).
    apply H. by_computation.
  - destruct (proj2 (interpret_partition (neg (dec 150001 (-6))))
                ltac:(vm_compute; reflexivity)) as (_ & _ & _ & H).
    apply H. vm_compute. reflexivity.
Defined.

(** The four labels have four different texts, and a score that is not a
    number reads 'Evitar'. *)
Lemma label_text_injective :
  forall l1 l2, label_text l1 = label_text l2 -> l1 = l2.
Proof. intros [] []; simpl; intro H; try reflexivity; discriminate H. Qed.

Lemma interpret_NaN : interpret NaN = "Evitar"%string.
Proof. reflexivity. Qed.

(** *** C7: the liquidity factor *)

(** The validations do not read the liquidity field. *)
Lemma liquidity_not_validated :
  forall host_pow fs text,
    is_alert (calculate host_pow (set_field fs F_liq text))
    = is_alert (calculate host_pow fs).
Proof.
  intros host_pow [pm pa fee float wp wf alpha cap r liq name] text.
  rewrite !calculate_eq. unfold set_field.
  unfold floatValue, averageCost, priceWeight, floatWeight.
  cbn [FormState.pm FormState.float FormState.wp FormState.wf].
  destruct (negb _); [reflexivity |].
  destruct (le (or_else (parseFloat pm) zero) zero); [reflexivity |].
  destruct (le (add _ _) zero); reflexivity.
Qed.

(** C7. When the liquidity field parses to a value that is not finite (an
    unparseable text gives NaN), the liquidity factor is 1 and no validation
    failure comes of it; when it parses to a finite value the factor is
    [clamp(liquidity, 0, 1)].  In both cases
    [finalScore = rawScore * rarity * liquidityFactor]. *)
Theorem liquidity_factor_default :
  forall host_pow fs res,
    calculate host_pow fs = Result res ->
    CalculateResult.Sfinal res
    = mul (mul (CalculateResult.S res) (rarity fs))
        (liquidityFactor (liquidity fs))
    /\ (isFinite (liquidity fs) = false ->
        liquidityFactor (liquidity fs) = one)
    /\ (isFinite (liquidity fs) = true ->
        liquidityFactor (liquidity fs) = clamp (liquidity fs) zero one)
    /\ (forall text,
          is_alert (calculate host_pow (set_field fs F_liq text)) = false).
Proof.
  intros host_pow fs res E.
  pose proof (calculate_result_score _ _ _ E) as ->.
  repeat split.
  - intros H. unfold liquidityFactor. rewrite H. reflexivity.
  - intros H. unfold liquidityFactor. rewrite H. reflexivity.
  - intros text. rewrite liquidity_not_validated, E. reflexivity.
Qed.

Lemma liquidity_factor_default_witness :
  CalculateResult.Sfinal (score RefHost.pow unparseable_liquidity)
  = mul (mul (CalculateResult.S (score RefHost.pow unparseable_liquidity))
           (rarity unparseable_liquidity))
      (liquidityFactor (liquidity unparseable_liquidity))
  /\ liquidityFactor (liquidity unparseable_liquidity) = one.
Proof.
  destruct (liquidity_factor_default RefHost.pow unparseable_liquidity
              (score RefHost.pow unparseable_liquidity))
    as (H1 & H2 & _).
  - vm_compute. reflexivity.
  - split; [exact H1 | apply H2; vm_compute; reflexivity].
Defined.

(** *** C9: the fields that default to 1 *)

(** [calculate] depends on the text of alpha, cap and rarity only through
    the value of [parseFloat(text) || 1]. *)
Lemma calculate_default_one_ext :
  forall host_pow fs k t1 t2,
    defaults_to_one k = true ->
    or_else (parseFloat t1) one = or_else (parseFloat t2) one ->
    calculate host_pow (set_field fs k t1)
    = calculate host_pow (set_field fs k t2).
Proof.
  intros host_pow [pm pa fee float wp wf alpha cap r liq name] k t1 t2 Hk H.
  destruct k; try discriminate Hk; unfold set_field, calculate;
    cbn [FormState.pm FormState.pa FormState.fee FormState.float FormState.wp
         FormState.wf FormState.alpha FormState.cap FormState.r FormState.liq];
    rewrite H; reflexivity.
Qed.

Lemma default_one_not_validated :
  forall host_pow fs k text,
    defaults_to_one k = true ->
    is_alert (calculate host_pow (set_field fs k text))
    = is_alert (calculate host_pow fs).
Proof.
  intros host_pow [pm pa fee float wp wf alpha cap r liq name] k text Hk.
  rewrite !calculate_eq.
  destruct k; try discriminate Hk; unfold set_field;
    unfold floatValue, averageCost, priceWeight, floatWeight;
    cbn [FormState.pm FormState.float FormState.wp FormState.wf];
    (destruct (negb _); [reflexivity |]);
    (destruct (le (or_else (parseFloat pm) zero) zero); [reflexivity |]);
    destruct (le (add _ _) zero); reflexivity.
Qed.

(** What [calculate] computes from the exponent, the cap and the rarity. *)
Lemma calculate_uses_defaulted :
  forall host_pow fs res,
    calculate host_pow fs = Result res ->
    CalculateResult.Q res
    = Math_pow host_pow (sub one (parseFloat (FormState.float fs)))
        (or_else (parseFloat (FormState.alpha fs)) one)
    /\ CalculateResult.Dc res
       = clamp (CalculateResult.D res)
           (neg (or_else (parseFloat (FormState.cap fs)) one))
           (or_else (parseFloat (FormState.cap fs)) one)
    /\ CalculateResult.Sfinal res
       = mul (mul (CalculateResult.S res)
                (or_else (parseFloat (FormState.r fs)) one))
           (liquidityFactor (parseFloat (FormState.liq fs))).
Proof.
  intros host_pow fs res E.
  pose proof (calculate_result_score _ _ _ E) as ->.
  repeat split.
Qed.

(** C9. For the alpha, cap and rarity fields a text that parses to exactly
    0 is replaced by the default 1, just as a text that does not parse: the
    form behaves as if the field read 1, and [calculate] raises to the
    power 1, clamps at 1 and multiplies by 1.  A text that parses to a
    negative value is used as it is: [calculate] raises to that negative
    power, clamps between the crossed bounds and multiplies by the negative
    rarity, and no validation looks at it. *)
Theorem zero_defaults_to_one_negative_kept :
  forall host_pow fs k text,
    defaults_to_one k = true ->
    let f := parseFloat (FormState.float fs) in
    let factor := liquidityFactor (parseFloat (FormState.liq fs)) in
    let uses (v : number) :=
      (forall res,
          calculate host_pow (set_field fs F_alpha text) = Result res ->
          CalculateResult.Q res = Math_pow host_pow (sub one f) v)
      /\ (forall res,
            calculate host_pow (set_field fs F_cap text) = Result res ->
            CalculateResult.Dc res = clamp (CalculateResult.D res) (neg v) v)
      /\ (forall res,
            calculate host_pow (set_field fs F_r text) = Result res ->
            CalculateResult.Sfinal res
            = mul (mul (CalculateResult.S res) v) factor) in
    (eq (parseFloat text) zero = true \/ is_nan (parseFloat text) = true ->
     or_else (parseFloat text) one = one
     /\ calculate host_pow (set_field fs k text)
        = calculate host_pow (set_field fs k "1")
     /\ uses one)
    /\ (lt (parseFloat text) zero = true ->
        or_else (parseFloat text) one = parseFloat text
        /\ alpha (set_field fs F_alpha text) = parseFloat text
        /\ cap (set_field fs F_cap text) = parseFloat text
        /\ rarity (set_field fs F_r text) = parseFloat text
        /\ uses (parseFloat text)
        /\ is_alert (calculate host_pow (set_field fs k text))
           = is_alert (calculate host_pow fs)).
Proof.
  intros host_pow fs k text Hk f factor uses.
  assert (Huses : uses (or_else (parseFloat text) one)).
  { unfold uses, f, factor.
    destruct fs as [pm pa fee float wp wf alpha0 cap0 r liq name].
    split; [| split]; intros res E;
      destruct (calculate_uses_defaulted _ _ _ E) as (HQ & HDc & HS);
      assumption. }
  split.
  - intros H.
    assert (E : or_else (parseFloat text) one = one).
    { destruct H as [H | H];
        destruct (parseFloat text) as [[]|[]| |[] m e]; try discriminate H;
        reflexivity. }
    split; [exact E |]. split.
    + apply calculate_default_one_ext; [exact Hk |].
      rewrite E. vm_compute. reflexivity.
    + rewrite <- E. exact Huses.
  - intros H.
    assert (E : or_else (parseFloat text) one = parseFloat text).
    { destruct (parseFloat text) as [[]|[]| |[] m e]; try discriminate H;
        reflexivity. }
    split; [exact E |].
    split; [destruct fs; exact E |].
    split; [destruct fs; exact E |].
    split; [destruct fs; exact E |].
    split; [rewrite <- E; exact Huses |].
    apply default_one_not_validated. exact Hk.
Qed.

Lemma zero_defaults_to_one_negative_kept_witness :
  calculate RefHost.pow (set_field initialFormState F_alpha "0")
  = calculate RefHost.pow (set_field initialFormState F_alpha "1")
  /\ CalculateResult.Sfinal
       (score RefHost.pow (set_field initialFormState F_r "-1"))
     = neg (dec 404 (-3))
  /\ CalculateResult.Dc
       (score RefHost.pow (set_field initialFormState F_cap "-0.5"))
     = dec 5 (-1)
  /\ CalculateResult.Q
       (score RefHost.pow
          (set_field (set_field initialFormState F_float "0.5") F_alpha "-1"))
     = dec 2 0.
Proof.
  split; [| split; [| split]].
  - apply (proj1 (zero_defaults_to_one_negative_kept RefHost.pow
                    initialFormState F_alpha "0" eq_refl)).
    left. vm_compute. reflexivity.
  - destruct (proj2 (zero_defaults_to_one_negative_kept RefHost.pow
                       initialFormState F_r "-1" eq_refl)
                ltac:(vm_compute; reflexivity))
      as (_ & _ & _ & _ & (_ & _ & H) & _).
    rewrite (H (score RefHost.pow (set_field initialFormState F_r "-1"))
               ltac:(vm_compute; reflexivity)).
    vm_compute. reflexivity.
  - destruct (proj2 (zero_defaults_to_one_negative_kept RefHost.pow
                       initialFormState F_cap "-0.5" eq_refl)
                ltac:(vm_compute; reflexivity))
      as (_ & _ & _ & _ & (_ & H & _) & _).
    rewrite (H (score RefHost.pow (set_field initialFormState F_cap "-0.5"))
               ltac:(vm_compute; reflexivity)).
    vm_compute. reflexivity.
  - destruct (proj2 (zero_defaults_to_one_negative_kept RefHost.pow
                       (set_field initialFormState F_float "0.5")
                       F_alpha "-1" eq_refl)
                ltac:(vm_compute; reflexivity))
      as (_ & _ & _ & _ & (H & _ & _) & _).
    rewrite (H (score RefHost.pow
                  (set_field (set_field initialFormState F_float "0.5")
                     F_alpha "-1"))
               ltac:(vm_compute; reflexivity)).
    vm_compute. reflexivity.
Defined.

(** *** C10: a failed validation changes nothing that is shown *)

(** C10. When the validation fails, so that [calculate] returns no result,
    the Calcular handler and the Adicionar historico handler leave the
    displayed result, the history and the form as they were. *)
Theorem failed_validation_keeps_state :
  forall host_pow st id v,
    calculate host_pow (formState st) = Alert v ->
    (result (handleCalculate host_pow st) = result st
     /\ history (handleCalculate host_pow st) = history st
     /\ formState (handleCalculate host_pow st) = formState st)
    /\ (result (handleAddHistory host_pow id st) = result st
        /\ history (handleAddHistory host_pow id st) = history st
        /\ formState (handleAddHistory host_pow id st) = formState st).
Proof.
  intros host_pow st id v E.
  unfold handleCalculate, handleAddHistory. rewrite E.
  repeat split.
Qed.

Lemma failed_validation_keeps_state_witness :
  let st := run RefHost.pow
              [AddHistory "2024-01-01T00:00:00.000Z-0.5";
               InputChange F_float "1.5"] initialState in
  result (handleCalculate RefHost.pow st) = result st
  /\ history (handleAddHistory RefHost.pow "2024-01-02T00:00:00.000Z-0.25" st)
     = history st.
Proof.
  intros st.
  destruct (failed_validation_keeps_state RefHost.pow st
              "2024-01-02T00:00:00.000Z-0.25" InvalidFloat)
    as ((H1 & _ & _) & (_ & H2 & _)).
  - vm_compute. reflexivity.
  - split; [exact H1 | exact H2].
Defined.

(** *** C8: the history *)

Lemma handleAddHistory_formState :
  forall host_pow id st,
    formState (handleAddHistory host_pow id st) = formState st.
Proof.
  intros host_pow id st. unfold handleAddHistory.
  destruct (calculate host_pow (formState st)); reflexivity.
Qed.

(** A run of commits on a form that passes the validations adds one record
    per commit, the latest first. *)
Lemma commits_prepend :
  forall host_pow res ids st,
    calculate host_pow (formState st) = Result res ->
    history (run host_pow (map AddHistory ids) st)
    = rev (map (fun id => newItem res id (formState st)) ids) ++ history st.
Proof.
  intros host_pow res ids. induction ids as [| id ids IH]; intros st E.
  - reflexivity.
  - simpl map. unfold run in *. simpl fold_left.
    rewrite IH by (rewrite handleAddHistory_formState; exact E).
    rewrite handleAddHistory_formState.
    unfold handleAddHistory at 1. rewrite E. simpl.
    rewrite <- app_assoc. reflexivity.
Qed.

(** Every event other than a reset leaves the records that are already in
    the history at its tail, in their order. *)
Lemma history_kept_without_reset :
  forall host_pow evs st,
    forallb not_reset evs = true ->
    exists added, history (run host_pow evs st) = added ++ history st.
Proof.
  intros host_pow evs. induction evs as [| ev evs IH]; intros st Hevs.
  - exists []. reflexivity.
  - simpl in Hevs. apply andb_true_iff in Hevs as [Hev Hevs].
    unfold run in *. simpl fold_left.
    destruct (IH (handle host_pow ev st) Hevs) as [added E]. rewrite E.
    destruct ev as [k value | | id |]; try discriminate Hev; simpl.
    + exists added. reflexivity.
    + exists added. unfold handleCalculate.
      destruct (calculate host_pow (formState st)); reflexivity.
    + unfold handleAddHistory.
      destruct (calculate host_pow (formState st)) as [v | res]; simpl.
      * exists added. reflexivity.
      * exists (added ++ [newItem res id (formState st)]).
        rewrite <- app_assoc. reflexivity.
Qed.

(** C8. Committing a result builds a new record: the seven numbers of the
    result, the identifier, the display name (the dash when the name is
    empty) and the text of the float field; the commit puts it at the head
    of the history and shows the result.  After a sequence of commits the
    latest record is first and the earlier records keep their contents and
    their order.  The reset empties the history, and no other handler
    changes it. *)
Theorem history_prepend_and_reset :
  forall host_pow st res ids,
    calculate host_pow (formState st) = Result res ->
    let record id :=
      {| HistoryItem.Pm := CalculateResult.Pm res;
         HistoryItem.PaAdj := CalculateResult.PaAdj res;
         HistoryItem.D := CalculateResult.D res;
         HistoryItem.Dc := CalculateResult.Dc res;
         HistoryItem.Q := CalculateResult.Q res;
         HistoryItem.S := CalculateResult.S res;
         HistoryItem.Sfinal := CalculateResult.Sfinal res;
         HistoryItem.id := id;
         HistoryItem.name :=
           match FormState.name (formState st) with
           | EmptyString => "—"%string
           | name => name
           end;
         HistoryItem.floatValue := FormState.float (formState st) |} in
    (forall id,
        history (handleAddHistory host_pow id st) = record id :: history st
        /\ result (handleAddHistory host_pow id st) = Some res
        /\ formState (handleAddHistory host_pow id st) = formState st)
    /\ history (run host_pow (map AddHistory ids) st)
       = rev (map record ids) ++ history st
    /\ history (handleReset st) = []
    /\ (forall k value, history (handleInputChange k value st) = history st)
    /\ history (handleCalculate host_pow st) = history st
    /\ (forall evs,
          forallb not_reset evs = true ->
          exists added, history (run host_pow evs st) = added ++ history st).
Proof.
  intros host_pow st res ids E record.
  assert (Hrecord : forall id, newItem res id (formState st) = record id).
  { intros id. unfold newItem, record, name_or_dash.
    destruct (FormState.name (formState st)); reflexivity. }
  split; [| split; [| split; [| split; [| split]]]].
  - intros id. unfold handleAddHistory. rewrite E. cbn [history result formState].
    rewrite Hrecord. repeat split.
  - rewrite (commits_prepend host_pow res ids st E).
    f_equal. f_equal. apply map_ext. exact Hrecord.
  - reflexivity.
  - reflexivity.
  - unfold handleCalculate. rewrite E. reflexivity.
  - intros evs Hevs. apply history_kept_without_reset. exact Hevs.
Qed.

Lemma history_prepend_and_reset_witness :
  let st := mkState named_form None [] [] in
  let after :=
    run RefHost.pow (map AddHistory ["id-1"; "id-2"]%string) st in
  map HistoryItem.id (history after) = ["id-2"; "id-1"]%string
  /\ map HistoryItem.name (history after)
     = ["AK-47 | Redline"; "AK-47 | Redline"]%string
  /\ map HistoryItem.floatValue (history after) = ["0.12"; "0.12"]%string
  /\ map HistoryItem.Sfinal (history after) = [dec 404 (-3); dec 404 (-3)]
  /\ map HistoryItem.D (history after) = [dec 2 (-1); dec 2 (-1)]
  /\ map HistoryItem.Q (history after) = [dec 88 (-2); dec 88 (-2)]
  /\ history (handleReset after) = [].
Proof.
  intros st after.
  destruct (history_prepend_and_reset RefHost.pow st
              (score RefHost.pow named_form) ["id-1"; "id-2"]%string)
    as (_ & H2 & _).
  - vm_compute. reflexivity.
  - unfold after. rewrite H2. by_computation.
Defined.

(** ** Further properties *)

Import Format.

(** *** Strings *)

Lemma append_assoc :
  forall a b c : string, ((a ++ b) ++ c = a ++ (b ++ c))%string.
Proof.
  induction a as [| x a IH]; intros b c; simpl; [| rewrite IH]; reflexivity.
Qed.

Lemma append_empty_r : forall a : string, (a ++ EmptyString)%string = a.
Proof. induction a as [| x a IH]; simpl; [| rewrite IH]; reflexivity. Qed.

Lemma length_append :
  forall a b : string,
    String.length (a ++ b) = (String.length a + String.length b)%nat.
Proof. induction a as [| x a IH]; intros b; simpl; [| rewrite IH]; reflexivity. Qed.

Lemma first_other_units :
  forall n s, (first_units n s ++ other_units n s)%string = s.
Proof.
  induction n as [| n IH]; intros [| c r]; simpl; try reflexivity.
  rewrite IH. reflexivity.
Qed.

Lemma length_first_units :
  forall n s, (n <= String.length s)%nat -> String.length (first_units n s) = n.
Proof.
  induction n as [| n IH]; intros [| c r] H; simpl in *; try reflexivity;
    try lia.
  rewrite IH by lia. reflexivity.
Qed.

(** *** Digits written by [toFixed] and read back by [parseFloat] *)

Lemma all_digits_append :
  forall a b, all_digits (a ++ b) = (all_digits a && all_digits b)%bool.
Proof.
  induction a as [| c a IH]; intros b; simpl; [reflexivity |].
  rewrite IH, andb_assoc. reflexivity.
Qed.

Lemma digits_value_append :
  forall a b acc,
    digits_value (a ++ b) acc = digits_value b (digits_value a acc).
Proof.
  induction a as [| c a IH]; intros b acc; simpl; [reflexivity | apply IH].
Qed.

Lemma digits_value_scale :
  forall ds acc,
    digits_value ds acc
    = acc * 10 ^ Z.of_nat (String.length ds) + digits_value ds 0.
Proof.
  induction ds as [| c ds IH]; intros acc.
  - simpl. lia.
  - cbn [digits_value String.length].
    rewrite IH, (IH (10 * 0 + digit_value c)).
    rewrite Nat2Z.inj_succ, Z.pow_succ_r by lia. lia.
Qed.

(** [read_digits] reads a run of digits to its end. *)
Lemma read_digits_run :
  forall ds rest acc count,
    all_digits ds = true -> no_digit_ahead rest = true ->
    read_digits (ds ++ rest) acc count
    = (digits_value ds acc, count + Z.of_nat (String.length ds), rest).
Proof.
  induction ds as [| c ds IH]; intros rest acc count Hds Hrest.
  - simpl. rewrite Z.add_0_r.
    destruct rest as [| c r]; [reflexivity |].
    simpl in *. apply negb_true_iff in Hrest. rewrite Hrest. reflexivity.
  - cbn [all_digits] in Hds. apply andb_true_iff in Hds as [Hc Hds].
    cbn [append read_digits digits_value String.length]. rewrite Hc.
    rewrite IH by assumption. rewrite Nat2Z.inj_succ.
    f_equal. f_equal. lia.
Qed.

Lemma digit_char_spec :
  forall d, 0 <= d < 10 ->
    is_digit (digit_char d) = true /\ digit_value (digit_char d) = d.
Proof.
  intros d Hd.
  assert (H : d = 0 \/ d = 1 \/ d = 2 \/ d = 3 \/ d = 4 \/ d = 5 \/ d = 6
              \/ d = 7 \/ d = 8 \/ d = 9) by lia.
  repeat (destruct H as [-> | H]; [split; reflexivity |]).
  subst d. split; reflexivity.
Qed.

(** The loop writes the digits of [n]: they spell [n], there is at least
    one, and no more than [n] needs. *)
Lemma digits_loop_spec :
  forall fuel n acc,
    0 <= n < 2 ^ Z.of_nat fuel -> (0 < fuel)%nat ->
    exists ds,
      digits_loop fuel n acc = (ds ++ acc)%string
      /\ all_digits ds = true
      /\ (0 < String.length ds)%nat
      /\ digits_value ds 0 = n
      /\ n < 10 ^ Z.of_nat (String.length ds)
      /\ (0 < n -> 10 ^ (Z.of_nat (String.length ds) - 1) <= n).
Proof.
  induction fuel as [| fuel IH]; intros n acc Hn Hfuel; [lia |].
  cbn [digits_loop].
  assert (Hmod : 0 <= n mod 10 < 10) by (apply Z.mod_pos_bound; lia).
  destruct (digit_char_spec (n mod 10) Hmod) as [Hd1 Hd2].
  pose proof (Z.div_mod n 10 ltac:(lia)) as Hdm.
  destruct (Z.eqb_spec (n / 10) 0) as [Hq | Hq].
  - exists (String (digit_char (n mod 10)) EmptyString).
    cbn [append all_digits String.length digits_value].
    rewrite Hd1, Hd2. repeat split; try reflexivity; try lia.
  - assert (Hqpos : 0 < n / 10).
    { assert (0 <= n / 10) by (apply Z.div_pos; lia). lia. }
    assert (Hfuel' : (0 < fuel)%nat).
    { destruct fuel; [| lia]. simpl in Hn. lia. }
    assert (Hqlt : n / 10 < 2 ^ Z.of_nat fuel).
    { rewrite Nat2Z.inj_succ, Z.pow_succ_r in Hn by lia. lia. }
    destruct (IH (n / 10) (String (digit_char (n mod 10)) acc)
                ltac:(lia) Hfuel')
      as (ds & E & Hall & Hlen & Hval & Hub & Hlb).
    exists (ds ++ String (digit_char (n mod 10)) EmptyString)%string.
    rewrite E, append_assoc. cbn [append].
    rewrite all_digits_append, digits_value_append, length_append.
    cbn [all_digits String.length digits_value].
    rewrite Hall, Hd1, Hd2, Hval.
    replace (Z.of_nat (String.length ds + 1)) with
      (Z.succ (Z.of_nat (String.length ds))) by lia.
    rewrite Z.pow_succ_r by lia.
    split; [reflexivity |]. split; [reflexivity |]. split; [lia |].
    split; [lia |]. split; [lia |].
    intros _. specialize (Hlb Hqpos).
    replace (Z.succ (Z.of_nat (String.length ds)) - 1)
      with (Z.succ (Z.of_nat (String.length ds) - 1)) by lia.
    rewrite Z.pow_succ_r by lia. lia.
Qed.

Lemma decimal_digits_spec :
  forall n, 0 <= n ->
    all_digits (decimal_digits n) = true
    /\ (0 < String.length (decimal_digits n))%nat
    /\ digits_value (decimal_digits n) 0 = n
    /\ n < 10 ^ Z.of_nat (String.length (decimal_digits n))
    /\ (0 < n -> 10 ^ (Z.of_nat (String.length (decimal_digits n)) - 1) <= n).
Proof.
  intros n Hn. unfold decimal_digits.
  destruct (digits_loop_spec (S (Z.to_nat (Z.log2 n))) n EmptyString)
    as (ds & E & H).
  - split; [exact Hn |].
    rewrite Nat2Z.inj_succ, Z2Nat.id by apply Z.log2_nonneg.
    destruct (Z.eq_dec n 0) as [-> | Hne]; [reflexivity |].
    apply Z.log2_spec. lia.
  - lia.
  - rewrite E, append_empty_r. exact H.
Qed.

Lemma zeros_spec :
  forall k,
    all_digits (zeros k) = true
    /\ String.length (zeros k) = k
    /\ digits_value (zeros k) 0 = 0.
Proof.
  induction k as [| k (H1 & H2 & H3)]; simpl; [repeat split |].
  rewrite H1, H2. repeat split. exact H3.
Qed.

(** The shape of what [toFixed] writes for [f > 0] decimals: digits, a
    point and exactly [f] digits, which together spell [n]; a single digit
    before the point when [n < 10^(f+1)]. *)
Lemma fixed_digits_spec :
  forall n f,
    0 <= n -> (0 < f)%nat ->
    exists a b,
      fixed_digits n f = (a ++ "." ++ b)%string
      /\ all_digits a = true /\ all_digits b = true
      /\ (0 < String.length a)%nat /\ String.length b = f
      /\ digits_value (a ++ b) 0 = n
      /\ (n < 10 ^ (Z.of_nat f + 1) -> String.length a = 1%nat).
Proof.
  intros n f Hn Hf.
  destruct (decimal_digits_spec n Hn) as (Hall & Hlen & Hval & Hub & Hlb).
  unfold fixed_digits. destruct f as [| f']; [lia |].
  set (f := S f') in *.
  set (m := decimal_digits n) in *.
  set (k := String.length m) in *.
  set (m' := if Nat.leb k f then (zeros (f + 1 - k) ++ m)%string else m).
  set (k' := if Nat.leb k f then (f + 1)%nat else k).
  destruct (zeros_spec (f + 1 - k)) as (Z1 & Z2 & Z3).
  assert (Hm' : all_digits m' = true /\ String.length m' = k'
                /\ digits_value m' 0 = n /\ (f < k')%nat).
  { unfold m', k'. destruct (Nat.leb_spec k f) as [Hle | Hgt].
    - rewrite all_digits_append, length_append, digits_value_append.
      rewrite Z1, Z2, Z3, Hall. fold k.
      split; [reflexivity |]. split; [lia |]. split; [exact Hval | lia].
    - split; [exact Hall |]. split; [reflexivity |].
      split; [exact Hval | exact Hgt]. }
  destruct Hm' as (A1 & A2 & A3 & A4).
  exists (first_units (k' - f) m'), (other_units (k' - f) m').
  pose proof (first_other_units (k' - f) m') as Hsplit.
  assert (Hla : String.length (first_units (k' - f) m') = (k' - f)%nat)
    by (apply length_first_units; lia).
  assert (Hlb' : String.length (other_units (k' - f) m') = f).
  { pose proof (length_append (first_units (k' - f) m')
                  (other_units (k' - f) m')) as HL.
    rewrite Hsplit, Hla, A2 in HL. lia. }
  assert (Hboth : all_digits (first_units (k' - f) m') = true
                  /\ all_digits (other_units (k' - f) m') = true).
  { rewrite <- Hsplit, all_digits_append in A1.
    apply andb_true_iff in A1. exact A1. }
  destruct Hboth as [B1 B2].
  split; [reflexivity |].
  split; [exact B1 |]. split; [exact B2 |].
  split; [lia |]. split; [exact Hlb' |].
  split; [rewrite Hsplit; exact A3 |].
  intros Hsmall. rewrite Hla. unfold k'.
  destruct (Nat.leb_spec k f) as [Hle | Hgt]; [lia |].
  destruct (Z.eq_dec n 0) as [Hz | Hnz].
  - exfalso. unfold k, m in Hgt. rewrite Hz in Hgt. simpl in Hgt. lia.
  - specialize (Hlb ltac:(lia)).
    assert (Hpow : 10 ^ (Z.of_nat k - 1) < 10 ^ (Z.of_nat f + 1)) by lia.
    apply Z.pow_lt_mono_r_iff in Hpow; lia.
Qed.

(** *** What [parseFloat] reads in a text written by [toFixed] *)

Lemma digit_code :
  forall c, is_digit c = true -> (48 <= code c <= 57)%N.
Proof.
  intros c H. unfold is_digit in H.
  apply andb_true_iff in H as [H1 H2].
  apply N.leb_le in H1. apply N.leb_le in H2. lia.
Qed.

(** No white space is trimmed in front of a digit or of a minus sign. *)
Lemma trim_start_plain :
  forall c r,
    (code c = 45 \/ 48 <= code c <= 57)%N ->
    trim_start (String c r) = String c r.
Proof.
  intros c r Hc. cbn [trim_start].
  assert (H1 : is_space1 c = false).
  { unfold is_space1.
    destruct (N.leb_spec 9 (code c)), (N.leb_spec (code c) 13),
             (N.eqb_spec (code c) 32); simpl; try reflexivity; lia. }
  rewrite H1. destruct r as [| b r2]; [reflexivity |].
  assert (H2 : is_space2 c b = false).
  { unfold is_space2. destruct (N.eqb_spec (code c) 194); [lia | reflexivity]. }
  rewrite H2. destruct r2 as [| d r3]; [reflexivity |].
  assert (H3 : is_space3 c b d = false).
  { unfold is_space3.
    destruct (N.eqb_spec (code c) 225), (N.eqb_spec (code c) 226),
             (N.eqb_spec (code c) 227), (N.eqb_spec (code c) 239);
      try lia; reflexivity. }
  rewrite H3. reflexivity.
Qed.

Lemma read_sign_digit :
  forall c r, is_digit c = true -> read_sign (String c r) = (false, String c r).
Proof.
  intros c r H. apply digit_code in H. unfold read_sign.
  destruct (N.eqb_spec (code c) 45); [lia |].
  destruct (N.eqb_spec (code c) 43); [lia | reflexivity].
Qed.

Lemma prefix_Infinity_digit :
  forall c r, is_digit c = true -> String.prefix "Infinity" (String c r) = false.
Proof.
  intros c r H. cbn [String.prefix].
  destruct (ascii_dec "I" c) as [<- | _]; [discriminate H | reflexivity].
Qed.

(** The text after the sign: digits, and possibly a point and digits. *)
Lemma parse_digits_point_digits :
  forall (minus : bool) (a b : string),
    all_digits a = true -> (0 < String.length a)%nat -> all_digits b = true ->
    parseFloat ((if minus then "-" else EmptyString) ++ a ++ "." ++ b)%string
    = of_decimal minus (digits_value (a ++ b) 0)
        (- Z.of_nat (String.length b)).
Proof.
  intros minus a b Ha Hla Hb.
  destruct a as [| c a']; [simpl in Hla; lia |].
  pose proof Ha as Ha'. cbn [all_digits] in Ha'.
  apply andb_true_iff in Ha' as [Hc _].
  pose proof (digit_code c Hc) as Hcode.
  assert (Hsign : read_sign (trim_start
                    ((if minus then "-" else EmptyString)
                     ++ String c a' ++ "." ++ b)%string)
                  = (minus, (String c a' ++ "." ++ b)%string)).
  { destruct minus; cbn [append].
    - rewrite trim_start_plain by (left; reflexivity). reflexivity.
    - rewrite trim_start_plain by (right; exact Hcode).
      apply read_sign_digit. exact Hc. }
  unfold parseFloat. rewrite Hsign.
  cbn [append]. rewrite (prefix_Infinity_digit c _ Hc).
  change (String c (a' ++ String "." b)) with (String c a' ++ String "." b)%string.
  rewrite read_digits_run by (try exact Ha; reflexivity).
  change (N.eqb (code ".") 46) with true. cbv iota.
  replace b with (b ++ EmptyString)%string at 1 by apply append_empty_r.
  rewrite read_digits_run by (try exact Hb; reflexivity).
  assert (Hcount : ((0 + Z.of_nat (String.length (String c a')) =? 0)
                    && (0 + Z.of_nat (String.length b) =? 0))%bool = false).
  { apply andb_false_iff. left. apply Z.eqb_neq. simpl String.length. lia. }
  rewrite Hcount. cbn [read_exponent].
  rewrite <- digits_value_append. reflexivity.
Qed.

Lemma parse_digits :
  forall (minus : bool) (a : string),
    all_digits a = true -> (0 < String.length a)%nat ->
    parseFloat ((if minus then "-" else EmptyString) ++ a)%string
    = of_decimal minus (digits_value a 0) 0.
Proof.
  intros minus a Ha Hla.
  destruct a as [| c a']; [simpl in Hla; lia |].
  pose proof Ha as Ha'. cbn [all_digits] in Ha'.
  apply andb_true_iff in Ha' as [Hc _].
  pose proof (digit_code c Hc) as Hcode.
  assert (Hsign : read_sign (trim_start
                    ((if minus then "-" else EmptyString) ++ String c a')%string)
                  = (minus, String c a')).
  { destruct minus; cbn [append].
    - rewrite trim_start_plain by (left; reflexivity). reflexivity.
    - rewrite trim_start_plain by (right; exact Hcode).
      apply read_sign_digit. exact Hc. }
  unfold parseFloat. rewrite Hsign.
  rewrite (prefix_Infinity_digit c _ Hc).
  replace (String c a') with (String c a' ++ EmptyString)%string at 1
    by apply append_empty_r.
  rewrite read_digits_run by (try exact Ha; reflexivity).
  assert (Hcount : ((0 + Z.of_nat (String.length (String c a')) =? 0)
                    && (0 =? 0))%bool = false).
  { apply andb_false_iff. left. apply Z.eqb_neq. simpl String.length. lia. }
  cbv iota. rewrite Hcount. reflexivity.
Qed.

(** *** [fmt] *)

Lemma binary_round_aux_not_nan :
  forall s mx ex l,
    0 <= mx -> is_nan (binary_round_aux prec emax s mx ex l) = false.
Proof.
  intros s mx ex l Hmx. unfold binary_round_aux.
  destruct (shr_fexp_nonneg mx ex l Hmx) as (mrs1 & e1 & E1 & He1 & Hm1).
  rewrite E1.
  pose proof (round_nearest_even_bounds (shr_m mrs1) (loc_of_shr_record mrs1))
    as Hr.
  assert (Hm1pos : 0 <= shr_m mrs1)
    by (rewrite Hm1; apply Z.div_pos; [lia | apply Z.pow_pos_nonneg; lia]).
  destruct (shr_fexp_nonneg
              (round_nearest_even (shr_m mrs1) (loc_of_shr_record mrs1))
              e1 loc_Exact ltac:(lia)) as (mrs2 & e2 & E2 & He2 & Hm2).
  rewrite E2.
  assert (Hm2pos : 0 <= shr_m mrs2)
    by (rewrite Hm2; apply Z.div_pos; [lia | apply Z.pow_pos_nonneg; lia]).
  destruct (shr_m mrs2) as [| m2 | m2]; try reflexivity; [| lia].
  destruct (e2 <=? emax - prec); reflexivity.
Qed.

Lemma of_decimal_not_nan :
  forall s m k, is_nan (of_decimal s m k) = false.
Proof.
  intros s [| p | p] k; try reflexivity.
  unfold of_decimal. destruct k as [| q | q].
  - unfold binary_round.
    destruct (shl_align p 0 _) as [mz ez].
    apply binary_round_aux_not_nan. lia.
  - unfold binary_round.
    destruct (shl_align (p * Pos.pow 10 q) 0 _) as [mz ez].
    apply binary_round_aux_not_nan. lia.
  - unfold SFdiv_core_binary.
    set (m' := match _ with Zpos _ => _ | _ => _ end).
    assert (Hm' : 0 <= m').
    { unfold m'. destruct (_ - _) as [| n | n]; try lia.
      rewrite Z.shiftl_mul_pow2 by lia.
      apply Z.mul_nonneg_nonneg; [lia |]. apply Z.pow_nonneg. lia. }
    pose proof (Z_div_mod m' (Zpos (Pos.pow 10 q)) eq_refl) as Hdiv.
    destruct (Z.div_eucl m' (Zpos (Pos.pow 10 q))) as [qu r].
    apply binary_round_aux_not_nan. nia.
Qed.

(** The integer that [toFixed] shows is the nearest to the scaled value,
    the upper one on a tie. *)
Lemma scaled_nearest_spec :
  forall m e f,
    0 <= f ->
    0 <= scaled_nearest m e f
    /\ match e with
       | Zneg q =>
           - 2 ^ Zpos q
           <= 2 * (Zpos m * 10 ^ f - scaled_nearest m e f * 2 ^ Zpos q)
           < 2 ^ Zpos q
       | _ => scaled_nearest m e f = Zpos m * 2 ^ e * 10 ^ f
       end.
Proof.
  intros m e f Hf.
  assert (H10 : 0 < 10 ^ f) by (apply Z.pow_pos_nonneg; lia).
  destruct e as [| p | q]; unfold scaled_nearest.
  - split; [| reflexivity]. nia.
  - split; [| reflexivity].
    assert (0 < 2 ^ Zpos p) by (apply Z.pow_pos_nonneg; lia). nia.
  - assert (HB : 0 < 2 ^ Zpos q) by (apply Z.pow_pos_nonneg; lia).
    pose proof (Z.div_mod (2 * Zpos m * 10 ^ f + 2 ^ Zpos q) (2 * 2 ^ Zpos q)
                  ltac:(lia)) as Hdm.
    pose proof (Z.mod_pos_bound (2 * Zpos m * 10 ^ f + 2 ^ Zpos q)
                  (2 * 2 ^ Zpos q) ltac:(lia)) as Hmod.
    split.
    + apply Z.div_pos; nia.
    + nia.
Qed.

(** The text of [fmt] for a finite number below [10^21]: the sign, and the
    digits of the shown integer with the point before the last [f]. *)
Lemma fmt_finite_text :
  forall host_toString x n f,
    isFinite x = true -> below_1e21 x = true ->
    ToIntegerOrInfinity n = Integer f -> 0 <= f <= 100 ->
    fmt host_toString x n
    = Some ((if is_negative x then "-" else EmptyString)
            ++ fixed_digits (shown_integer x f) (Z.to_nat f))%string.
Proof.
  intros host_toString x n f Hfin Hlow Hn Hf.
  unfold fmt, toFixed. rewrite Hfin, Hn.
  assert (Hrange : (Z.ltb f 0 || Z.ltb 100 f)%bool = false).
  { apply orb_false_iff. split; apply Z.ltb_ge; lia. }
  rewrite Hrange.
  destruct x as [s | s | | s m e]; try discriminate Hfin.
  - reflexivity.
  - simpl in Hlow. apply negb_true_iff in Hlow. rewrite Hlow. reflexivity.
Qed.

(** Reading back the text of [fmt]. *)
Lemma fmt_text_parses :
  forall host_toString x n f,
    isFinite x = true -> below_1e21 x = true ->
    ToIntegerOrInfinity n = Integer f -> 0 <= f <= 100 ->
    exists text,
      fmt host_toString x n = Some text
      /\ parseFloat text
         = of_decimal (is_negative x) (shown_integer x f) (- f).
Proof.
  intros host_toString x n f Hfin Hlow Hn Hf.
  rewrite (fmt_finite_text host_toString x n f Hfin Hlow Hn Hf).
  eexists. split; [reflexivity |].
  assert (HN : 0 <= shown_integer x f).
  { destruct x as [s | s | | s m e]; simpl; try lia.
    apply scaled_nearest_spec. lia. }
  destruct (Z.eq_dec f 0) as [-> | Hf0].
  - change (Z.to_nat 0) with 0%nat. cbn [fixed_digits].
    destruct (decimal_digits_spec _ HN) as (Hall & Hlen & Hval & _).
    rewrite parse_digits by assumption. rewrite Hval. reflexivity.
  - destruct (fixed_digits_spec (shown_integer x f) (Z.to_nat f) HN
                ltac:(lia))
      as (a & b & E & Ha & Hb & Hla & Hlb & Hval & _).
    rewrite E, parse_digits_point_digits by assumption.
    rewrite Hval, Hlb, Z2Nat.id by lia. reflexivity.
Qed.

(** X1. A text that [fmt] writes for a finite number below [10^21], with 0
    to 100 decimals, is read back by [parseFloat] as the double nearest to
    the decimal shown: the integer [N] nearest to [x * 10^f] (the upper one
    on a tie), divided by [10^f], with the sign of [x]. *)
Theorem fmt_reads_back :
  forall host_toString x n f,
    isFinite x = true -> below_1e21 x = true ->
    ToIntegerOrInfinity n = Integer f -> 0 <= f <= 100 ->
    exists text,
      fmt host_toString x n = Some text
      /\ parseFloat text
         = of_decimal (is_negative x) (shown_integer x f) (- f)
      /\ match x with
         | S754_finite _ m (Zneg q) =>
             - 2 ^ Zpos q
             <= 2 * (Zpos m * 10 ^ f - shown_integer x f * 2 ^ Zpos q)
             < 2 ^ Zpos q
         | S754_finite _ m e => shown_integer x f = Zpos m * 2 ^ e * 10 ^ f
         | _ => shown_integer x f = 0
         end.
Proof.
  intros host_toString x n f Hfin Hlow Hn Hf.
  destruct (fmt_text_parses host_toString x n f Hfin Hlow Hn Hf)
    as (text & E & Hparse).
  exists text. split; [exact E |]. split; [exact Hparse |].
  destruct x as [s | s | | s m e]; try reflexivity.
  pose proof (scaled_nearest_spec m e f ltac:(lia)) as [_ H].
  destruct e; exact H.
Qed.

Lemma parse_placeholder : parseFloat "--" = NaN.
Proof. reflexivity. Qed.

(** X2. [fmt] gives the placeholder for every value that is not finite,
    whatever the number of decimals asked for, and for no finite value
    below [10^21]; the placeholder is its only text that [parseFloat] does
    not read as a number. *)
Theorem fmt_placeholder_iff_not_finite :
  forall host_toString x n f,
    ToIntegerOrInfinity n = Integer f -> 0 <= f <= 100 ->
    isFinite x = false \/ below_1e21 x = true ->
    exists text,
      fmt host_toString x n = Some text
      /\ (text = "--"%string <-> isFinite x = false)
      /\ is_nan (parseFloat text) = negb (isFinite x).
Proof.
  intros host_toString x n f Hn Hf Hx.
  destruct (isFinite x) eqn:Hfin.
  - destruct Hx as [Hx | Hlow]; [discriminate Hx |].
    destruct (fmt_text_parses host_toString x n f Hfin Hlow Hn Hf)
      as (text & E & Hparse).
    exists text. split; [exact E |].
    assert (Hnum : is_nan (parseFloat text) = false)
      by (rewrite Hparse; apply of_decimal_not_nan).
    split; [| exact Hnum].
    split; [| discriminate].
    intros ->. rewrite parse_placeholder in Hnum. discriminate Hnum.
  - exists "--"%string. unfold fmt. rewrite Hfin.
    split; [reflexivity |]. split; [| reflexivity].
    split; reflexivity.
Qed.

Lemma fmt_placeholder_iff_not_finite_witness :
  exists text,
    fmt (fun _ => EmptyString) (dec 404 (-3)) three = Some text
    /\ (text = "--"%string <-> isFinite (dec 404 (-3)) = false)
    /\ is_nan (parseFloat text) = negb (isFinite (dec 404 (-3))).
Proof.
  apply (fmt_placeholder_iff_not_finite (fun _ => EmptyString)
           (dec 404 (-3)) three 3).
  - vm_compute. reflexivity.
  - lia.
  - right. vm_compute. reflexivity.
Defined.

Lemma fmt_reads_back_witness :
  exists text,
    fmt (fun _ => EmptyString) (neg (dec 1005 (-3))) (dec 2 0) = Some text
    /\ parseFloat text = of_decimal true 100 (-2).
Proof.
  destruct (fmt_reads_back (fun _ => EmptyString) (neg (dec 1005 (-3)))
              (dec 2 0) 2)
    as (text & E & Hparse & _).
  - vm_compute. reflexivity.
  - vm_compute. reflexivity.
  - vm_compute. reflexivity.
  - lia.
  - exists text. split; [exact E |]. rewrite Hparse. vm_compute. reflexivity.
Defined.

(** X3. With [f > 0] decimals, the text of [fmt] for a finite number below
    [10^21] is an optional minus sign, at least one digit, a point and
    exactly [f] digits. *)
Theorem fmt_fixed_decimals :
  forall host_toString x n f,
    isFinite x = true -> below_1e21 x = true ->
    ToIntegerOrInfinity n = Integer f -> 0 < f <= 100 ->
    exists a b,
      fmt host_toString x n
      = Some ((if is_negative x then "-" else EmptyString)
              ++ a ++ "." ++ b)%string
      /\ all_digits a = true /\ (0 < String.length a)%nat
      /\ all_digits b = true /\ Z.of_nat (String.length b) = f.
Proof.
  intros host_toString x n f Hfin Hlow Hn Hf.
  rewrite (fmt_finite_text host_toString x n f Hfin Hlow Hn ltac:(lia)).
  assert (HN : 0 <= shown_integer x f).
  { destruct x as [s | s | | s m e]; simpl; try lia.
    apply scaled_nearest_spec. lia. }
  destruct (fixed_digits_spec (shown_integer x f) (Z.to_nat f) HN ltac:(lia))
    as (a & b & E & Ha & Hb & Hla & Hlb & _).
  exists a, b. rewrite E.
  split; [reflexivity |]. split; [exact Ha |]. split; [exact Hla |].
  split; [exact Hb |]. rewrite Hlb. lia.
Qed.

Lemma fmt_fixed_decimals_witness :
  exists a b,
    fmt (fun _ => EmptyString) (div one (dec 3 0)) three
    = Some (a ++ "." ++ b)%string
    /\ all_digits a = true /\ (0 < String.length a)%nat
    /\ all_digits b = true /\ Z.of_nat (String.length b) = 3.
Proof.
  apply (fmt_fixed_decimals (fun _ => EmptyString) (div one (dec 3 0))
           three 3).
  - vm_compute. reflexivity.
  - vm_compute. reflexivity.
  - vm_compute. reflexivity.
  - lia.
Defined.

(** *** The float cell of a history row *)

(** A binary64 number between 0 and 1 is a zero or a positive fraction
    [m / 2^q] with [m <= 2^q]. *)
Lemma unit_float_cases :
  forall f,
    is_binary64 f = true -> ge f zero = true -> le f one = true ->
    (exists s, f = S754_zero s)
    \/ (exists m q, f = S754_finite false m (Zneg q) /\ Zpos m <= 2 ^ Zpos q).
Proof.
  intros f Hv H0 H1. rewrite one_constructor in H1.
  destruct f as [s | s | | s m e].
  - left. exists s. reflexivity.
  - destruct s; discriminate.
  - discriminate.
  - destruct s; [discriminate |]. right.
    unfold is_binary64, valid_binary, bounded, canonical_mantissa in Hv.
    apply andb_true_iff in Hv as [Hc _]. apply Z.eqb_eq in Hc.
    rewrite fexp_eq in Hc.
    pose proof (digits2_bounds m) as Hd.
    set (d := Zpos (digits2_pos m)) in *.
    assert (Hm : Zpos m < 2 ^ 53).
    { apply Z.lt_le_trans with (2 ^ d); [lia |].
      apply Z.pow_le_mono_r; lia. }
    unfold le, SFleb, SFcompare in H1. clear H0.
    destruct (Z.compare_spec e (-52)) as [E | E | E];
      [| | discriminate H1].
    + subst e. exists m, 52%positive. split; [reflexivity |].
      destruct (Pos.compare_cont Eq m 4503599627370496) eqn:Ecmp;
        try discriminate H1; clear H1.
      * apply Pos.compare_eq in Ecmp. subst m. reflexivity.
      * apply Pos2Z.pos_lt_pos in Ecmp.
        change (2 ^ Zpos 52) with (Zpos 4503599627370496).
        clear - Ecmp. lia.
    + clear H1. destruct e as [| p | q]; try lia.
      exists m, q. split; [reflexivity |].
      assert (Hpow : 2 ^ 53 <= 2 ^ Zpos q) by (apply Z.pow_le_mono_r; lia).
      lia.
Qed.

(** X4. In the row of a record that [handleAddHistory] has built, the float
    cell [fmt(parseFloat(item.floatValue), 4)] is one digit, a point and
    four digits: the float text has passed the validation, so it reads as a
    number between 0 and 1. *)
Theorem float_cell_shape :
  forall host_pow host_toString form res id,
    calculate host_pow form = Result res ->
    exists a b,
      Display.float_cell host_toString (newItem res id form)
      = Some (a ++ "." ++ b)%string
      /\ all_digits a = true /\ String.length a = 1%nat
      /\ all_digits b = true /\ String.length b = 4%nat.
Proof.
  intros host_pow host_toString form res id E.
  rewrite calculate_eq in E.
  destruct (ge (floatValue form) zero) eqn:H0; [| discriminate E].
  destruct (le (floatValue form) one) eqn:H1; [| discriminate E].
  clear E.
  unfold Display.float_cell. cbn [newItem HistoryItem.floatValue].
  fold (floatValue form).
  pose proof (parseFloat_binary64 (FormState.float form)) as Hv.
  fold (floatValue form) in Hv.
  assert (Hshape : isFinite (floatValue form) = true
                   /\ below_1e21 (floatValue form) = true
                   /\ is_negative (floatValue form) = false
                   /\ 0 <= shown_integer (floatValue form) 4 < 10 ^ 5).
  { destruct (unit_float_cases _ Hv H0 H1) as [[s ->] | (m & q & -> & Hm)].
    - repeat split; simpl; lia.
    - assert (HB : 0 < 2 ^ Zpos q) by (apply Z.pow_pos_nonneg; lia).
      split; [reflexivity |]. split; [| split; [reflexivity |]].
      + cbn [below_1e21 at_least_1e21]. apply negb_true_iff, Z.leb_gt.
        assert (1 * 2 ^ Zpos q < 10 ^ 21 * 2 ^ Zpos q)
          by (apply Z.mul_lt_mono_pos_r; [exact HB | reflexivity]).
        lia.
      + cbn [shown_integer scaled_nearest].
        change (10 ^ 4) with 10000. change (10 ^ 5) with 100000.
        split; [apply Z.div_pos; nia |].
        apply Z.div_lt_upper_bound; nia. }
  destruct Hshape as (Hfin & Hlow & Hneg & HN).
  rewrite (fmt_finite_text host_toString _ four 4 Hfin Hlow eq_refl ltac:(lia)).
  rewrite Hneg.
  destruct (fixed_digits_spec (shown_integer (floatValue form) 4) 4
              ltac:(lia) ltac:(lia))
    as (a & b & Efix & Ha & Hb & Hla & Hlb & _ & Hone).
  change (Z.to_nat 4) with 4%nat. rewrite Efix.
  exists a, b. split; [reflexivity |].
  split; [exact Ha |]. split; [apply Hone; exact (proj2 HN) |].
  split; [exact Hb | exact Hlb].
Qed.

Lemma float_cell_shape_witness :
  exists a b,
    Display.float_cell (fun _ => EmptyString)
      (newItem (score RefHost.pow initialFormState) "id-1" initialFormState)
    = Some (a ++ "." ++ b)%string
    /\ all_digits a = true /\ String.length a = 1%nat
    /\ all_digits b = true /\ String.length b = 4%nat.
Proof.
  apply (float_cell_shape RefHost.pow (fun _ => EmptyString) initialFormState
           (score RefHost.pow initialFormState) "id-1").
  vm_compute. reflexivity.
Defined.

(** *** The form *)

Import Behaviour.

(** X5. The form update [{ ...prev, [name]: value }] of
    [handleInputChange]: the field that is set reads the new text and every
    other field keeps its text; a second update of the same field
    overrides the first and updates of different fields commute. *)
Theorem set_field_laws :
  forall fs k k' v v',
    get_field (set_field fs k v) k = v
    /\ (Field_eqb k k' = false ->
        get_field (set_field fs k v) k' = get_field fs k')
    /\ set_field (set_field fs k v) k v' = set_field fs k v'
    /\ (Field_eqb k k' = false ->
        set_field (set_field fs k v) k' v'
        = set_field (set_field fs k' v') k v)
    /\ set_field fs k (get_field fs k) = fs.
Proof.
  intros [pm pa fee float wp wf alpha cap r liq name] k k' v v'.
  split; [destruct k; reflexivity |].
  split; [destruct k, k'; intros H; try discriminate H; reflexivity |].
  split; [destruct k; reflexivity |].
  split; [destruct k, k'; intros H; try discriminate H; reflexivity |].
  destruct k; reflexivity.
Qed.

Lemma set_field_laws_witness :
  get_field (set_field initialFormState F_pm "650") F_float = "0.12"%string
  /\ set_field (set_field initialFormState F_pm "650") F_float "0.3"
     = set_field (set_field initialFormState F_float "0.3") F_pm "650".
Proof.
  destruct (set_field_laws initialFormState F_pm F_float "650" "0.3")
    as (_ & H2 & _ & H4 & _).
  split; [exact (H2 eq_refl) | exact (H4 eq_refl)].
Defined.

(** [calculate] reads the form only through its ten inputs. *)
Lemma calculate_inputs_ext :
  forall host_pow fs1 fs2,
    averageCost fs1 = averageCost fs2 ->
    currentPrice fs1 = currentPrice fs2 ->
    fee fs1 = fee fs2 ->
    floatValue fs1 = floatValue fs2 ->
    priceWeight fs1 = priceWeight fs2 ->
    floatWeight fs1 = floatWeight fs2 ->
    alpha fs1 = alpha fs2 ->
    cap fs1 = cap fs2 ->
    rarity fs1 = rarity fs2 ->
    liquidity fs1 = liquidity fs2 ->
    calculate host_pow fs1 = calculate host_pow fs2.
Proof.
  intros host_pow fs1 fs2 H1 H2 H3 H4 H5 H6 H7 H8 H9 H10.
  rewrite !calculate_eq. unfold score.
  rewrite H1, H2, H3, H4, H5, H6, H7, H8, H9, H10. reflexivity.
Qed.

(** X6. For the average cost, the current price, the fee and the two
    weights, a text that does not parse, or parses to 0 or -0, makes the
    form behave exactly as if the field read 0; and the name field has no
    effect on the computation. *)
Theorem zero_default_fields_and_name :
  forall host_pow fs k text,
    (defaults_to_zero k = true ->
     is_nan (parseFloat text) = true \/ eq (parseFloat text) zero = true ->
     calculate host_pow (set_field fs k text)
     = calculate host_pow (set_field fs k "0"))
    /\ calculate host_pow (set_field fs F_name text) = calculate host_pow fs.
Proof.
  intros host_pow [pm pa fee float wp wf alpha cap r liq name] k text.
  split.
  - intros Hk Htext.
    assert (E : or_else (parseFloat text) zero = or_else (parseFloat "0") zero).
    { destruct Htext as [H | H];
        destruct (parseFloat text) as [[]|[]| |[] m e]; try discriminate H;
        reflexivity. }
    destruct k; try discriminate Hk;
      apply calculate_inputs_ext; try reflexivity; exact E.
  - apply calculate_inputs_ext; reflexivity.
Qed.

Lemma zero_default_fields_and_name_witness :
  calculate RefHost.pow (set_field initialFormState F_fee "abc")
  = calculate RefHost.pow (set_field initialFormState F_fee "0").
Proof.
  apply (proj1 (zero_default_fields_and_name RefHost.pow initialFormState
                  F_fee "abc")).
  - reflexivity.
  - left. vm_compute. reflexivity.
Defined.

(** *** Reachable states *)

(** A record that was committed has passed the validation. *)
Lemma committed_item_facts :
  forall host_pow item,
    committed_item host_pow item ->
    gt (HistoryItem.Pm item) zero = true
    /\ ge (parseFloat (HistoryItem.floatValue item)) zero = true
    /\ le (parseFloat (HistoryItem.floatValue item)) one = true
    /\ HistoryItem.name item <> EmptyString.
Proof.
  intros host_pow item (form & id & E & ->).
  rewrite calculate_eq in E.
  destruct (ge (floatValue form) zero) eqn:H0; [| discriminate E].
  destruct (le (floatValue form) one) eqn:H1; [| discriminate E].
  cbn [andb negb] in E.
  destruct (le (averageCost form) zero) eqn:Hpm; [discriminate E |].
  cbn [newItem HistoryItem.Pm HistoryItem.floatValue HistoryItem.name score
       CalculateResult.Pm].
  split; [| split; [exact H0 | split; [exact H1 |]]].
  - rewrite gt_negb_le, Hpm; try reflexivity.
    apply or_else_not_nan. reflexivity.
  - unfold name_or_dash.
    destruct (FormState.name form); discriminate.
Qed.

Lemma handle_keeps_committed :
  forall host_pow ev st,
    Forall (committed_item host_pow) (history st) ->
    Forall (committed_item host_pow) (history (handle host_pow ev st)).
Proof.
  intros host_pow ev st H.
  destruct ev as [k value | | id |]; simpl.
  - exact H.
  - unfold handleCalculate.
    destruct (calculate host_pow (formState st)); exact H.
  - unfold handleAddHistory.
    destruct (calculate host_pow (formState st)) as [v | res] eqn:E;
      [exact H |].
    simpl. constructor; [| exact H].
    exists (formState st), id.
    rewrite <- (calculate_result_score _ _ _ E). split; [exact E | reflexivity].
  - constructor.
Qed.

Lemma run_keeps_committed :
  forall host_pow evs st,
    Forall (committed_item host_pow) (history st) ->
    Forall (committed_item host_pow) (history (run host_pow evs st)).
Proof.
  intros host_pow evs. induction evs as [| ev evs IH]; intros st H.
  - exact H.
  - unfold run in *. simpl fold_left. apply IH.
    apply handle_keeps_committed. exact H.
Qed.

(** X7. Whatever the events since the start, every row of the history
    comes from a form that passed the validation: its average cost is
    positive, its float text reads as a number between 0 and 1, and its
    name is not empty. *)
Theorem history_rows_validated :
  forall host_pow evs item,
    In item (history (run host_pow evs initialState)) ->
    committed_item host_pow item
    /\ gt (HistoryItem.Pm item) zero = true
    /\ ge (parseFloat (HistoryItem.floatValue item)) zero = true
    /\ le (parseFloat (HistoryItem.floatValue item)) one = true
    /\ HistoryItem.name item <> EmptyString.
Proof.
  intros host_pow evs item Hin.
  assert (H : Forall (committed_item host_pow)
                (history (run host_pow evs initialState)))
    by (apply run_keeps_committed; constructor).
  rewrite Forall_forall in H. specialize (H item Hin).
  split; [exact H | apply (committed_item_facts host_pow); exact H].
Qed.

Lemma history_rows_validated_witness :
  let evs := [InputChange F_float "0.5"; AddHistory "id-1";
              InputChange F_float "7"; AddHistory "id-2"]%string in
  let item := newItem (score RefHost.pow float_half) "id-1" float_half in
  history (run RefHost.pow evs initialState) = [item]
  /\ gt (HistoryItem.Pm item) zero = true
  /\ HistoryItem.name item <> EmptyString.
Proof.
  intros evs item.
  assert (E : history (run RefHost.pow evs initialState) = [item])
    by (vm_compute; reflexivity).
  split; [exact E |].
  destruct (history_rows_validated RefHost.pow evs item) as (_ & H1 & _ & _ & H4).
  - rewrite E. left. reflexivity.
  - split; [exact H1 | exact H4].
Defined.

(** What a handler shows does not depend on the alerts shown before. *)
Lemma handle_same_view :
  forall host_pow ev s1 s2,
    same_view s1 s2 ->
    same_view (handle host_pow ev s1) (handle host_pow ev s2).
Proof.
  intros host_pow ev [f1 r1 h1 a1] [f2 r2 h2 a2] (Hf & Hr & Hh).
  simpl in Hf, Hr, Hh. subst f2 r2 h2.
  destruct ev as [k value | | id |]; simpl.
  - repeat split.
  - unfold handleCalculate. simpl.
    destruct (calculate host_pow f1); repeat split.
  - unfold handleAddHistory. simpl.
    destruct (calculate host_pow f1); repeat split.
  - repeat split.
Qed.

Lemma run_same_view :
  forall host_pow evs s1 s2,
    same_view s1 s2 ->
    same_view (run host_pow evs s1) (run host_pow evs s2).
Proof.
  intros host_pow evs. induction evs as [| ev evs IH]; intros s1 s2 H.
  - exact H.
  - unfold run in *. simpl fold_left. apply IH.
    apply handle_same_view. exact H.
Qed.

Lemma run_app :
  forall host_pow evs1 evs2 st,
    run host_pow (evs1 ++ evs2) st = run host_pow evs2 (run host_pow evs1 st).
Proof. intros. unfold run. apply fold_left_app. Qed.

(** The default form passes the validation on every host. *)
Lemma initial_form_valid :
  forall host_pow,
    calculate host_pow initialFormState
    = Result (score host_pow initialFormState).
Proof.
  intros host_pow. rewrite calculate_eq.
  replace (floatValue initialFormState) with (dec 12 (-2)) by by_computation.
  replace (averageCost initialFormState) with (dec 500 0) by by_computation.
  replace (add (priceWeight initialFormState) (floatWeight initialFormState))
    with one by by_computation.
  reflexivity.
Qed.

(** X8. The Limpar button gives a fresh start: whatever happened before it,
    the events after it show what they would show from the initial state;
    and Calcular right after it shows the score of the default form, with
    no alert. *)
Theorem reset_is_fresh_start :
  forall host_pow evs1 evs2 st,
    same_view (run host_pow (evs1 ++ Reset :: evs2) st)
      (run host_pow evs2 initialState)
    /\ result (handleCalculate host_pow (handleReset st))
       = Some (score host_pow initialFormState)
    /\ alerts (handleCalculate host_pow (handleReset st)) = alerts st.
Proof.
  intros host_pow evs1 evs2 st. split.
  - rewrite run_app.
    change (run host_pow (Reset :: evs2) (run host_pow evs1 st))
      with (run host_pow evs2 (handleReset (run host_pow evs1 st))).
    apply run_same_view. repeat split.
  - unfold handleCalculate. cbn [handleReset formState].
    rewrite initial_form_valid. split; reflexivity.
Qed.

(** X9. Calcular is idempotent in what it shows, and after a commit it
    changes nothing: the commit has already displayed the result.  A
    second commit, in contrast, adds a second row. *)
Theorem calculate_button_idempotent :
  forall host_pow id st,
    same_view (handleCalculate host_pow (handleCalculate host_pow st))
      (handleCalculate host_pow st)
    /\ same_view (handleCalculate host_pow (handleAddHistory host_pow id st))
         (handleAddHistory host_pow id st)
    /\ List.length
         (history (handleAddHistory host_pow id
                     (handleAddHistory host_pow id st)))
       = (if is_alert (calculate host_pow (formState st))
          then List.length (history st)
          else 2 + List.length (history st))%nat.
Proof.
  intros host_pow id st.
  unfold handleCalculate, handleAddHistory.
  destruct (calculate host_pow (formState st)) as [v | res] eqn:E;
    cbn [formState result history is_alert]; rewrite E;
    cbn [formState result history]; repeat split.
Qed.

(** *** Labels and clamping *)

Lemma lt_le_trans :
  forall x y z, lt x y = true -> le y z = true -> lt x z = true.
Proof.
  unfold le, lt, SFleb, SFltb.
  intros [sx|sx| |sx mx ex] [sy|sy| |sy my ey] [sz|sz| |sz mz ez];
    simpl; intros H1 H2; try discriminate; split_signs; order_cases.
Qed.

Lemma le_not_nan :
  forall x y, le x y = true -> is_nan x = false /\ is_nan y = false.
Proof.
  intros x y. unfold le, SFleb.
  destruct x, y; simpl; intro H; try discriminate H; split; reflexivity.
Qed.

(** X10. [interpret] is monotone: of two scores, the higher one never gets
    the worse label. *)
Theorem interpret_monotone :
  forall s1 s2,
    le s1 s2 = true ->
    rank (interpret_label s1) <= rank (interpret_label s2).
Proof.
  intros s1 s2 H.
  assert (Hgt : forall c, gt s1 c = true -> gt s2 c = true).
  { intros c Hc. unfold gt in *. fold (lt c s1) in Hc. fold (lt c s2).
    exact (lt_le_trans _ _ _ Hc H). }
  assert (Hge : forall c, ge s1 c = true -> ge s2 c = true).
  { intros c Hc. unfold ge in *. fold (le c s1) in Hc. fold (le c s2).
    exact (le_trans _ _ _ Hc H). }
  unfold interpret_label.
  destruct (gt s1 lit_0_40) eqn:A1.
  - rewrite (Hgt _ A1). simpl. lia.
  - destruct (gt s1 lit_0_15) eqn:B1.
    + rewrite (Hgt _ B1). destruct (gt s2 lit_0_40); simpl; lia.
    + destruct (ge s1 (neg lit_0_15)) eqn:C1.
      * rewrite (Hge _ C1).
        destruct (gt s2 lit_0_40), (gt s2 lit_0_15); simpl; lia.
      * destruct (gt s2 lit_0_40), (gt s2 lit_0_15),
                 (ge s2 (neg lit_0_15)); simpl; lia.
Qed.

Lemma interpret_monotone_witness :
  rank (interpret_label (dec 2 (-1))) <= rank (interpret_label (dec 404 (-3))).
Proof.
  apply (interpret_monotone (dec 2 (-1)) (dec 404 (-3))).
  vm_compute. reflexivity.
Defined.

(** [Math.min] and [Math.max] of two numbers, by comparison. *)
Lemma Math_min_cases :
  forall b x,
    is_nan b = false -> is_nan x = false ->
    Math_min b x
    = if (is_neg_zero x && is_pos_zero b)%bool then neg_zero
      else if lt x b then x else b.
Proof.
  intros b x Hb Hx.
  destruct b as [[]|[]| |[] mb eb]; try discriminate Hb;
    destruct x as [[]|[]| |[] mx ex]; try discriminate Hx;
    try reflexivity;
    unfold Math_min, min_loop, lt, SFltb; simpl;
    match goal with
    | |- context [Z.compare ?a ?b] =>
        destruct (Z.compare a b); try reflexivity;
        destruct (Pos.compare_cont Eq mx mb); reflexivity
    end.
Qed.

Lemma Math_max_cases :
  forall a y,
    is_nan a = false -> is_nan y = false ->
    Math_max a y
    = if (is_pos_zero y && is_neg_zero a)%bool then pos_zero
      else if gt y a then y else a.
Proof.
  intros a y Ha Hy.
  destruct a as [[]|[]| |[] ma ea]; try discriminate Ha;
    destruct y as [[]|[]| |[] my ey]; try discriminate Hy;
    try reflexivity;
    unfold Math_max, max_loop, gt, SFltb; simpl;
    match goal with
    | |- context [Z.compare ?a ?b] =>
        destruct (Z.compare a b); try reflexivity;
        destruct (Pos.compare_cont Eq ma my); reflexivity
    end.
Qed.

Lemma le_antisym :
  forall x y, le x y = true -> le y x = true -> eq x y = true.
Proof.
  intros x y. unfold le, eq, SFleb, SFeqb.
  rewrite (SFcompare_swap x y).
  destruct (SFcompare x y) as [[]|]; simpl; intros H1 H2;
    try discriminate; reflexivity.
Qed.

Lemma le_total :
  forall x y,
    is_nan x = false -> is_nan y = false -> lt x y = false -> le y x = true.
Proof.
  intros x y Hx Hy H.
  change (lt x y) with (gt y x) in H.
  rewrite (gt_negb_le y x Hy Hx) in H.
  apply negb_false_iff in H. exact H.
Qed.

(** [Math.min(b, x)] is one of its arguments, below both. *)
Lemma Math_min_spec :
  forall b x,
    is_nan b = false -> is_nan x = false ->
    (Math_min b x = x \/ Math_min b x = b)
    /\ le (Math_min b x) x = true /\ le (Math_min b x) b = true.
Proof.
  intros b x Hb Hx. rewrite (Math_min_cases b x Hb Hx).
  destruct (is_neg_zero x && is_pos_zero b)%bool eqn:Hz.
  - apply andb_true_iff in Hz as [Hz1 Hz2].
    destruct x as [[]| | |]; try discriminate Hz1.
    destruct b as [[]| | |]; try discriminate Hz2.
    split; [left; reflexivity | split; reflexivity].
  - destruct (lt x b) eqn:Hlt.
    + split; [left; reflexivity |].
      split; [apply le_refl; exact Hx | apply lt_le; exact Hlt].
    + split; [right; reflexivity |].
      split; [apply le_total; assumption | apply le_refl; exact Hb].
Qed.

(** [Math.max(a, y)] is one of its arguments, above both. *)
Lemma Math_max_spec :
  forall a y,
    is_nan a = false -> is_nan y = false ->
    (Math_max a y = y \/ Math_max a y = a)
    /\ le y (Math_max a y) = true /\ le a (Math_max a y) = true.
Proof.
  intros a y Ha Hy. rewrite (Math_max_cases a y Ha Hy).
  destruct (is_pos_zero y && is_neg_zero a)%bool eqn:Hz.
  - apply andb_true_iff in Hz as [Hz1 Hz2].
    destruct y as [[]| | |]; try discriminate Hz1.
    destruct a as [[]| | |]; try discriminate Hz2.
    split; [left; reflexivity | split; reflexivity].
  - destruct (gt y a) eqn:Hgt.
    + split; [left; reflexivity |].
      split; [apply le_refl; exact Hy | apply lt_le; exact Hgt].
    + split; [right; reflexivity |].
      split; [apply le_total; assumption | apply le_refl; exact Ha].
Qed.

(** [clamp] between two ordered bounds. *)
Lemma clamp_saturates_aux :
  forall x a b,
    is_nan x = false -> le a b = true ->
    le a (clamp x a b) = true
    /\ le (clamp x a b) b = true
    /\ (le a x = true -> le x b = true -> eq (clamp x a b) x = true)
    /\ (lt x a = true -> eq (clamp x a b) a = true)
    /\ (lt b x = true -> eq (clamp x a b) b = true).
Proof.
  intros x a b Hx Hab.
  destruct (le_not_nan a b Hab) as [Ha Hb].
  unfold clamp.
  destruct (Math_min_spec b x Hb Hx) as (Hy & Hyx & Hyb).
  set (y := Math_min b x) in *.
  assert (Hyn : is_nan y = false) by (destruct Hy as [-> | ->]; assumption).
  destruct (Math_max_spec a y Ha Hyn) as (Hz & Hyz & Haz).
  set (z := Math_max a y) in *.
  assert (Hzb : le z b = true) by (destruct Hz as [-> | ->]; assumption).
  split; [exact Haz |]. split; [exact Hzb |].
  split; [| split].
  - intros Hax Hxb. apply le_antisym.
    + destruct Hz as [-> | ->]; assumption.
    + apply le_trans with y; [| exact Hyz].
      destruct Hy as [-> | ->]; [apply le_refl; exact Hx | exact Hxb].
  - intros Hxa. apply le_antisym; [| exact Haz].
    destruct Hz as [-> | ->]; [| apply le_refl; exact Ha].
    apply le_trans with x; [exact Hyx | apply lt_le; exact Hxa].
  - intros Hbx. apply le_antisym; [exact Hzb |].
    apply le_trans with y; [| exact Hyz].
    destruct Hy as [-> | ->]; [apply lt_le; exact Hbx | apply le_refl; exact Hb].
Qed.

(** X11. [clamp(x, a, b)] with [a <= b] saturates: the result lies between
    [a] and [b]; it equals [x] when [x] lies between them, [a] when [x] is
    below [a] and [b] when [x] is above [b]. *)
Theorem clamp_saturates :
  forall x a b,
    is_nan x = false -> le a b = true ->
    le a (clamp x a b) = true
    /\ le (clamp x a b) b = true
    /\ (le a x = true -> le x b = true -> eq (clamp x a b) x = true)
    /\ (lt x a = true -> eq (clamp x a b) a = true)
    /\ (lt b x = true -> eq (clamp x a b) b = true).
Proof. exact clamp_saturates_aux. Qed.

Lemma clamp_saturates_witness :
  le (neg (dec 2 (-1))) (clamp (neg (dec 3 (-1))) (neg (dec 2 (-1))) (dec 2 (-1)))
  = true
  /\ eq (clamp (neg (dec 3 (-1))) (neg (dec 2 (-1))) (dec 2 (-1)))
        (neg (dec 2 (-1))) = true.
Proof.
  destruct (clamp_saturates (neg (dec 3 (-1))) (neg (dec 2 (-1))) (dec 2 (-1)))
    as (H1 & _ & _ & H4 & _).
  - vm_compute. reflexivity.
  - vm_compute. reflexivity.
  - split; [exact H1 | apply H4; vm_compute; reflexivity].
Defined.

(** X12. Whatever the liquidity text, the liquidity factor lies between 0
    and 1: it is the liquidity itself between 0 and 1, 0 for a negative
    liquidity, and 1 for a liquidity above 1 or one that is not finite. *)
Theorem liquidity_factor_range :
  forall L,
    le zero (liquidityFactor L) = true
    /\ le (liquidityFactor L) one = true
    /\ (isFinite L = true -> le zero L = true -> le L one = true ->
        eq (liquidityFactor L) L = true)
    /\ (isFinite L = true -> lt L zero = true ->
        eq (liquidityFactor L) zero = true)
    /\ (lt one L = true \/ isFinite L = false -> eq (liquidityFactor L) one = true).
Proof.
  intros L. unfold liquidityFactor.
  destruct (isFinite L) eqn:Hfin.
  - assert (Hn : is_nan L = false) by (destruct L; try discriminate; reflexivity).
    destruct (clamp_saturates_aux L zero one Hn eq_refl)
      as (H1 & H2 & H3 & H4 & H5).
    split; [exact H1 |]. split; [exact H2 |].
    split; [intros _; exact H3 |]. split; [intros _; exact H4 |].
    intros [H | H]; [exact (H5 H) | discriminate H].
  - split; [reflexivity |]. split; [reflexivity |].
    split; [discriminate |]. split; [discriminate |].
    intros _. reflexivity.
Qed.

Lemma liquidity_factor_range_witness :
  eq (liquidityFactor (parseFloat "0.25")) (parseFloat "0.25") = true
  /\ eq (liquidityFactor (parseFloat "-3")) zero = true
  /\ eq (liquidityFactor (parseFloat "7")) one = true.
Proof.
  split; [| split].
  - apply (proj1 (proj2 (proj2 (liquidity_factor_range (parseFloat "0.25")))));
      vm_compute; reflexivity.
  - apply (proj1 (proj2 (proj2 (proj2 (liquidity_factor_range
                                          (parseFloat "-3"))))));
      vm_compute; reflexivity.
  - apply (proj2 (proj2 (proj2 (proj2 (liquidity_factor_range
                                          (parseFloat "7")))))).
    left. vm_compute. reflexivity.
Defined.

(** *** The final score *)

(** A quotient is a binary64 number, whatever the operands. *)
Lemma div_binary64 : forall x y, is_binary64 (div x y) = true.
Proof.
  intros x y. unfold is_binary64, div, SFdiv.
  destruct x as [sx | sx | | sx mx ex], y as [sy | sy | | sy my ey];
    try reflexivity.
  unfold SFdiv_core_binary.
  set (d1 := Zdigits2 (Zpos mx)). set (d2 := Zdigits2 (Zpos my)).
  set (e' := Z.min (fexp prec emax (d1 + ex - (d2 + ey))) (ex - ey)).
  set (sh := ex - ey - e').
  assert (Hsh : 0 <= sh) by (unfold sh, e'; lia).
  assert (Hm' : match sh with
                | 0 => Zpos mx
                | Zpos _ => Z.shiftl (Zpos mx) sh
                | Zneg _ => 0
                end = Zpos mx * 2 ^ sh).
  { revert Hsh. generalize sh. intros [| n | n] Hx; try lia.
    apply Z.shiftl_mul_pow2. lia. }
  rewrite Hm'.
  pose proof (Z_div_mod (Zpos mx * 2 ^ sh) (Zpos my) eq_refl) as Hdiv.
  destruct (Z.div_eucl (Zpos mx * 2 ^ sh) (Zpos my)) as [qu r].
  destruct Hdiv as [Hdiv Hr].
  assert (Hpow : 0 < 2 ^ sh) by (apply Z.pow_pos_nonneg; lia).
  assert (Hqu : 0 <= qu) by nia.
  apply binary_round_aux_valid; [exact Hqu |].
  rewrite fexp_eq.
  destruct (Z_le_gt_dec e' (-1074)) as [Hlow | Hhigh]; [lia |].
  assert (He'd : e' <= d1 + ex - (d2 + ey) - 53).
  { unfold e' in *. rewrite fexp_eq in *. lia. }
  destruct (Zdigits2_bounds (Zpos mx)) as [A1 A2]; [lia |].
  destruct (Zdigits2_bounds (Zpos my)) as [B1 B2]; [lia |].
  fold d1 in A1, A2. fold d2 in B1, B2.
  assert (Hd1 : 0 < d1) by (unfold d1; simpl; lia).
  assert (Hd2 : 0 < d2) by (unfold d2; simpl; lia).
  assert (Hbig : 2 ^ 52 * 2 ^ d2 <= Zpos mx * 2 ^ sh).
  { apply Z.le_trans with (2 ^ (d1 - 1) * 2 ^ sh).
    - rewrite <- !Z.pow_add_r by lia. apply Z.pow_le_mono_r; lia.
    - apply Z.mul_le_mono_nonneg_r; lia. }
  assert (Hqu52 : 2 ^ 52 <= qu).
  { assert (H52 : 0 < 2 ^ 52) by reflexivity.
    destruct (Z_le_gt_dec (2 ^ 52) qu) as [Hok | Hbad]; [exact Hok |].
    assert (qu + 1 <= 2 ^ 52) by lia.
    assert (Zpos my * (qu + 1) <= Zpos my * 2 ^ 52)
      by (apply Z.mul_le_mono_nonneg_l; lia).
    assert (Zpos my * 2 ^ 52 < 2 ^ d2 * 2 ^ 52)
      by (apply Z.mul_lt_mono_pos_r; lia).
    lia. }
  assert (Hdq : 53 <= Zdigits2 qu).
  { change 53 with (Zdigits2 (2 ^ 52)). apply Zdigits2_mono; lia. }
  lia.
Qed.

(** Shifting out zero bits loses nothing. *)
Lemma shr_1_exact :
  forall m,
    0 <= m ->
    shr_1 (Build_shr_record (2 * m) false false) = Build_shr_record m false false.
Proof. intros [| p | p] H; reflexivity. Qed.

Lemma iter_shr_1_exact :
  forall n m,
    0 <= m ->
    iter_pos shr_1 n (Build_shr_record (m * 2 ^ Zpos n) false false)
    = Build_shr_record m false false.
Proof.
  induction n as [n IH | n IH |]; intros m Hm.
  - assert (Hp : 0 < 2 ^ Zpos n) by (apply Z.pow_pos_nonneg; lia).
    replace (m * 2 ^ Zpos n~1) with (2 * ((m * 2 ^ Zpos n) * 2 ^ Zpos n)).
    + change (iter_pos shr_1 n
                (iter_pos shr_1 n
                   (shr_1 (Build_shr_record
                             (2 * ((m * 2 ^ Zpos n) * 2 ^ Zpos n)) false false)))
              = Build_shr_record m false false).
      rewrite shr_1_exact by nia. rewrite IH by nia. apply IH. exact Hm.
    + replace (Zpos n~1) with (Zpos n + Zpos n + 1) by lia.
      rewrite !Z.pow_add_r, Z.pow_1_r by lia. lia.
  - assert (Hp : 0 < 2 ^ Zpos n) by (apply Z.pow_pos_nonneg; lia).
    replace (m * 2 ^ Zpos n~0) with ((m * 2 ^ Zpos n) * 2 ^ Zpos n).
    + change (iter_pos shr_1 n
                (iter_pos shr_1 n
                   (Build_shr_record ((m * 2 ^ Zpos n) * 2 ^ Zpos n) false false))
              = Build_shr_record m false false).
      rewrite IH by nia. apply IH. exact Hm.
    + replace (Zpos n~0) with (Zpos n + Zpos n) by lia.
      rewrite Z.pow_add_r by lia. lia.
  - change (shr_1 (Build_shr_record (m * 2 ^ 1) false false)
            = Build_shr_record m false false).
    rewrite Z.pow_1_r, Z.mul_comm. apply shr_1_exact. exact Hm.
Qed.

(** Multiplying a binary64 number by one gives it back. *)
Lemma mul_one_r : forall x, is_binary64 x = true -> mul x one = x.
Proof.
  intros x Hv. rewrite one_constructor.
  destruct x as [s | s | | s m e]; try (destruct s; reflexivity);
    try reflexivity.
  unfold is_binary64, valid_binary, bounded, canonical_mantissa in Hv.
  apply andb_true_iff in Hv as [Hc Hb]. apply Z.eqb_eq in Hc.
  unfold mul, SFmul, binary_round_aux.
  rewrite xorb_false_r.
  assert (Hmant : Zpos (m * 4503599627370496) = Zpos m * 2 ^ 52) by reflexivity.
  assert (Hdig : Zdigits2 (Zpos m * 2 ^ 52) = Zpos (digits2_pos m) + 52).
  { apply Zdigits2_unique; [| lia].
    pose proof (digits2_bounds m) as [A1 A2].
    replace (Zpos (digits2_pos m) + 52 - 1)
      with (Zpos (digits2_pos m) - 1 + 52) by lia.
    rewrite !Z.pow_add_r by lia.
    assert (0 < 2 ^ 52) by reflexivity.
    split; [apply Z.mul_le_mono_nonneg_r; lia
           | apply Z.mul_lt_mono_pos_r; lia]. }
  assert (E1 : shr_fexp prec emax (Zpos (m * 4503599627370496)) (e + -52)
                 loc_Exact
               = (Build_shr_record (Zpos m) false false, e)).
  { unfold shr_fexp. rewrite Hmant, Hdig.
    replace (Zpos (digits2_pos m) + 52 + (e + -52))
      with (Zpos (digits2_pos m) + e) by lia.
    rewrite Hc. replace (e - (e + -52)) with 52 by lia.
    unfold shr, shr_record_of_loc.
    rewrite (iter_shr_1_exact 52 (Zpos m)) by lia.
    f_equal. lia. }
  rewrite E1. cbn [shr_m loc_of_shr_record round_nearest_even].
  assert (E2 : shr_fexp prec emax (Zpos m) e loc_Exact
               = (Build_shr_record (Zpos m) false false, e)).
  { unfold shr_fexp. cbn [Zdigits2]. rewrite Hc, Z.sub_diag. reflexivity. }
  rewrite E2. cbn [shr_m]. rewrite Hb. reflexivity.
Qed.

(** A finite number times +0 is a zero. *)
Lemma mul_zero_r :
  forall x, isFinite x = true -> eq (mul x pos_zero) zero = true.
Proof.
  intros [s | s | | s m e] H; try discriminate H; destruct s; reflexivity.
Qed.

(** The liquidity factor of a finite liquidity that is not positive is
    +0. *)
Lemma liquidity_factor_nonpositive :
  forall L,
    isFinite L = true -> le L zero = true -> liquidityFactor L = pos_zero.
Proof.
  intros L Hfin Hle. unfold liquidityFactor. rewrite Hfin.
  destruct L as [[] | [] | | [] m e]; try discriminate Hfin;
    try discriminate Hle; reflexivity.
Qed.

(** X13. With a rarity of 1 and a liquidity factor of 1 (a liquidity of 1
    or more, or a liquidity text that is not a number) the final score is
    the raw score, exactly; with a finite liquidity that is not positive
    the final score is zero whenever raw score times rarity is finite. *)
Theorem final_score_of_liquidity :
  forall host_pow fs res,
    calculate host_pow fs = Result res ->
    (rarity fs = one -> liquidityFactor (liquidity fs) = one ->
     CalculateResult.Sfinal res = CalculateResult.S res)
    /\ (isFinite (liquidity fs) = true -> le (liquidity fs) zero = true ->
        isFinite (mul (CalculateResult.S res) (rarity fs)) = true ->
        eq (CalculateResult.Sfinal res) zero = true).
Proof.
  intros host_pow fs res E.
  pose proof (calculate_result_score _ _ _ E) as ->.
  assert (HS : CalculateResult.Sfinal (score host_pow fs)
               = mul (mul (CalculateResult.S (score host_pow fs)) (rarity fs))
                   (liquidityFactor (liquidity fs))) by reflexivity.
  rewrite HS. split.
  - intros Hr HL. rewrite Hr, HL.
    assert (Hv : is_binary64 (CalculateResult.S (score host_pow fs)) = true)
      by apply div_binary64.
    rewrite (mul_one_r _ Hv). apply mul_one_r. exact Hv.
  - intros Hfin Hle Hprod.
    rewrite (liquidity_factor_nonpositive _ Hfin Hle).
    apply mul_zero_r. exact Hprod.
Qed.

Lemma final_score_of_liquidity_witness :
  CalculateResult.Sfinal (score RefHost.pow unparseable_liquidity)
  = CalculateResult.S (score RefHost.pow unparseable_liquidity)
  /\ eq (CalculateResult.Sfinal (score RefHost.pow zero_liquidity)) zero = true.
Proof.
  split.
  - apply (proj1 (final_score_of_liquidity RefHost.pow unparseable_liquidity
                    (score RefHost.pow unparseable_liquidity)
                    ltac:(vm_compute; reflexivity)));
      vm_compute; reflexivity.
  - apply (proj2 (final_score_of_liquidity RefHost.pow zero_liquidity
                    (score RefHost.pow zero_liquidity)
                    ltac:(vm_compute; reflexivity)));
      vm_compute; reflexivity.
Defined.

(** *** The storage hook *)

Import Storage.

Lemma lookup_remove_same :
  forall key items, lookup key (remove key items) = None.
Proof.
  intros key items. induction items as [| [k v] rest IH]; simpl.
  - reflexivity.
  - destruct (String.eqb k key) eqn:E; simpl; [exact IH |].
    rewrite E. exact IH.
Qed.

Lemma lookup_remove_other :
  forall key k items,
    String.eqb key k = false ->
    lookup k (remove key items) = lookup k items.
Proof.
  intros key k items Hne. induction items as [| [k' v] rest IH]; simpl.
  - reflexivity.
  - destruct (String.eqb k' key) eqn:E.
    + apply String.eqb_eq in E. subst k'. rewrite Hne. exact IH.
    + simpl. rewrite IH. reflexivity.
Qed.

Lemma lookup_store_same :
  forall key value items, lookup key (store key value items) = Some value.
Proof. intros. unfold store. simpl. rewrite String.eqb_refl. reflexivity. Qed.

Lemma lookup_store_other :
  forall key value k items,
    String.eqb key k = false ->
    lookup k (store key value items) = lookup k items.
Proof.
  intros key value k items Hne. unfold store. simpl. rewrite Hne.
  apply lookup_remove_other. exact Hne.
Qed.

Lemma last_cons_default :
  forall (A : Type) (rest : list A) (v d : A),
    last rest v = last (v :: rest) d.
Proof.
  intros A rest. induction rest as [| t r IH]; intros v d.
  - reflexivity.
  - change (last (v :: t :: r) d) with (last (t :: r) d).
    rewrite <- (IH t v), <- (IH t d). reflexivity.
Qed.

Section HookFacts.

Variable T : Type.
Variable JSON_parse : string -> option T.
Variable JSON_stringify : T -> Stringified.
Variable Object_is : T -> T -> bool.
Variable quota_ok : Items -> string -> string -> bool.

Hypothesis codec : codec_round_trip T JSON_parse JSON_stringify.
Hypothesis room : forall items key value, quota_ok items key value = true.
Hypothesis same_is_equal : forall a b, Object_is a b = true -> a = b.

Lemma effect_writes :
  forall key v p,
    let p' := effect T JSON_stringify false quota_ok key v p in
    console p' = console p
    /\ (exists s, JSON_stringify v = Text s /\ lookup key (items p') = Some s)
    /\ (forall k, String.eqb key k = false ->
                  lookup k (items p') = lookup k (items p)).
Proof.
  intros key v p. unfold effect. destruct (codec v) as (s & Hs & _ & _).
  rewrite Hs, room. cbn. split; [reflexivity |]. split.
  - exists s. split; [reflexivity | apply lookup_store_same].
  - intros k Hk. apply lookup_store_other. exact Hk.
Qed.

Lemma initializer_page :
  forall key initialValue p,
    items (snd (initializer T JSON_parse false key initialValue p)) = items p.
Proof.
  intros key initialValue p. unfold initializer.
  destruct (lookup key (items p)) as [[| c item] |]; try reflexivity.
  destruct (JSON_parse (String c item)); reflexivity.
Qed.

Lemma initializer_reads_mirror :
  forall key initialValue v s p,
    JSON_stringify v = Text s ->
    lookup key (items p) = Some s ->
    initializer T JSON_parse false key initialValue p = (v, p).
Proof.
  intros key initialValue v s p Hs Hl. unfold initializer. rewrite Hl.
  destruct (codec v) as (s' & Hs' & Hne & Hp).
  rewrite Hs in Hs'. injection Hs' as <-.
  destruct s as [| c s]; [contradiction Hne; reflexivity |].
  rewrite Hp. reflexivity.
Qed.

Lemma mount_mirrored :
  forall key initialValue p,
    let h := mount T JSON_parse JSON_stringify false quota_ok key initialValue p in
    mirrored T JSON_stringify key h
    /\ (forall k, String.eqb key k = false ->
                  lookup k (items (page T h)) = lookup k (items p)).
Proof.
  intros key initialValue p. unfold mount.
  pose proof (initializer_page key initialValue p) as Hi.
  destruct (initializer T JSON_parse false key initialValue p) as [v p'].
  simpl in Hi. unfold mirrored. cbn [storedValue page].
  destruct (effect_writes key v p') as (_ & Hm & Ho). cbn zeta in Ho, Hm.
  split; [exact Hm |]. intros k Hk. rewrite (Ho k Hk), Hi. reflexivity.
Qed.

Lemma setStoredValue_mirrored :
  forall key v h,
    mirrored T JSON_stringify key h ->
    let h' := setStoredValue T JSON_stringify Object_is false quota_ok key v h in
    mirrored T JSON_stringify key h'
    /\ storedValue T h' = v
    /\ console (page T h') = console (page T h)
    /\ (forall k, String.eqb key k = false ->
                  lookup k (items (page T h')) = lookup k (items (page T h))).
Proof.
  intros key v h Hm. unfold setStoredValue.
  destruct (Object_is v (storedValue T h)) eqn:E.
  - apply same_is_equal in E. cbn. auto.
  - unfold mirrored. cbn [storedValue page].
    destruct (effect_writes key v (page T h)) as (Hc & Hw & Ho).
    cbn zeta in Hc, Hw, Ho. split; [exact Hw |]. auto.
Qed.

Lemma calls_mirrored :
  forall key values h,
    mirrored T JSON_stringify key h ->
    let h' := fold_left
                (fun h v => setStoredValue T JSON_stringify Object_is false
                              quota_ok key v h) values h in
    mirrored T JSON_stringify key h'
    /\ storedValue T h' = last values (storedValue T h)
    /\ console (page T h') = console (page T h)
    /\ (forall k, String.eqb key k = false ->
                  lookup k (items (page T h')) = lookup k (items (page T h))).
Proof.
  intros key values. induction values as [| v rest IH]; intros h Hm.
  - cbn. auto.
  - cbn [fold_left].
    destruct (setStoredValue_mirrored key v h Hm) as (Hm1 & Hv1 & Hc1 & Ho1).
    destruct (IH _ Hm1) as (Hm2 & Hv2 & Hc2 & Ho2).
    cbn zeta in *. split; [exact Hm2 |]. split.
    + rewrite Hv2, Hv1. apply last_cons_default.
    + split; [congruence |]. intros k Hk. rewrite (Ho2 k Hk). apply Ho1, Hk.
Qed.

Lemma session_reloads_aux :
  forall key initialValue p values other,
    let h := session T JSON_parse JSON_stringify Object_is false quota_ok
               key initialValue p values in
    storedValue T h
    = last values
        (fst (initializer T JSON_parse false key initialValue p))
    /\ storedValue T
         (mount T JSON_parse JSON_stringify false quota_ok key other (page T h))
       = storedValue T h
    /\ (forall k, String.eqb key k = false ->
                  lookup k (items (page T h)) = lookup k (items p)).
Proof.
  intros key initialValue p values other. unfold session.
  destruct (mount_mirrored key initialValue p) as (Hm0 & Ho0).
  destruct (calls_mirrored key values _ Hm0) as (Hm & Hv & _ & Ho).
  cbn zeta in *. split; [| split].
  - rewrite Hv. unfold mount.
    destruct (initializer T JSON_parse false key initialValue p); reflexivity.
  - destruct Hm as (s & Hs & Hl). unfold mount at 1.
    rewrite (initializer_reads_mirror key other _ s _ Hs Hl). reflexivity.
  - intros k Hk. rewrite (Ho k Hk). apply Ho0, Hk.
Qed.

End HookFacts.

(** X14. While the storage is accessible and has room, and JSON reads
    back what it writes, the hook's state after any calls of its setter is
    the last value set (the value read at the start if there was none), a
    later mount under the same key starts from that state whatever initial
    value it is given, and the items under other keys are untouched. *)
Theorem session_reloads :
  forall (T : Type) JSON_parse JSON_stringify Object_is quota_ok,
    codec_round_trip T JSON_parse JSON_stringify ->
    (forall items key value, quota_ok items key value = true) ->
    (forall a b, Object_is a b = true -> a = b) ->
    forall key initialValue p values other,
      let h := session T JSON_parse JSON_stringify Object_is false quota_ok
                 key initialValue p values in
      storedValue T h
      = last values
          (fst (initializer T JSON_parse false key initialValue p))
      /\ storedValue T
           (mount T JSON_parse JSON_stringify false quota_ok key other
              (page T h))
         = storedValue T h
      /\ (forall k, String.eqb key k = false ->
                    lookup k (items (page T h)) = lookup k (items p)).
Proof.
  intros T JSON_parse JSON_stringify Object_is quota_ok Hc Hr Hs.
  exact (session_reloads_aux T JSON_parse JSON_stringify Object_is quota_ok
           Hc Hr Hs).
Qed.

Lemma bool_codec : codec_round_trip bool parse_bool stringify_bool.
Proof.
  intros [|]; eexists; (split; [reflexivity |]); split;
    (discriminate || reflexivity).
Qed.

Lemma session_reloads_witness :
  let h := session bool parse_bool stringify_bool Bool.eqb false unlimited
             "seen"%string false (mkPage [("theme", "dark")]%string [])
             [true; false; true] in
  storedValue bool h = true
  /\ storedValue bool
       (mount bool parse_bool stringify_bool false unlimited "seen"%string
          false (page bool h)) = true
  /\ lookup "theme"%string (items (page bool h)) = Some "dark"%string.
Proof.
  pose proof (session_reloads bool parse_bool stringify_bool Bool.eqb unlimited
                bool_codec (fun _ _ _ => eq_refl) Bool.eqb_prop
                "seen"%string false (mkPage [("theme", "dark")]%string [])
                [true; false; true] false) as (H1 & H2 & H3).
  split; [exact H1 |]. split; [exact H2 |].
  exact (H3 "theme"%string eq_refl).
Defined.

(** X15. When the item under the key is missing, empty or not JSON, the
    hook starts from the initial value, and once the effect has run the
    item is the JSON text of the initial value: an unreadable item does
    not survive a mount. *)
Theorem mount_replaces_unusable_item :
  forall (T : Type) JSON_parse JSON_stringify quota_ok key initialValue p s,
    lookup key (items p) = None
    \/ lookup key (items p) = Some EmptyString
    \/ (exists item,
          lookup key (items p) = Some item /\ JSON_parse item = None) ->
    JSON_stringify initialValue = Text s ->
    quota_ok (items p) key s = true ->
    let h := mount T JSON_parse JSON_stringify false quota_ok key
               initialValue p in
    storedValue T h = initialValue
    /\ lookup key (items (page T h)) = Some s.
Proof.
  intros T JSON_parse JSON_stringify quota_ok key initialValue p s Hitem Hs Hq.
  assert (Hinit : exists c,
             initializer T JSON_parse false key initialValue p
             = (initialValue, mkPage (items p) c)).
  { unfold initializer.
    destruct Hitem as [-> | [-> | (item & -> & Hp)]].
    - exists (console p). destruct p; reflexivity.
    - exists (console p). destruct p; reflexivity.
    - destruct item as [| c item].
      + exists (console p). destruct p; reflexivity.
      + rewrite Hp. eexists. reflexivity. }
  destruct Hinit as (c & Hinit). unfold mount. rewrite Hinit.
  cbn [storedValue page]. split; [reflexivity |].
  unfold effect. rewrite Hs. cbn [items]. rewrite Hq. cbn [items].
  apply lookup_store_same.
Qed.

Lemma mount_replaces_unusable_item_witness :
  let h := mount bool parse_bool stringify_bool false unlimited "seen"%string
             true (mkPage [("seen", "yes")]%string []) in
  storedValue bool h = true
  /\ lookup "seen"%string (items (page bool h)) = Some "true"%string.
Proof.
  apply (mount_replaces_unusable_item bool parse_bool stringify_bool unlimited
           "seen"%string true (mkPage [("seen", "yes")]%string [])
           "true"%string).
  - right. right. exists "yes"%string. split; reflexivity.
  - reflexivity.
  - reflexivity.
Defined.

Lemma denied_effect :
  forall (T : Type) JSON_stringify quota_ok key (v : T) p,
    effect T JSON_stringify true quota_ok key v p = log SecurityError p.
Proof. reflexivity. Qed.

Lemma denied_calls :
  forall (T : Type) JSON_stringify Object_is quota_ok key,
    (forall a b : T, Object_is a b = true -> a = b) ->
    forall values h,
      let h' := fold_left
                  (fun h v => setStoredValue T JSON_stringify Object_is true
                                quota_ok key v h) values h in
      storedValue T h' = last values (storedValue T h)
      /\ items (page T h') = items (page T h)
      /\ exists n,
           (n <= List.length values)%nat
           /\ console (page T h')
              = console (page T h) ++ repeat SecurityError n.
Proof.
  intros T JSON_stringify Object_is quota_ok key Hsame values.
  induction values as [| v rest IH]; intros h.
  - cbn. split; [reflexivity |]. split; [reflexivity |].
    exists 0%nat. split; [apply le_n | symmetry; apply app_nil_r].
  - cbn [fold_left].
    destruct (IH (setStoredValue T JSON_stringify Object_is true quota_ok
                    key v h)) as (Hv & Hi & n & Hn & Hc).
    cbn zeta. rewrite Hv, Hi, Hc. clear Hv Hi Hc IH.
    unfold setStoredValue. destruct (Object_is v (storedValue T h)) eqn:E.
    + apply Hsame in E. subst v.
      split; [apply last_cons_default |]. split; [reflexivity |].
      exists n. split; [cbn [List.length]; apply le_S, Hn | reflexivity].
    + cbn [storedValue page]. rewrite denied_effect.
      split; [apply last_cons_default |]. split; [reflexivity |].
      exists (S n). split; [cbn [List.length]; apply le_n_S, Hn |].
      cbn [log console]. rewrite <- app_assoc. reflexivity.
Qed.

(** X16. When the browser refuses access to the storage, the hook keeps
    working in memory: it starts from the initial value, its state after
    any calls of the setter is the last value set, the items are never
    changed, and the console receives only SecurityErrors: two for the
    mount and at most one for each call. *)
Theorem refused_storage_keeps_state :
  forall (T : Type) JSON_parse JSON_stringify Object_is quota_ok,
    (forall a b : T, Object_is a b = true -> a = b) ->
    forall key initialValue p values,
      let h := session T JSON_parse JSON_stringify Object_is true quota_ok
                 key initialValue p values in
      storedValue T h = last values initialValue
      /\ items (page T h) = items p
      /\ exists n,
           (n <= List.length values)%nat
           /\ console (page T h)
              = console p ++ repeat SecurityError (2 + n).
Proof.
  intros T JSON_parse JSON_stringify Object_is quota_ok Hsame
    key initialValue p values.
  unfold session.
  destruct (denied_calls T JSON_stringify Object_is quota_ok key Hsame values
              (mount T JSON_parse JSON_stringify true quota_ok key
                 initialValue p)) as (Hv & Hi & n & Hn & Hc).
  cbn zeta in *. rewrite Hv, Hi, Hc.
  split; [reflexivity |]. split; [reflexivity |].
  exists n. split; [exact Hn |].
  cbn. rewrite <- !app_assoc. reflexivity.
Qed.

Lemma refused_storage_keeps_state_witness :
  let h := session bool parse_bool stringify_bool Bool.eqb true unlimited
             "seen"%string false (mkPage [("seen", "true")]%string [])
             [true; true; false] in
  storedValue bool h = false
  /\ items (page bool h) = [("seen", "true")]%string
  /\ exists n,
       (n <= 3)%nat
       /\ console (page bool h) = repeat SecurityError (2 + n).
Proof.
  exact (refused_storage_keeps_state bool parse_bool stringify_bool Bool.eqb
           unlimited Bool.eqb_prop "seen"%string false
           (mkPage [("seen", "true")]%string []) [true; true; false]).
Defined.

(** *** The sign of the discount *)

(** A rounded number keeps the sign it is given. *)
Lemma binary_round_aux_sign :
  forall (s : bool) mx ex l,
    0 <= mx ->
    (if s then le (binary_round_aux prec emax s mx ex l) zero
     else le zero (binary_round_aux prec emax s mx ex l)) = true.
Proof.
  intros s mx ex l Hmx. unfold binary_round_aux.
  destruct (shr_fexp_nonneg mx ex l Hmx) as (mrs1 & e1 & E1 & He1 & Hm1).
  rewrite E1.
  pose proof (round_nearest_even_bounds (shr_m mrs1) (loc_of_shr_record mrs1))
    as Hr.
  assert (Hm1pos : 0 <= shr_m mrs1)
    by (rewrite Hm1; apply Z.div_pos; [lia | apply Z.pow_pos_nonneg; lia]).
  destruct (shr_fexp_nonneg
              (round_nearest_even (shr_m mrs1) (loc_of_shr_record mrs1))
              e1 loc_Exact ltac:(lia)) as (mrs2 & e2 & E2 & He2 & Hm2).
  rewrite E2.
  assert (Hm2pos : 0 <= shr_m mrs2)
    by (rewrite Hm2; apply Z.div_pos; [lia | apply Z.pow_pos_nonneg; lia]).
  destruct (shr_m mrs2) as [| m2 | m2]; [| | lia].
  - destruct s; reflexivity.
  - destruct (e2 <=? emax - prec); destruct s; reflexivity.
Qed.

Lemma binary_round_sign :
  forall (s : bool) m e,
    (if s then le (binary_round prec emax s m e) zero
     else le zero (binary_round prec emax s m e)) = true.
Proof.
  intros s m e. unfold binary_round.
  destruct (shl_align m e _) as [mz ez].
  apply binary_round_aux_sign. lia.
Qed.

Lemma binary_normalize_sign :
  forall m e,
    (0 <= m -> le zero (binary_normalize prec emax m e false) = true)
    /\ (m <= 0 -> le (binary_normalize prec emax m e false) zero = true).
Proof.
  intros [| p | p] e; unfold binary_normalize; split; intros H; try lia;
    try reflexivity.
  - apply (binary_round_sign false).
  - apply (binary_round_sign true).
Qed.

Lemma shl_align_value :
  forall m e e',
    e' <= e -> Zpos (fst (shl_align m e e')) = Zpos m * 2 ^ (e - e').
Proof.
  intros m e e' H. unfold shl_align.
  destruct (e' - e) as [| d | d] eqn:E.
  - replace (e - e') with 0 by lia. simpl fst. lia.
  - lia.
  - simpl fst. rewrite iter_xO_pow. f_equal. f_equal. lia.
Qed.

(** Among the mantissas of the format, a larger exponent means a larger
    number. *)
Lemma canonical_exponent_lt :
  forall m1 e1 m2 e2,
    canonical_mantissa prec emax m1 e1 = true ->
    canonical_mantissa prec emax m2 e2 = true ->
    e1 < e2 ->
    Zpos m1 < Zpos m2 * 2 ^ (e2 - e1).
Proof.
  intros m1 e1 m2 e2 H1 H2 Hlt.
  unfold canonical_mantissa in H1, H2.
  apply Z.eqb_eq in H1. apply Z.eqb_eq in H2.
  rewrite fexp_eq in H1, H2.
  pose proof (digits2_bounds m1) as [A1 A2].
  pose proof (digits2_bounds m2) as [B1 B2].
  set (d1 := Zpos (digits2_pos m1)) in *.
  set (d2 := Zpos (digits2_pos m2)) in *.
  assert (Hd1 : d1 <= 53) by lia.
  assert (Hd2 : d2 = 53) by lia.
  rewrite Hd2 in B1. change (2 ^ (53 - 1)) with 4503599627370496 in B1.
  assert (Hm1 : Zpos m1 < 9007199254740992).
  { apply Z.lt_le_trans with (2 ^ d1); [exact A2 |].
    change 9007199254740992 with (2 ^ 53). apply Z.pow_le_mono_r; lia. }
  assert (Hp : 2 ^ 1 <= 2 ^ (e2 - e1)) by (apply Z.pow_le_mono_r; lia).
  change (2 ^ 1) with 2 in Hp.
  clear - B1 Hm1 Hp. nia.
Qed.

(** For a finite positive [x], the difference [x - y] has the sign that
    the comparison of [y] and [x] tells. *)
Lemma sub_sign :
  forall mx ex y,
    is_binary64 (S754_finite false mx ex) = true ->
    is_binary64 y = true ->
    (le y (S754_finite false mx ex) = true ->
     le zero (sub (S754_finite false mx ex) y) = true)
    /\ (le (S754_finite false mx ex) y = true ->
        le (sub (S754_finite false mx ex) y) zero = true).
Proof.
  intros mx ex y Hx Hy.
  unfold is_binary64, valid_binary, bounded in Hx, Hy.
  apply andb_true_iff in Hx as [Hcx _].
  destruct y as [sy | sy | | sy my ey].
  - split; intro H; [reflexivity | discriminate H].
  - destruct sy; split; intro H; try discriminate H; reflexivity.
  - split; intro H; discriminate H.
  - apply andb_true_iff in Hy as [Hcy _].
    unfold sub, SFsub.
    set (ez := Z.min ex ey).
    rewrite (shl_align_value mx ex ez), (shl_align_value my ey ez)
      by (unfold ez; lia).
    destruct sy.
    + (* y is negative *)
      split; intro H; [| discriminate H].
      apply (proj1 (binary_normalize_sign _ _)). unfold cond_Zopp.
      assert (H1 : 0 < 2 ^ (ex - ez))
        by (apply Z.pow_pos_nonneg; unfold ez; lia).
      assert (H2 : 0 < 2 ^ (ey - ez))
        by (apply Z.pow_pos_nonneg; unfold ez; lia).
      revert H1 H2. generalize (2 ^ (ex - ez)) (2 ^ (ey - ez)).
      clear. intros p1 p2 H1 H2. nia.
    + unfold cond_Zopp. unfold le, SFleb, SFcompare.
      destruct (Z.compare_spec ex ey) as [Heq | Hlt | Hgt].
      * (* the same exponent *)
        subst ey. rewrite Z.compare_refl.
        replace (ex - ez) with 0 by (unfold ez; lia).
        change (2 ^ 0) with 1. rewrite !Z.mul_1_r.
        change (Pos.compare_cont Eq my mx) with (Pos.compare my mx).
        change (Pos.compare_cont Eq mx my) with (Pos.compare mx my).
        split; intro H.
        -- apply (proj1 (binary_normalize_sign _ _)).
           destruct (Pos.compare_spec my mx); try discriminate H; lia.
        -- apply (proj2 (binary_normalize_sign _ _)).
           destruct (Pos.compare_spec mx my); try discriminate H; lia.
      * (* x has the smaller exponent *)
        rewrite (proj2 (Z.compare_gt_iff ey ex)) by lia.
        split; intro H; [discriminate H |].
        apply (proj2 (binary_normalize_sign _ _)).
        pose proof (canonical_exponent_lt mx ex my ey Hcx Hcy Hlt).
        replace (ex - ez) with 0 by (unfold ez; lia).
        replace (ey - ez) with (ey - ex) by (unfold ez; lia).
        change (2 ^ 0) with 1. lia.
      * (* y has the smaller exponent *)
        rewrite (proj2 (Z.compare_lt_iff ey ex)) by lia.
        split; intro H; [| discriminate H].
        apply (proj1 (binary_normalize_sign _ _)).
        pose proof (canonical_exponent_lt my ey mx ex Hcy Hcx ltac:(lia)).
        replace (ey - ez) with 0 by (unfold ez; lia).
        replace (ex - ez) with (ex - ey) by (unfold ez; lia).
        change (2 ^ 0) with 1. lia.
Qed.

(** A quotient by a finite positive number has the sign of the
    dividend. *)
Lemma div_sign :
  forall r mx ex,
    (le zero r = true -> le zero (div r (S754_finite false mx ex)) = true)
    /\ (le r zero = true -> le (div r (S754_finite false mx ex)) zero = true).
Proof.
  intros r mx ex.
  assert (Hcore : forall (s : bool) m e,
             (if s
              then le (div (S754_finite s m e) (S754_finite false mx ex)) zero
              else le zero (div (S754_finite s m e) (S754_finite false mx ex)))
             = true).
  { intros s m e. unfold div, SFdiv. rewrite xorb_false_r.
    unfold SFdiv_core_binary.
    set (m' := match _ with Zpos _ => _ | _ => _ end).
    assert (Hm' : 0 <= m').
    { unfold m'. destruct (_ - _) as [| n | n]; try lia.
      rewrite Z.shiftl_mul_pow2 by lia.
      apply Z.mul_nonneg_nonneg; [lia |]. apply Z.pow_nonneg. lia. }
    pose proof (Z_div_mod m' (Zpos mx) eq_refl) as Hdiv.
    destruct (Z.div_eucl m' (Zpos mx)) as [qu rem].
    apply binary_round_aux_sign. nia. }
  destruct r as [[] | [] | | [] m e]; split; intro H;
    try discriminate H; try reflexivity.
  - apply (Hcore true).
  - apply (Hcore false).
Qed.

Lemma add_binary64 :
  forall x y,
    is_binary64 x = true -> is_binary64 y = true ->
    is_binary64 (add x y) = true.
Proof.
  intros x y Hx Hy. unfold is_binary64, add, SFadd in *.
  destruct x as [sx | sx | | sx mx ex], y as [sy | sy | | sy my ey];
    try assumption; try reflexivity.
  - destruct sx, sy; reflexivity.
  - destruct sx, sy; reflexivity.
  - unfold binary_normalize.
    destruct (_ + _) as [| p | p]; try reflexivity; apply binary_round_valid.
Qed.

Lemma or_else_binary64 :
  forall a b,
    is_binary64 a = true -> is_binary64 b = true ->
    is_binary64 (or_else a b) = true.
Proof. intros a b Ha Hb. unfold or_else. destruct (truthy a); assumption. Qed.

(** X17. For a finite average cost, the discount of a result is not
    negative when the adjusted price is at most the average cost and not
    positive when it is at least the average cost; with a cap that is not
    negative, the clamped discount has the same sign. *)
Theorem discount_sign :
  forall host_pow fs res,
    calculate host_pow fs = Result res ->
    isFinite (CalculateResult.Pm res) = true ->
    (le (CalculateResult.PaAdj res) (CalculateResult.Pm res) = true ->
     le zero (CalculateResult.D res) = true
     /\ (le zero (cap fs) = true -> le zero (CalculateResult.Dc res) = true))
    /\ (le (CalculateResult.Pm res) (CalculateResult.PaAdj res) = true ->
        le (CalculateResult.D res) zero = true
        /\ (le zero (cap fs) = true ->
            le (CalculateResult.Dc res) zero = true)).
Proof.
  intros host_pow fs res E Hfin.
  assert (Hpos : le (averageCost fs) zero = false).
  { rewrite calculate_eq in E.
    destruct (negb _); [discriminate E |].
    destruct (le (averageCost fs) zero); [discriminate E | reflexivity]. }
  pose proof (calculate_result_score _ _ _ E) as ->.
  change (CalculateResult.Pm (score host_pow fs)) with (averageCost fs) in *.
  change (CalculateResult.PaAdj (score host_pow fs))
    with (add (currentPrice fs) (fee fs)).
  change (CalculateResult.D (score host_pow fs))
    with (div (sub (averageCost fs) (add (currentPrice fs) (fee fs)))
            (averageCost fs)).
  change (CalculateResult.Dc (score host_pow fs))
    with (clamp (div (sub (averageCost fs) (add (currentPrice fs) (fee fs)))
                   (averageCost fs))
            (neg (cap fs)) (cap fs)).
  assert (HvPm : is_binary64 (averageCost fs) = true)
    by (apply or_else_binary64; [apply parseFloat_binary64 | reflexivity]).
  assert (HvPa : is_binary64 (add (currentPrice fs) (fee fs)) = true).
  { apply add_binary64;
      (apply or_else_binary64; [apply parseFloat_binary64 | reflexivity]). }
  set (y := add (currentPrice fs) (fee fs)) in *.
  destruct (averageCost fs) as [s | s | | s mx ex] eqn:EPm;
    try discriminate Hfin; [destruct s; discriminate Hpos |].
  destruct s; [discriminate Hpos |].
  destruct (sub_sign mx ex y HvPm HvPa) as [Hs1 Hs2].
  destruct (div_sign (sub (S754_finite false mx ex) y) mx ex) as [Hd1 Hd2].
  set (D := div (sub (S754_finite false mx ex) y) (S754_finite false mx ex))
    in *.
  assert (Hclamp : le zero (cap fs) = true ->
                   is_nan D = false ->
                   (le zero D = true -> le zero (clamp D (neg (cap fs)) (cap fs)) = true)
                   /\ (le D zero = true -> le (clamp D (neg (cap fs)) (cap fs)) zero = true)).
  { intros Hcap HD.
    assert (Hneg : le (neg (cap fs)) zero = true)
      by (destruct (cap fs) as [[] | [] | | [] ? ?];
          try discriminate Hcap; reflexivity).
    assert (Hab : le (neg (cap fs)) (cap fs) = true)
      by (apply le_trans with zero; assumption).
    destruct (clamp_saturates_aux D _ _ HD Hab) as (Ha & Hb & _).
    unfold clamp in *.
    destruct (le_not_nan _ _ Hab) as [Hna Hnb].
    destruct (Math_min_spec (cap fs) D Hnb HD) as (Hy & Hyx & Hyb).
    set (m := Math_min (cap fs) D) in *.
    assert (Hmn : is_nan m = false) by (destruct Hy as [-> | ->]; assumption).
    destruct (Math_max_spec (neg (cap fs)) m Hna Hmn) as (Hz & Hyz & Haz).
    split; intro H.
    - apply le_trans with m; [| exact Hyz].
      destruct Hy as [-> | ->]; assumption.
    - destruct Hz as [-> | ->]; [| exact Hneg].
      apply le_trans with D; assumption. }
  split; intro H.
  - pose proof (Hd1 (Hs1 H)) as HD. split; [exact HD |].
    intro Hcap. apply (proj1 (Hclamp Hcap (proj2 (le_not_nan _ _ HD))) HD).
  - pose proof (Hd2 (Hs2 H)) as HD. split; [exact HD |].
    intro Hcap. apply (proj2 (Hclamp Hcap (proj1 (le_not_nan _ _ HD))) HD).
Qed.

Lemma discount_sign_witness :
  le zero (CalculateResult.D (score RefHost.pow initialFormState)) = true
  /\ le zero (CalculateResult.Dc (score RefHost.pow initialFormState)) = true.
Proof.
  destruct (proj1 (discount_sign RefHost.pow initialFormState
                     (score RefHost.pow initialFormState)
                     ltac:(vm_compute; reflexivity)
                     ltac:(vm_compute; reflexivity))
              ltac:(vm_compute; reflexivity)) as [H1 H2].
  split; [exact H1 | apply H2; vm_compute; reflexivity].
Defined.

(** X18. With a negative cap the bounds of the clamp are crossed, and the
    clamped discount is [-cap] whatever the prices, as long as the discount
    is a number. *)
Theorem negative_cap_fixes_discount :
  forall host_pow fs res,
    calculate host_pow fs = Result res ->
    lt (cap fs) zero = true ->
    is_nan (CalculateResult.D res) = false ->
    CalculateResult.Dc res = neg (cap fs).
Proof.
  intros host_pow fs res E Hcap HD.
  pose proof (calculate_result_score _ _ _ E) as ->.
  change (CalculateResult.Dc (score host_pow fs))
    with (clamp (CalculateResult.D (score host_pow fs))
            (neg (cap fs)) (cap fs)).
  set (D := CalculateResult.D (score host_pow fs)) in *.
  unfold clamp.
  assert (Hnc : is_nan (cap fs) = false)
    by (destruct (cap fs); try discriminate Hcap; reflexivity).
  assert (Hnn : is_nan (neg (cap fs)) = false)
    by (destruct (cap fs); try discriminate Hcap; reflexivity).
  destruct (Math_min_spec (cap fs) D Hnc HD) as (Hy & _ & Hyb).
  set (m := Math_min (cap fs) D) in *.
  assert (Hmn : is_nan m = false) by (destruct Hy as [-> | ->]; assumption).
  assert (Hlt : lt m (neg (cap fs)) = true).
  { apply le_lt_trans with (cap fs); [exact Hyb |].
    apply lt_trans with zero; [exact Hcap |].
    destruct (cap fs) as [[] | [] | | [] ? ?]; try discriminate Hcap;
      reflexivity. }
  rewrite (Math_max_cases _ _ Hnn Hmn).
  assert (Hz : (is_pos_zero m && is_neg_zero (neg (cap fs)))%bool = false).
  { destruct (cap fs) as [[] | [] | | [] ? ?]; try discriminate Hcap;
      simpl; apply andb_false_r. }
  rewrite Hz.
  assert (Hgt : gt m (neg (cap fs)) = false).
  { destruct (gt m (neg (cap fs))) eqn:G; [| reflexivity].
    pose proof (gt_not_le _ _ G) as Hle.
    rewrite (lt_le _ _ Hlt) in Hle. discriminate Hle. }
  rewrite Hgt. reflexivity.
Qed.

Lemma negative_cap_fixes_discount_witness :
  CalculateResult.Dc (score RefHost.pow negative_cap) = dec 5 (-1).
Proof.
  rewrite (negative_cap_fixes_discount RefHost.pow negative_cap
             (score RefHost.pow negative_cap));
    vm_compute; reflexivity.
Defined.

(** *** What is on the screen *)

Import Display.

Lemma fmt_three_four_total :
  forall host_toString x,
    (exists text, fmt host_toString x three = Some text)
    /\ (exists text, fmt host_toString x four = Some text).
Proof.
  intros host_toString x. unfold fmt.
  destruct (isFinite x); [| split; eexists; reflexivity].
  unfold toFixed.
  replace (ToIntegerOrInfinity three) with (Integer 3) by by_computation.
  replace (ToIntegerOrInfinity four) with (Integer 4) by by_computation.
  cbn [Z.ltb Z.compare Pos.compare Pos.compare_cont orb].
  destruct x as [s | [] | | s m e]; split; eexists; reflexivity.
Qed.

(** X19. Rendering never raises: the score of the result panel and the
    score and float cells of a history row are always a text, whatever
    the numbers and whatever text the row holds for the float. *)
Theorem render_never_throws :
  forall host_toString res item,
    (exists text, score_text host_toString res = Some text)
    /\ (exists text, score_cell host_toString item = Some text)
    /\ (exists text, float_cell host_toString item = Some text).
Proof.
  intros host_toString res item. unfold score_text, score_cell, float_cell.
  split; [apply fmt_three_four_total |].
  split; [apply fmt_three_four_total |].
  apply (proj2 (fmt_three_four_total host_toString _)).
Qed.

Lemma handle_panel :
  forall host_pow ev st,
    ((forall res, result st = Some res ->
                  exists form, calculate host_pow form = Result res)
     /\ (history st <> [] -> result st <> None)) ->
    (forall res, result (handle host_pow ev st) = Some res ->
                 exists form, calculate host_pow form = Result res)
    /\ (history (handle host_pow ev st) <> [] ->
        result (handle host_pow ev st) <> None).
Proof.
  intros host_pow ev st [H1 H2].
  destruct ev as [k value | | id |]; simpl.
  - split; assumption.
  - unfold handleCalculate.
    destruct (calculate host_pow (formState st)) as [v | r] eqn:E; simpl.
    + split; assumption.
    + split; [| discriminate].
      intros res Hres. injection Hres as <-. exists (formState st). exact E.
  - unfold handleAddHistory.
    destruct (calculate host_pow (formState st)) as [v | r] eqn:E; simpl.
    + split; assumption.
    + split; [| discriminate].
      intros res Hres. injection Hres as <-. exists (formState st). exact E.
  - split; [discriminate |]. intro H. contradiction H. reflexivity.
Qed.

Lemma run_panel :
  forall host_pow evs st,
    ((forall res, result st = Some res ->
                  exists form, calculate host_pow form = Result res)
     /\ (history st <> [] -> result st <> None)) ->
    (forall res, result (run host_pow evs st) = Some res ->
                 exists form, calculate host_pow form = Result res)
    /\ (history (run host_pow evs st) <> [] ->
        result (run host_pow evs st) <> None).
Proof.
  intros host_pow evs. induction evs as [| ev evs IH]; intros st H.
  - exact H.
  - unfold run in *. simpl fold_left. apply IH. apply handle_panel. exact H.
Qed.

(** X20. Whatever the events since the start: the result panel shows only
    records that [calculate] returned for some form; the panel is never
    empty while the history has rows; and a commit that passes the checks
    adds a row whose score and status cells read as the panel does. *)
Theorem panel_follows_calculations :
  forall host_pow host_toString evs,
    let st := run host_pow evs initialState in
    (forall res, result st = Some res ->
                 exists form, calculate host_pow form = Result res)
    /\ (history st <> [] -> result st <> None)
    /\ (forall id res,
          calculate host_pow (formState st) = Result res ->
          let st' := handle host_pow (AddHistory id) st in
          exists item,
            history st' = item :: history st
            /\ result st' = Some res
            /\ score_cell host_toString item = score_text host_toString res
            /\ status_cell item = status_text res).
Proof.
  intros host_pow host_toString evs st.
  destruct (run_panel host_pow evs initialState) as [H1 H2].
  { split; [discriminate |]. intro H. contradiction H. reflexivity. }
  split; [exact H1 |]. split; [exact H2 |].
  intros id res E st'. subst st'. simpl. unfold handleAddHistory.
  fold st. rewrite E. eexists. repeat split.
Qed.

(** *** C5: the range of the float quality *)

Section ExactFacts.
Import Reals Lra.
Import Number App Inputs Scenarios Exact.
Local Open Scope R_scope.









































End ExactFacts.
